(** * dodolib: filesystem and web-driver download helpers

    A shallow embedding of [scripts/dodolib/fsutil.py] and
    [scripts/dodolib/netutil.py].  Python strings are [string]s, the
    operating system (file tree, working directory, platform, remote HTTP
    endpoints, child processes, the two [lru_cache]s) is an explicit
    [World] threaded through a state-and-exception monad, and every
    function of the two modules is a definition of the same name.
    [scripts/dodolib/helpers.py], the clean-up tasks of [dodo.py] and
    the [DepExtractor] of [scripts/extract_req.py] follow them. *)

From stdpp Require Import gmap strings list fin_maps pretty.
From Stdlib Require Import ZArith Ascii.

Local Open Scope Z_scope.
Local Open Scope stdpp_scope.

(** ** Python [str] methods used by the two modules *)
Module PyStr.

(** [s.startswith(p)] *)
Fixpoint startswith (s p : string) {struct p} : bool :=
  match p, s with
  | EmptyString, _ => true
  | String _ _, EmptyString => false
  | String b p', String a s' => Ascii.eqb a b && startswith s' p'
  end.

(** [s.endswith(p)]: [p] is [s] or ends what follows the first
    character of [s]. *)
Fixpoint endswith (s p : string) : bool :=
  String.eqb s p ||
  match s with
  | EmptyString => false
  | String _ s' => endswith s' p
  end.

(** [p in s] *)
Fixpoint contains (s p : string) : bool :=
  startswith s p ||
  match s with
  | EmptyString => false
  | String _ s' => contains s' p
  end.

(** [s.split(sep)] for a one-character separator: never empty. *)
Fixpoint split (sep : ascii) (s : string) : list string :=
  match s with
  | EmptyString => [EmptyString]
  | String a s' =>
      if Ascii.eqb a sep then EmptyString :: split sep s'
      else match split sep s' with
           | [] => [String a EmptyString]
           | w :: ws => String a w :: ws
           end
  end.

(** [sep.join(parts)] *)
Definition join (sep : ascii) (parts : list string) : string :=
  String.concat (String sep EmptyString) parts.

(** [s.rsplit(sep, 1)[0]]: what stands before the last separator, the
    whole string when there is none. *)
Definition rsplit1_head (sep : ascii) (s : string) : string :=
  match split sep s with
  | [] | [_] => s
  | parts => join sep (removelast parts)
  end.

(** [s.rsplit(sep)[-1]]: what stands after the last separator. *)
Definition rsplit_last (sep : ascii) (s : string) : string :=
  List.last (split sep s) EmptyString.

(** [str.isspace] on the code points below 128. *)
Definition is_space (a : ascii) : bool :=
  match a with
  | "009" | "010" | "011" | "012" | "013"
  | "028" | "029" | "030" | "031" | " " => true
  | _ => false
  end%char.

Fixpoint lstrip_by (f : ascii → bool) (s : string) : string :=
  match s with
  | EmptyString => EmptyString
  | String a s' => if f a then lstrip_by f s' else s
  end.

(** What is left of [s] once its trailing characters in [f] are gone:
    a character goes when it is in [f] and nothing is left of what
    follows. *)
Fixpoint rstrip_by (f : ascii → bool) (s : string) : string :=
  match s with
  | EmptyString => EmptyString
  | String a s' =>
      match rstrip_by f s' with
      | EmptyString => if f a then EmptyString else String a EmptyString
      | r => String a r
      end
  end.

(** [s.strip()] *)
Definition strip (s : string) : string :=
  rstrip_by is_space (lstrip_by is_space s).

(** [s.lstrip(c)] and [s.rstrip(c)] for a one-character set: every
    leading (trailing) occurrence goes. *)
Definition lstrip_char (c : ascii) : string → string :=
  lstrip_by (Ascii.eqb c).
Definition rstrip_char (c : ascii) : string → string :=
  rstrip_by (Ascii.eqb c).

Fixpoint all_chars (f : ascii → bool) (s : string) : bool :=
  match s with
  | EmptyString => true
  | String a s' => f a && all_chars f s'
  end.

(** [s.replace(old, new)]: [skip] counts the characters of a match that
    are still to be dropped. *)
Fixpoint replace_from (old new : string) (skip : nat) (s : string) : string :=
  match s with
  | EmptyString => if String.eqb old EmptyString then new else EmptyString
  | String a s' =>
      match skip with
      | S k => replace_from old new k s'
      | O =>
          if String.eqb old EmptyString
          then new +:+ String a (replace_from old new O s')
          else if startswith s old
               then new +:+ replace_from old new (String.length old - 1) s'
               else String a (replace_from old new O s')
      end
  end.
Definition replace (old new s : string) : string := replace_from old new O s.

(** [s.split()]: the words between runs of white space. *)
Fixpoint words_go (cur : option string) (s : string) : list string :=
  match s with
  | EmptyString => option_list (String.rev <$> cur)
  | String a s' =>
      if is_space a
      then option_list (String.rev <$> cur) ++ words_go None s'
      else words_go (Some (from_option (String a) (String a EmptyString) cur)) s'
  end.
Definition words : string → list string := words_go None.

Definition is_digit (a : ascii) : bool :=
  match a with
  | "0" | "1" | "2" | "3" | "4" | "5" | "6" | "7" | "8" | "9" => true
  | _ => false
  end%char.

(** The longest run of digits at the head of [s], and what follows. *)
Fixpoint span_digits (s : string) : string * string :=
  match s with
  | EmptyString => (EmptyString, EmptyString)
  | String a s' =>
      if is_digit a
      then let '(d, r) := span_digits s' in (String a d, r)
      else (EmptyString, s)
  end.

(** [re.match(r'\d+\.\d+\.\d+', s)]: each [\d+] is greedy, and a shorter
    run is followed by a digit, never by the dot, so backtracking finds
    nothing the longest runs miss. *)
Definition match_version (s : string) : option string :=
  let '(d1, r1) := span_digits s in
  match d1, r1 with
  | String _ _, String "." r1' =>
      let '(d2, r2) := span_digits r1' in
      match d2, r2 with
      | String _ _, String "." r2' =>
          let '(d3, _) := span_digits r2' in
          match d3 with
          | String _ _ => Some (d1 +:+ "." +:+ d2 +:+ "." +:+ d3)
          | EmptyString => None
          end
      | _, _ => None
      end
  | _, _ => None
  end.

(** [re.compile(r'\d+\.\d+\.\d+').search(s)]: the leftmost match. *)
Fixpoint search_version (s : string) : option string :=
  match match_version s with
  | Some m => Some m
  | None =>
      match s with
      | EmptyString => None
      | String _ s' => search_version s'
      end
  end.

End PyStr.

(** ** [posixpath] *)
Module PosixPath.
Import PyStr.

Definition sep : ascii := "/"%char.

Definition isabs (p : string) : bool := startswith p "/".

(** One step of [os.path.join]. *)
Definition join2 (path b : string) : string :=
  if startswith b "/" then b
  else if String.eqb path EmptyString || endswith path "/" then path +:+ b
  else path +:+ "/" +:+ b.

(** [os.path.join(a, *p)] *)
Definition join (a : string) (p : list string) : string := fold_left join2 p a.

(** [p[:p.rfind('/') + 1]] *)
Definition head_part (p : string) : string :=
  match split sep p with
  | [] | [_] => EmptyString
  | parts => PyStr.join sep (removelast parts) +:+ "/"
  end.

(** [os.path.basename(p)] *)
Definition basename (p : string) : string := rsplit_last sep p.

(** [os.path.dirname(p)] *)
Definition dirname (p : string) : string :=
  let head := head_part p in
  if negb (String.eqb head EmptyString) && negb (all_chars (Ascii.eqb sep) head)
  then rstrip_char sep head
  else head.

(** [os.path.splitext(p)[1]]: the extension starts at the last dot of
    the base name, unless only dots stand before it. *)
Definition splitext_ext (p : string) : string :=
  match split "."%char (basename p) with
  | [] | [_] => EmptyString
  | parts =>
      if forallb (String.eqb EmptyString) (removelast parts) then EmptyString
      else "." +:+ List.last parts EmptyString
  end.

(** The loop of [os.path.normpath] over the components. *)
Fixpoint norm_comps (initial_slashes : nat) (new_comps comps : list string)
  : list string :=
  match comps with
  | [] => new_comps
  | comp :: rest =>
      if String.eqb comp EmptyString || String.eqb comp "." then
        norm_comps initial_slashes new_comps rest
      else if negb (String.eqb comp "..")
              || (Nat.eqb initial_slashes 0 && Nat.eqb (List.length new_comps) 0)
              || String.eqb (List.last new_comps EmptyString) ".."
      then norm_comps initial_slashes (new_comps ++ [comp]) rest
      else norm_comps initial_slashes (removelast new_comps) rest
  end.

(** [os.path.normpath(path)] *)
Definition normpath (path : string) : string :=
  if String.eqb path EmptyString then "."
  else
    let initial_slashes :=
      if startswith path "/" then
        if startswith path "//" && negb (startswith path "///") then 2%nat
        else 1%nat
      else 0%nat in
    let comps := norm_comps initial_slashes [] (split sep path) in
    let path' :=
      String.concat EmptyString (replicate initial_slashes "/")
      +:+ PyStr.join sep comps in
    if String.eqb path' EmptyString then "." else path'.

(** [os.path.abspath(path)], given [os.getcwd()]. *)
Definition abspath (cwd path : string) : string :=
  normpath (if isabs path then path else join2 cwd path).

End PosixPath.

(** ** Exceptions, results and values *)
Module Py.

(** The exceptions the two modules raise or let through.  The spec's
    names for them: [KeyError] on a platform key is UnsupportedPlatform,
    the [RuntimeError] of [unarchive] is UnsupportedArchiveFormat, that
    of [find_repo_root] is RepoRootNotFound, the [AssertionError] of
    [go] is DownloadVerificationFailed and [HTTPError] is
    HttpStatusError. *)
Inductive exn :=
| KeyError (key : string)
| AssertionError (msg : string)
| RuntimeError (msg : string)
| TypeError (msg : string)
| AttributeError (msg : string)
| IndexError (msg : string)
| HTTPError (status : Z)
| ConnectionError (url : string)
| FileNotFoundError (path : string)
| NotADirectoryError (path : string)
| IsADirectoryError (path : string)
| OSError (path : string)
| ReadError (path : string)
| BadZipFile (path : string)
| ValueError (msg : string)
| Hangs.

Inductive result (A : Type) :=
| Ok (a : A)
| Raise (e : exn).
Global Arguments Ok {A} a.
Global Arguments Raise {A} e.

(** What an attribute of a downloader holds: a [str] or [None]. *)
Inductive value :=
| VNone
| VStr (s : string).

Global Instance value_eq_dec : EqDecision value.
Proof. solve_decision. Defined.

(** [str(v)], as an f-string or [str.format] prints it. *)
Definition py_str (v : value) : string :=
  match v with
  | VNone => "None"
  | VStr s => s
  end.

(** [repr(s)] of a string without quotes or escapes in it. *)
Definition py_repr (s : string) : string := "'" +:+ s +:+ "'".

End Py.

(** ** The operating system as the two modules see it *)
Module OS.
Import PyStr Py.

(** A file-tree entry.  The tree is a finite map from absolute paths,
    as lists of components from the root [[]], to entries; there are no
    symbolic links. *)
Inductive node :=
| File (content : string)
| Dir.

Global Instance node_eq_dec : EqDecision node.
Proof. solve_decision. Defined.

(** An HTTP response: status, headers (names in lower case, as the
    case-insensitive [resp.headers] finds them) and the body as the
    chunks [iter_content] delivers. *)
Record response := mkResponse {
  status_code : Z;
  headers : gmap string string;
  body : list string;
}.

(** What the process does to the outside, in order. *)
Inductive event :=
| EvHttpGet (url : string) (allow_redirects : bool)
| EvPopen (argv : list string)
| EvListdir (path : string)
| EvOpenW (path : string)
| EvExtractAll (archive target : string)
| EvRemove (path : string)
| EvRmtree (path : string)
| EvChdir (path : string)
| EvPrint (line : string).

Global Instance event_eq_dec : EqDecision event.
Proof. solve_decision. Defined.

Record World := mkWorld {
  (** [platform.uname().system] and [.machine] *)
  system : string;
  machine : string;
  (** the working directory and the file tree *)
  cwd : list string;
  fs : gmap (list string) node;
  (** the remote endpoints: the response to a GET of a URL, following
      redirects or not; [None] when the host cannot be reached *)
  remote : string → bool → option response;
  (** the standard output of a child process; [None] when the program
      is not installed *)
  popen : list string → option string;
  (** the members (name, content) [tarfile] and [zipfile] read from the
      bytes of an archive; [None] when the bytes are no such archive *)
  untar : string → option (list (string * string));
  unzip : string → option (list (string * string));
  (** what has happened so far *)
  log : list event;
  (** the one-entry [lru_cache] of [find_repo_root], keyed by its
      argument, and of [GeckoDownloader.get_latest_version], keyed by
      the instance *)
  repo_root_cache : option (option string * string);
  latest_version_cache : option (nat * string);
  (** the objects of the process: the attributes of each, by identity *)
  objects : gmap nat (gmap string value);
}.

Definition set_fs (t : gmap (list string) node) (w : World) : World :=
  mkWorld (system w) (machine w) (cwd w) t (remote w) (popen w)
          (untar w) (unzip w) (log w)
          (repo_root_cache w) (latest_version_cache w) (objects w).
Definition set_cwd (d : list string) (w : World) : World :=
  mkWorld (system w) (machine w) d (fs w) (remote w) (popen w)
          (untar w) (unzip w) (log w)
          (repo_root_cache w) (latest_version_cache w) (objects w).
Definition set_log (l : list event) (w : World) : World :=
  mkWorld (system w) (machine w) (cwd w) (fs w) (remote w) (popen w)
          (untar w) (unzip w) l
          (repo_root_cache w) (latest_version_cache w) (objects w).
Definition set_repo_root_cache (c : option (option string * string))
    (w : World) : World :=
  mkWorld (system w) (machine w) (cwd w) (fs w) (remote w) (popen w)
          (untar w) (unzip w) (log w) c (latest_version_cache w) (objects w).
Definition set_latest_version_cache (c : option (nat * string))
    (w : World) : World :=
  mkWorld (system w) (machine w) (cwd w) (fs w) (remote w) (popen w)
          (untar w) (unzip w) (log w) (repo_root_cache w) c (objects w).
Definition set_objects (o : gmap nat (gmap string value)) (w : World) : World :=
  mkWorld (system w) (machine w) (cwd w) (fs w) (remote w) (popen w)
          (untar w) (unzip w) (log w)
          (repo_root_cache w) (latest_version_cache w) o.
(** The remote endpoints change behind the back of the process. *)
Definition set_remote (r : string → bool → option response) (w : World) : World :=
  mkWorld (system w) (machine w) (cwd w) (fs w) r (popen w)
          (untar w) (unzip w) (log w)
          (repo_root_cache w) (latest_version_cache w) (objects w).

(** *** The monad: a world in, a result or an exception and a world out *)
Definition M (A : Type) : Type := World → result A * World.

Global Instance M_ret : MRet M := λ A a w, (Ok a, w).
Global Instance M_bind : MBind M := λ A B f m w,
  match m w with
  | (Ok a, w') => f a w'
  | (Raise e, w') => (Raise e, w')
  end.

Definition raise {A} (e : exn) : M A := λ w, (Raise e, w).
Definition get : M World := λ w, (Ok w, w).
Definition modify (f : World → World) : M unit := λ w, (Ok tt, f w).
Definition emit (e : event) : M unit := modify (λ w, set_log (log w ++ [e]) w).

(** [try: body finally: cleanup] *)
Definition try_finally {A} (body : M A) (cleanup : M unit) : M A := λ w,
  match body w with
  | (r, w') =>
      match cleanup w' with
      | (Ok _, w'') => (r, w'')
      | (Raise e, w'') => (Raise e, w'')
      end
  end.

(** [assert cond, msg] *)
Definition py_assert (cond : bool) (msg : string) : M unit :=
  if cond then mret tt else raise (AssertionError msg).

(** [for x in xs: body(x)] *)
Fixpoint for_each {A} (xs : list A) (body : A → M unit) : M unit :=
  match xs with
  | [] => mret tt
  | x :: rest => body x ;; for_each rest body
  end.

(** *** Path resolution *)

Definition step (cur : list string) (c : string) : list string :=
  if String.eqb c EmptyString || String.eqb c "." then cur
  else if String.eqb c ".." then removelast cur
  else cur ++ [c].

(** Every component is looked up in a directory. *)
Fixpoint walk (t : gmap (list string) node) (cur comps : list string)
  : option (list string) :=
  match comps with
  | [] => Some cur
  | c :: rest =>
      match t !! cur with
      | Some Dir => walk t (step cur c) rest
      | _ => None
      end
  end.

(** Where a path string points: the place may hold no entry, but the
    directories on the way to it exist. *)
Definition locate (t : gmap (list string) node) (d : list string) (p : string)
  : option (list string) :=
  if String.eqb p EmptyString then None
  else walk t (if PosixPath.isabs p then [] else d) (split "/" p).

Definition stat (t : gmap (list string) node) (d : list string) (p : string)
  : option node :=
  k ← locate t d p; t !! k.

(** [os.path.isdir], [isfile] and [lexists]: what they answer. *)
Definition isdir_at t d p : bool := bool_decide (stat t d p = Some Dir).
Definition isfile_at t d p : bool :=
  match stat t d p with Some (File _) => true | _ => false end.
Definition lexists_at t d p : bool :=
  match stat t d p with Some _ => true | None => false end.

Definition isdir (p : string) : M bool :=
  w ← get; mret (isdir_at (fs w) (cwd w) p).
Definition isfile (p : string) : M bool :=
  w ← get; mret (isfile_at (fs w) (cwd w) p).

(** The name of [k] when it is an entry right under [d]. *)
Fixpoint child_name (d k : list string) : option string :=
  match d, k with
  | [], [n] => Some n
  | x :: d', y :: k' => if String.eqb x y then child_name d' k' else None
  | _, _ => None
  end.

Definition children (t : gmap (list string) node) (d : list string)
  : list string :=
  omap (λ kv, child_name d kv.1) (map_to_list t).

(** [os.getcwd()] *)
Definition getcwd : M string :=
  w ← get;
  match fs w !! cwd w with
  | Some Dir => mret ("/" +:+ join "/" (cwd w))
  | _ => raise (FileNotFoundError ".")
  end.

(** [os.chdir(p)] *)
Definition chdir (p : string) : M unit :=
  emit (EvChdir p);;
  w ← get;
  match locate (fs w) (cwd w) p with
  | Some k =>
      match fs w !! k with
      | Some Dir => modify (set_cwd k)
      | Some (File _) => raise (NotADirectoryError p)
      | None => raise (FileNotFoundError p)
      end
  | None => raise (FileNotFoundError p)
  end.

(** [os.listdir(p)] *)
Definition listdir (p : string) : M (list string) :=
  emit (EvListdir p);;
  w ← get;
  match locate (fs w) (cwd w) p with
  | Some k =>
      match fs w !! k with
      | Some Dir => mret (children (fs w) k)
      | Some (File _) => raise (NotADirectoryError p)
      | None => raise (FileNotFoundError p)
      end
  | None => raise (FileNotFoundError p)
  end.

(** [with open(p, 'w') as fd: fd.write(content)]: the file is created
    or truncated. *)
Definition write_file (p content : string) : M unit :=
  emit (EvOpenW p);;
  w ← get;
  match locate (fs w) (cwd w) p with
  | Some k =>
      match fs w !! k with
      | Some Dir => raise (IsADirectoryError p)
      | _ => modify (set_fs (<[k := File content]> (fs w)))
      end
  | None => raise (FileNotFoundError p)
  end.

(** [os.remove(p)] *)
Definition remove (p : string) : M unit :=
  emit (EvRemove p);;
  w ← get;
  match locate (fs w) (cwd w) p with
  | Some k =>
      match fs w !! k with
      | Some (File _) => modify (set_fs (delete k (fs w)))
      | Some Dir => raise (IsADirectoryError p)
      | None => raise (FileNotFoundError p)
      end
  | None => raise (FileNotFoundError p)
  end.

(** The tree without [k] and everything beneath it. *)
Definition prune (k : list string) (t : gmap (list string) node)
  : gmap (list string) node :=
  filter (λ kv, ¬ k `prefix_of` kv.1) t.

(** [shutil.rmtree(p)]: a directory goes with all beneath it; anything
    else raises.  The root directory loses its content, and removing
    the root itself then fails. *)
Definition rmtree (p : string) : M unit :=
  emit (EvRmtree p);;
  w ← get;
  match locate (fs w) (cwd w) p with
  | Some k =>
      match fs w !! k with
      | Some Dir =>
          match k with
          | [] => modify (set_fs (<[[] := Dir]> (prune [] (fs w))));;
                  raise (OSError p)
          | _ => modify (set_fs (prune k (fs w)))
          end
      | Some (File _) => raise (NotADirectoryError p)
      | None => raise (FileNotFoundError p)
      end
  | None => raise (FileNotFoundError p)
  end.

(** The directories above [k] that the tree lacks, outermost first. *)
Definition missing_parents (t : gmap (list string) node) (k : list string)
  : list (list string) :=
  filter (λ d, t !! d = None) ((λ n, take n k) <$> seq 0 (length k)).

(** One member of an archive lands under [target]; the directories on
    the way are made. *)
Definition extract_member (target : string) (m : string * string) : M unit :=
  w ← get;
  let p := PosixPath.join2 target m.1 in
  let comps := split "/" p in
  let start := if PosixPath.isabs p then [] else cwd w in
  let k := fold_left step comps start in
  let t := foldr (λ d, <[d := Dir]>) (fs w) (missing_parents (fs w) k) in
  match locate t (cwd w) p with
  | Some k' =>
      match t !! k' with
      | Some Dir => raise (IsADirectoryError p)
      | _ => modify (set_fs (<[k' := File m.2]> t))
      end
  | None => raise (NotADirectoryError p)
  end.

(** [tarfile.open(p, 'r:gz')] then [extractall(target)], and the same
    through [zipfile.ZipFile]. *)
Definition extractall
    (decode : World → string → option (list (string * string)))
    (bad : string → exn) (p target : string) : M unit :=
  w ← get;
  match stat (fs w) (cwd w) p with
  | Some (File bytes) =>
      match decode w bytes with
      | Some members =>
          emit (EvExtractAll p target);;
          for_each members (extract_member target)
      | None => raise (bad p)
      end
  | Some Dir => raise (IsADirectoryError p)
  | None => raise (FileNotFoundError p)
  end.

(** [requests.get(url, allow_redirects=...)] and [urlopen(url)] *)
Definition http_get (url : string) (allow_redirects : bool) : M response :=
  emit (EvHttpGet url allow_redirects);;
  w ← get;
  match remote w url allow_redirects with
  | Some r => mret r
  | None => raise (ConnectionError url)
  end.

(** [subprocess.Popen(argv, stdout=PIPE)] and reading its output. *)
Definition run_popen (argv : list string) : M string :=
  emit (EvPopen argv);;
  w ← get;
  match popen w argv with
  | Some out => mret out
  | None => raise (FileNotFoundError (default EmptyString (head argv)))
  end.

(** [print(line)] *)
Definition print (line : string) : M unit := emit (EvPrint line).

End OS.

(** ** [glob.glob(pattern, recursive=True)] *)
Module Glob.
Import PyStr Py OS.

Definition has_magic (s : string) : bool :=
  contains s "*" || contains s "?" || contains s "[".

Definition isrecursive (pattern : string) : bool := String.eqb pattern "**".

Definition ishidden (name : string) : bool := startswith name ".".

(** [fnmatch] of one name against one pattern component: [*] is any
    run of characters, [?] any one character.  Bracket classes are not
    modelled: a component with [[] matches no name. *)
Fixpoint fnmatch (pat name : string) {struct pat} : bool :=
  match pat with
  | EmptyString => String.eqb name EmptyString
  | String c pat' =>
      if Ascii.eqb c "*" then
        (fix star (n : string) : bool :=
           fnmatch pat' n ||
           match n with
           | EmptyString => false
           | String _ n' => star n'
           end) name
      else if Ascii.eqb c "[" then false
      else match name with
           | EmptyString => false
           | String d n' =>
               (Ascii.eqb c "?" || Ascii.eqb c d) && fnmatch pat' n'
           end
  end.

(** [glob._join] *)
Definition gjoin (dirname basename : string) : string :=
  if String.eqb dirname EmptyString || String.eqb basename EmptyString
  then dirname +:+ basename
  else PosixPath.join2 dirname basename.

Section Tree.
Context (t : gmap (list string) node) (d : list string).

(** [glob._listdir]: the names in a directory, only the directories
    among them when [dironly]; nothing when it cannot be listed. *)
Definition glistdir (dirname : string) (dironly : bool) : list string :=
  match locate t d (if String.eqb dirname EmptyString then "." else dirname) with
  | Some k =>
      match t !! k with
      | Some Dir =>
          filter (λ n, dironly = false ∨ t !! (k ++ [n]) = Some Dir)
                 (children t k)
      | _ => []
      end
  | None => []
  end.

Definition glob1 (dirname pattern : string) (dironly : bool) : list string :=
  let names := glistdir dirname dironly in
  let names := if ishidden pattern then names
               else filter (λ x, ishidden x = false) names in
  filter (λ x, fnmatch pattern x = true) names.

Definition glob0 (dirname basename : string) (dironly : bool) : list string :=
  if negb (String.eqb basename EmptyString) then
    if lexists_at t d (gjoin dirname basename) then [basename] else []
  else
    if isdir_at t d dirname then [basename] else [].

(** [glob._rlistdir]; [depth] bounds the descent, and the number of
    entries of the tree is enough. *)
Fixpoint rlistdir (depth : nat) (dirname : string) (dironly : bool)
  : list string :=
  match depth with
  | O => []
  | S depth' =>
      flat_map
        (λ x, if ishidden x then []
              else x :: (gjoin x <$>
                           rlistdir depth'
                             (if String.eqb dirname EmptyString then x
                              else gjoin dirname x)
                             dironly))
        (glistdir dirname dironly)
  end.

Definition glob2 (dirname pattern : string) (dironly : bool) : list string :=
  EmptyString :: rlistdir (size t) dirname dironly.

(** [glob._iglob]; the recursion is on the directory part of the
    pattern, which is shorter than the pattern. *)
Fixpoint iglob_ (fuel : nat) (pathname : string) (dironly : bool)
  : list string :=
  let dirname := PosixPath.dirname pathname in
  let basename := PosixPath.basename pathname in
  if negb (has_magic pathname) then
    if negb (String.eqb basename EmptyString) then
      if lexists_at t d pathname then [pathname] else []
    else
      if isdir_at t d dirname then [pathname] else []
  else if String.eqb dirname EmptyString then
    if isrecursive basename then glob2 EmptyString basename dironly
    else glob1 EmptyString basename dironly
  else
    let dirs :=
      if negb (String.eqb dirname pathname) && has_magic dirname then
        match fuel with
        | O => []
        | S fuel' => iglob_ fuel' dirname true
        end
      else [dirname] in
    let glob_in_dir :=
      if has_magic basename then
        if isrecursive basename then glob2 else glob1
      else glob0 in
    flat_map (λ dirname,
                PosixPath.join2 dirname <$> glob_in_dir dirname basename dironly)
             dirs.

(** [glob(pathname, recursive=True)]: an empty first match of a
    pattern that starts with two stars is dropped. *)
Definition glob (pathname : string) : list string :=
  let it := iglob_ (String.length pathname) pathname false in
  if String.eqb pathname EmptyString
     || isrecursive (String.substring 0 2 pathname)
  then match it with
       | EmptyString :: rest => rest
       | _ => it
       end
  else it.
End Tree.

End Glob.

(** ** [scripts/dodolib/fsutil.py] *)
Module Fsutil.
Import PyStr Py OS.

(** [unarchive(fullpath)] *)
Definition unarchive (fullpath : string) : M unit :=
  let ext := PosixPath.splitext_ext fullpath in
  if endswith fullpath ".tar.gz" || String.eqb ext ".tgz" then
    extractall untar ReadError fullpath (PosixPath.dirname fullpath)
  else if String.eqb ext ".zip" then
    extractall unzip BadZipFile fullpath (PosixPath.dirname fullpath)
  else
    let msg := "Cannot unarchive file " +:+ PosixPath.basename fullpath
               +:+ " of type " +:+ ext in
    raise (RuntimeError msg).

(** A filter reads the file tree and the working directory, as
    [os.path.isdir] does, and answers for a path. *)
Definition FilterFuncT : Type :=
  gmap (list string) node → list string → string → bool.

(** [_anyone(path)] *)
Definition _anyone : FilterFuncT := λ _ _ _, true.

(** [find_glob(root_dir, pattern, filter_fn)] is a generator: [consume]
    is the body of the loop that draws from it and runs at each
    [yield], with the working directory still at [root_dir].  The
    [finally] clause runs when the generator is exhausted, and when an
    exception ends it. *)
Definition find_glob (root_dir pattern : string) (filter_fn : FilterFuncT)
    (consume : string → M unit) : M unit :=
  old_cwd ← getcwd;
  try_finally
    (chdir root_dir;;
     w ← get;
     for_each (Glob.glob (fs w) (cwd w) pattern)
       (λ path,
          w' ← get;
          if filter_fn (fs w') (cwd w') path then consume path else mret tt))
    (chdir old_cwd).

(** [list(find_glob(root_dir, pattern, filter_fn))]: nothing runs
    between the yields, so every path is filtered on the same tree. *)
Definition find_glob_list (root_dir pattern : string) (filter_fn : FilterFuncT)
    : M (list string) :=
  old_cwd ← getcwd;
  try_finally
    (chdir root_dir;;
     w ← get;
     mret (filter (λ path, filter_fn (fs w) (cwd w) path = true)
                  (Glob.glob (fs w) (cwd w) pattern)))
    (chdir old_cwd).

(** [recursive_remove(root_dir, pattern, filter_fn)] *)
Definition recursive_remove (root_dir pattern : string)
    (filter_fn : FilterFuncT) : M unit :=
  find_glob root_dir pattern filter_fn rmtree.

(** The [while curr_dir:] loop of [find_repo_root].  A path without a
    separator is its own parent, and the loop would then go round for
    ever: [Hangs].  Otherwise the path shortens at every turn, so its
    length plus one bounds the turns. *)
Fixpoint find_repo_root_loop (turns : nat) (start_dir curr_dir : string)
  : M string :=
  match turns with
  | O => raise Hangs
  | S turns' =>
      if String.eqb curr_dir EmptyString then
        raise (RuntimeError ("Cannot find git repo within " +:+ py_repr start_dir))
      else
        names ← listdir curr_dir;
        w ← get;
        let sub_dirs :=
          filter (λ path, isdir_at (fs w) (cwd w)
                            (PosixPath.join2 curr_dir path) = true) names in
        if bool_decide (".git" ∈ sub_dirs) then mret curr_dir
        else
          let parent := rsplit1_head PosixPath.sep curr_dir in
          if String.eqb parent curr_dir then raise Hangs
          else find_repo_root_loop turns' start_dir parent
  end.

(** [os.path.abspath(path)]: the working directory is asked for only
    when the path is relative. *)
Definition abspath (path : string) : M string :=
  if PosixPath.isabs path then mret (PosixPath.normpath path)
  else cwd_now ← getcwd; mret (PosixPath.normpath (PosixPath.join2 cwd_now path)).

(** The body of [find_repo_root(start_dir)]; [None] is the default, and
    an empty string counts as none. *)
Definition find_repo_root_body (start_dir : option string) : M string :=
  start_dir ← (match start_dir with
               | Some (String _ _ as s) => mret s
               | _ => getcwd
               end);
  curr_dir ← abspath (PosixPath.normpath start_dir);
  find_repo_root_loop (S (String.length curr_dir)) start_dir curr_dir.

(** [find_repo_root] under [@lru_cache(maxsize=1)]: a call with the
    argument of the cached entry returns the cached value; any other
    call runs the body and, when it returns, replaces the entry.  An
    exception caches nothing. *)
Definition find_repo_root (start_dir : option string) : M string :=
  w ← get;
  match repo_root_cache w with
  | Some (arg, v) =>
      if decide (arg = start_dir) then mret v
      else
        v' ← find_repo_root_body start_dir;
        modify (set_repo_root_cache (Some (start_dir, v')));;
        mret v'
  | None =>
      v' ← find_repo_root_body start_dir;
      modify (set_repo_root_cache (Some (start_dir, v')));;
      mret v'
  end.

End Fsutil.

(** ** [scripts/dodolib/netutil.py] *)
Module Netutil.
Import PyStr Py OS.

Definition DEFAULT_BUFFER_SIZE : Z := 8 * 1024.

(** [resp.raise_for_status()] *)
Definition raise_for_status (resp : response) : M unit :=
  if (400 <=? status_code resp) && (status_code resp <? 600)
  then raise (HTTPError (status_code resp))
  else mret tt.

(** [download_file(url, path, buffer_size)]: the chunks are the body as
    [iter_content] cuts it; the empty ones are skipped. *)
Definition download_file (url path : string) (buffer_size : Z) : M unit :=
  resp ← http_get url true;
  raise_for_status resp;;
  write_file path
    (String.concat EmptyString
       (filter (λ chunk, chunk ≠ EmptyString) (body resp))).

(** [template.format] with keyword arguments, for plain named fields and doubled braces. *)
Fixpoint format_from (kw : gmap string string) (field : option string)
    (s : string) : result string :=
  match field, s with
  | None, EmptyString => Ok EmptyString
  | None, String "{" (String "{" rest) =>
      match format_from kw None rest with
      | Ok r => Ok (String "{" r)
      | Raise e => Raise e
      end
  | None, String "}" (String "}" rest) =>
      match format_from kw None rest with
      | Ok r => Ok (String "}" r)
      | Raise e => Raise e
      end
  | None, String "{" rest => format_from kw (Some EmptyString) rest
  | None, String "}" _ =>
      Raise (ValueError "Single '}' encountered in format string")
  | None, String c rest =>
      match format_from kw None rest with
      | Ok r => Ok (String c r)
      | Raise e => Raise e
      end
  | Some name, String "}" rest =>
      match kw !! name with
      | Some v =>
          match format_from kw None rest with
          | Ok r => Ok (v +:+ r)
          | Raise e => Raise e
          end
      | None => Raise (KeyError name)
      end
  | Some name, String c rest =>
      format_from kw (Some (name +:+ String c EmptyString)) rest
  | Some _, EmptyString =>
      Raise (ValueError "expected '}' before end of string")
  end.
Definition format (template : string) (kw : gmap string string)
  : result string := format_from kw None template.

(** The six parts [urlunparse] takes. *)
Record UrlParts := mkUrlParts {
  scheme : string; netloc : string; path : string;
  params : string; query : string; fragment : string;
}.

(** [substitute_keywords] over the three keys of
    the template, with the three keys [main_url] adds. *)
Definition substitute_keywords (template : UrlParts) (kw : gmap string string)
  : M UrlParts :=
  let fmt (s : string) : M string :=
    match format s kw with
    | Ok r => mret r
    | Raise e => raise e
    end in
  sc ← fmt (scheme template);
  nl ← fmt (netloc template);
  pa ← fmt (path template);
  mret (mkUrlParts sc nl pa (params template) (query template)
                   (fragment template)).

(** [substitute_keywords(template_dict, **kw)] for any dictionary, given
    as the list of its items in insertion order: the values are
    formatted one after the other, and the first that fails ends the
    call. *)
Fixpoint substitute_keywords_dict (template_dict : list (string * string))
    (kw : gmap string string) : result (list (string * string)) :=
  match template_dict with
  | [] => Ok []
  | (name, value) :: rest =>
      match format value kw with
      | Raise e => Raise e
      | Ok v =>
          match substitute_keywords_dict rest kw with
          | Raise e => Raise e
          | Ok out => Ok ((name, v) :: out)
          end
      end
  end.

Definition uses_netloc : list string :=
  [""; "ftp"; "http"; "gopher"; "nntp"; "telnet"; "imap"; "wais"; "file";
   "mms"; "https"; "shttp"; "snews"; "prospero"; "rtsp"; "rtspu"; "rsync";
   "svn"; "svn+ssh"; "sftp"; "nfs"; "git"; "git+ssh"; "ws"; "wss"].

(** [urllib.parse.urlunparse] *)
Definition urlunparse (parts : UrlParts) : string :=
  let url := path parts in
  let url := if String.eqb (params parts) EmptyString then url
             else url +:+ ";" +:+ params parts in
  let url :=
    if negb (String.eqb (netloc parts) EmptyString)
       || (negb (String.eqb (scheme parts) EmptyString)
           && bool_decide (scheme parts ∈ uses_netloc)
           && negb (String.eqb (String.substring 0 2 url) "//"))
    then
      let url := if negb (String.eqb url EmptyString)
                    && negb (String.eqb (String.substring 0 1 url) "/")
                 then "/" +:+ url else url in
      "//" +:+ netloc parts +:+ url
    else url in
  let url := if String.eqb (scheme parts) EmptyString then url
             else scheme parts +:+ ":" +:+ url in
  let url := if String.eqb (query parts) EmptyString then url
             else url +:+ "?" +:+ query parts in
  if String.eqb (fragment parts) EmptyString then url
  else url +:+ "#" +:+ fragment parts.

(** *** [DriverDownloader] *)

(** A downloader is an object of the process, known by its identity;
    its attributes live in the world, so an assignment is seen by every
    holder of the object and survives a later exception. *)
Definition attrs_of (w : World) (self : nat) : gmap string value :=
  default ∅ (objects w !! self).

(** [self.name] *)
Definition getattr (self : nat) (name : string) : M value :=
  w ← get;
  match attrs_of w self !! name with
  | Some v => mret v
  | None => raise (AttributeError name)
  end.

(** [setattr(self, name, v)] *)
Definition setattr (self : nat) (name : string) (v : value) : M unit :=
  modify (λ w, set_objects (<[self := <[name := v]> (attrs_of w self)]> (objects w)) w).

(** A new object with the attributes its [__init__] sets. *)
Definition new_object (init : gmap string value) : M nat :=
  w ← get;
  let self := fresh (dom (objects w)) in
  modify (set_objects (<[self := init]> (objects w)));;
  mret self.

(** [DriverDownloader._check_attributes(args)] *)
Definition _check_attributes (attrnames : gset string)
    (args : gmap string value) : M unit :=
  let passed_names := dom args in
  if decide (passed_names ⊆ attrnames) then mret tt
  else raise (TypeError ("Unknown argument(s): "
                         +:+ join "," (elements (passed_names ∖ attrnames)))).

(** [DriverDownloader.configure] with its keyword arguments, a
    dictionary. *)
Definition configure (attrnames : gset string) (self : nat)
    (kwargs : gmap string value) : M unit :=
  _check_attributes attrnames kwargs;;
  for_each (map_to_list kwargs) (λ item, setattr self item.1 item.2).

(** [platform.uname().system + '-' + platform.uname().machine] *)
Definition platform_key (w : World) : string :=
  system w +:+ "-" +:+ machine w.

(** [os.path.join(directory, name)] when [directory] is an attribute. *)
Definition pjoin_attr (directory : value) (name : string) : M string :=
  match directory with
  | VStr d => mret (PosixPath.join2 d name)
  | VNone => raise (TypeError "expected str, bytes or os.PathLike object, not NoneType")
  end.

Module GeckoDownloader.

Definition WEBDRIVER_GECKO_URL_PARTS : UrlParts :=
  mkUrlParts "https" "github.com" "/mozilla/geckodriver/releases"
             EmptyString EmptyString EmptyString.

Definition WEBDRIVER_GECKO_FILE_SUFFIX_MAP : gmap string string :=
  {[ "Linux-x86_64" := "linux64.tar.gz";
     "Linux-x86" := "linux32.tar.gz";
     "Windows-AMD64" := "win64.zip";
     "Windows-x86" := "win32.zip" ]}.

Definition attrnames : gset string := {[ "directory"; "version" ]}.

(** [GeckoDownloader()] *)
Definition __init__ : M nat :=
  new_object {[ "directory" := VStr "/tmp"; "version" := VStr "latest" ]}.

(** The [basename] property. *)
Definition basename (self : nat) : M string :=
  w ← get;
  match WEBDRIVER_GECKO_FILE_SUFFIX_MAP !! platform_key w with
  | None => raise (KeyError (platform_key w))
  | Some suffix =>
      version ← getattr self "version";
      mret ("geckodriver-v" +:+ py_str version +:+ "-" +:+ suffix)
  end.

(** The [main_url] property. *)
Definition main_url (self : nat) : M string :=
  version ← getattr self "version";
  parts_kw ← substitute_keywords WEBDRIVER_GECKO_URL_PARTS
               {[ "version" := py_str version ]};
  mret (urlunparse parts_kw).

(** The body of [get_latest_version]. *)
Definition get_latest_version_body (self : nat) : M string :=
  url ← main_url self;
  let latest_url := PosixPath.join url ["latest"] in
  resp ← http_get latest_url false;
  py_assert (status_code resp =? 302)
    ("Expected status code 302, got " +:+ pretty (status_code resp));;
  match headers resp !! "location" with
  | None => raise (KeyError "location")
  | Some location =>
      mret (lstrip_char "v" (rsplit_last "/" (strip location)))
  end.

(** [get_latest_version] under [@lru_cache(maxsize=1)]: the entry is
    keyed by the instance. *)
Definition get_latest_version (self : nat) : M string :=
  w ← get;
  match latest_version_cache w with
  | Some (key, v) =>
      if decide (key = self) then mret v
      else
        v' ← get_latest_version_body self;
        modify (set_latest_version_cache (Some (self, v')));;
        mret v'
  | None =>
      v' ← get_latest_version_body self;
      modify (set_latest_version_cache (Some (self, v')));;
      mret v'
  end.

(** [_save_version_file(fullpath)] *)
Definition _save_version_file (self : nat) (fullpath : string) : M unit :=
  version ← getattr self "version";
  write_file (PosixPath.join2 (PosixPath.dirname fullpath) "version")
             ("geckodriver " +:+ py_str version +:+ String "010" EmptyString).

(** The first lines of [go]: the version is resolved when it is
    ["latest"], then the download URL and the full path of the
    archive are computed. *)
Definition go_target (self : nat) : M (string * string) :=
  version ← getattr self "version";
  (if decide (version = VStr "latest") then
     latest ← get_latest_version self;
     setattr self "version" (VStr latest);;
     version ← getattr self "version";
     print ("geckodriver latest version: " +:+ py_str version)
   else mret tt);;
  url ← main_url self;
  version ← getattr self "version";
  name ← basename self;
  let download_url :=
    PosixPath.join url ["download"; "v" +:+ py_str version; name] in
  directory ← getattr self "directory";
  name ← basename self;
  fullpath ← pjoin_attr directory name;
  mret (download_url, fullpath).

(** [go(target_dir)]; the argument is not used.  [download] is the
    module's [download_file], looked up when [go] runs. *)
Definition go_with (download : string → string → Z → M unit)
    (self : nat) : M unit :=
  target ← go_target self;
  let download_url := target.1 in
  let fullpath := target.2 in
  download download_url fullpath DEFAULT_BUFFER_SIZE;;
  there ← isfile fullpath;
  py_assert there ("FAILED downloading " +:+ download_url
                   +:+ " into " +:+ fullpath);;
  Fsutil.unarchive fullpath;;
  remove fullpath;;
  _save_version_file self fullpath.

Definition go : nat → M unit := go_with download_file.

End GeckoDownloader.

Module ChromeDownloader.

Definition WEBDRIVER_CHROME_FILE_SUFFIX_MAP : gmap string string :=
  {[ "Linux-x86_64" := "linux64.zip";
     "Linux-x86" := "linux64.zip";
     "Windows-AMD64" := "win32.zip";
     "Windows-x86" := "win32.zip" ]}.

Definition attrnames : gset string := {[ "directory"; "version" ]}.

Definition CHROME_BASE_DOWNLOAD_URL : string :=
  "https://chromedriver.storage.googleapis.com".
Definition LATEST_RELEASE_URL : string :=
  "https://chromedriver.storage.googleapis.com/LATEST_RELEASE".

(** [ChromeDownloader()] *)
Definition __init__ : M nat :=
  new_object {[ "directory" := VStr "/tmp" ]}.

(** The [basename] property. *)
Definition basename (self : nat) : M string :=
  w ← get;
  match WEBDRIVER_CHROME_FILE_SUFFIX_MAP !! platform_key w with
  | None => raise (KeyError (platform_key w))
  | Some suffix => mret ("chromedriver_" +:+ suffix)
  end.

(** [chrome_ver_reg.search(version).group()] *)
Definition version_group (version : string) : M value :=
  match search_version version with
  | Some m => mret (VStr m)
  | None => raise (AttributeError "'NoneType' object has no attribute 'group'")
  end.

(** [get_chrome_version()] *)
Definition get_chrome_version : M value :=
  w ← get;
  if String.eqb (system w) "linux" then
    out ← run_popen ["chromium-browser"; "--version"];
    let version := strip (replace "Chromium" EmptyString out) in
    let version := strip (replace "Google Chrome" EmptyString version) in
    version_group version
  else if String.eqb (system w) "Windows" then
    out ← run_popen ["reg"; "query";
                     "HKEY_CURRENT_USER\Software\Google\Chrome\BLBeacon";
                     "/v"; "version"];
    match List.last (Some <$> words (strip out)) None with
    | Some version => version_group version
    | None => raise (IndexError "list index out of range")
    end
  else mret VNone.

(** [get_latest_release_for_version(version)]: [urlopen] raises a
    [URLError] for a host it cannot reach and for a status of 400 and
    above, and the code raises one for any other status but 200. *)
Definition get_latest_release_for_version (version : value) : M string :=
  let release_url := LATEST_RELEASE_URL +:+ "_" +:+ py_str version in
  let failed : exn :=
    RuntimeError ("Failed to find release information: " +:+ release_url) in
  λ w,
    match http_get release_url true w with
    | (Ok response, w') =>
        if status_code response =? 200
        then (Ok (strip (String.concat EmptyString (body response))), w')
        else (Raise failed, w')
    | (Raise _, w') => (Raise failed, w')
    end.

(** [get_chromedriver_url(version)] *)
Definition get_chromedriver_url (self : nat) (version : string)
  : M string :=
  name ← basename self;
  mret (CHROME_BASE_DOWNLOAD_URL +:+ "/" +:+ version +:+ "/" +:+ name).

(** The first lines of [go]: the browser is asked for its version,
    the release for it is looked up, then the download URL and the
    full path of the archive are computed. *)
Definition go_target (self : nat) : M (string * string * string) :=
  chrome_version ← get_chrome_version;
  latest_stable_release ← get_latest_release_for_version chrome_version;
  download_url ← get_chromedriver_url self latest_stable_release;
  directory ← getattr self "directory";
  name ← basename self;
  fullpath ← pjoin_attr directory name;
  mret (latest_stable_release, download_url, fullpath).

(** [go(target_dir)]; the argument is not used.  [download] is the
    module's [download_file], looked up when [go] runs. *)
Definition go_with (download : string → string → Z → M unit)
    (self : nat) : M unit :=
  target ← go_target self;
  let latest_stable_release := target.1.1 in
  let download_url := target.1.2 in
  let fullpath := target.2 in
  download download_url fullpath DEFAULT_BUFFER_SIZE;;
  there ← isfile fullpath;
  py_assert there ("FAILED downloading " +:+ download_url
                   +:+ " into " +:+ fullpath);;
  Fsutil.unarchive fullpath;;
  remove fullpath;;
  print ("chromedriver version " +:+ latest_stable_release).

Definition go : nat → M unit := go_with download_file.

End ChromeDownloader.

End Netutil.

(** ** [scripts/dodolib/helpers.py] *)
Module Helpers.
Import PyStr Py OS.

(** A [doit] action: a command line, or a Python callable with its
    arguments, which [doit] calls when the task runs. *)
Inductive ActionT :=
| Cmd (command : string)
| Call (run : M unit).

(** What a task dictionary holds under a key: a number, a string or a
    list of actions. *)
Inductive task_value :=
| TInt (n : Z)
| TStr (s : string)
| TList (actions : list ActionT).

(** A task function takes no argument and returns a dictionary. *)
Definition TaskFuncT : Type := M (gmap string task_value).

(** [result.extend(v)]: a list gives its items and a string its
    characters, each a string; a number cannot be iterated. *)
Definition extend (result : list ActionT) (v : task_value) : M (list ActionT) :=
  match v with
  | TList actions => mret (result ++ actions)
  | TStr s => mret (result ++ ((λ c, Cmd (String c EmptyString)) <$> String.list_ascii_of_string s))
  | TInt _ => raise (TypeError "'int' object is not iterable")
  end.

(** The loop of [actions_of], with the list built so far. *)
Fixpoint actions_of_loop (result : list ActionT) (task_funcs : list TaskFuncT)
  : M (list ActionT) :=
  match task_funcs with
  | [] => mret result
  | task_fn :: rest =>
      d ← task_fn;
      match d !! "actions" with
      | None => raise (KeyError "actions")
      | Some v => result' ← extend result v; actions_of_loop result' rest
      end
  end.

(** [actions_of], given its task functions in order. *)
Definition actions_of (task_funcs : list TaskFuncT) : M (list ActionT) :=
  actions_of_loop [] task_funcs.

End Helpers.

(** ** The tasks of [dodo.py] that clean up *)
Module Dodo.
Import PyStr Py OS Helpers.

Definition TEMP_DIR : string := ".cache".
Definition BUILD_DIR : string := "build".

(** [os.path.exists(p)] *)
Definition exists_ (p : string) : M bool :=
  w ← get; mret (lexists_at (fs w) (cwd w) p).

(** [os.path.isdir], handed over as a filter. *)
Definition isdir_filter : Fsutil.FilterFuncT := λ t d p, isdir_at t d p.

(** [clean_temp()] *)
Definition clean_temp : M unit :=
  for_each [TEMP_DIR; BUILD_DIR]
    (λ thedir : string,
       there ← exists_ thedir;
       if there : bool then
         print ("Removing " +:+ thedir +:+ " ...");;
         rmtree thedir
       else mret tt).

(** [task_clean_pycache()]: the working directory is read when the
    task is made, not when it runs. *)
Definition task_clean_pycache : TaskFuncT :=
  cwd_now ← getcwd;
  mret {[ "basename" := TStr "clean-pycache";
          "actions" :=
            TList [Call (Fsutil.recursive_remove cwd_now "**/__pycache__"
                           isdir_filter)] ]}.

(** [task_clean_pytyest_cache()] *)
Definition task_clean_pytyest_cache : TaskFuncT :=
  cwd_now ← getcwd;
  mret {[ "basename" := TStr "clean-pytest-cache";
          "actions" :=
            TList [Call (Fsutil.recursive_remove cwd_now "**/.pytest_cache"
                           isdir_filter)] ]}.

(** [task_clean_temp()] *)
Definition task_clean_temp : TaskFuncT :=
  mret {[ "basename" := TStr "clean-temp";
          "actions" := TList [Call clean_temp] ]}.

(** [task_clean_all()] *)
Definition task_clean_all : TaskFuncT :=
  actions ← actions_of [task_clean_temp; task_clean_pycache;
                        task_clean_pytyest_cache];
  mret {[ "basename" := TStr "clean-all"; "actions" := TList actions ]}.

End Dodo.

(** ** [scripts/extract_req.py] *)
Module ExtractReq.
Import PyStr Py OS.

(** [s.strip(chars)]: the characters of [chars] go from both ends. *)
Definition strip_chars (chars : string) (s : string) : string :=
  let drop (c : ascii) := existsb (Ascii.eqb c) (String.list_ascii_of_string chars) in
  rstrip_by drop (lstrip_by drop s).

(** The state of a [DepExtractor]. *)
Record DepExtractor := mkDepExtractor {
  _in_dep_section : bool;
  _deps : list string;
}.

(** [DepExtractor()] *)
Definition __init__ : DepExtractor := mkDepExtractor false [].

(** [process(line)], giving the state it leaves. *)
Definition process (self : DepExtractor) (line : string) : DepExtractor :=
  if String.eqb (strip line) EmptyString && _in_dep_section self then
    mkDepExtractor false (_deps self)
  else if contains line "dependencies]" then
    mkDepExtractor true (_deps self)
  else if _in_dep_section self then
    if bool_decide ("python" ∈ words line) then self
    else mkDepExtractor (_in_dep_section self) (_deps self ++ [strip line])
  else self.

(** [strip_extra(input)] of [deps]. *)
Definition strip_extra (input : string) : string :=
  strip_chars "'" (strip_chars "[]" (strip_chars "," input)).

(** The loop of [deps()] over the collected lines: what it yields, in
    order, and the exception that ends it, if any. *)
Fixpoint deps_from (lines : list string) : list string * option exn :=
  match lines with
  | [] => ([], None)
  | line :: rest =>
      let extras : result string :=
        if contains line "extras" then
          match words line !! 4%nat with
          | Some extra => Ok ("[" +:+ strip_extra extra +:+ "]")
          | None => Raise (IndexError "list index out of range")
          end
        else Ok EmptyString in
      match extras with
      | Raise e => ([], Some e)
      | Ok extras =>
          match words line !! 0%nat with
          | None => ([], Some (IndexError "list index out of range"))
          | Some name =>
              let '(yielded, e) := deps_from rest in
              ((name +:+ extras) :: yielded, e)
          end
      end
  end.

(** [deps()] *)
Definition deps (self : DepExtractor) : list string * option exn :=
  deps_from (_deps self).

(** The lines of the input, processed in order. *)
Definition process_all (self : DepExtractor) (lines : list string) : DepExtractor :=
  fold_left process lines self.

End ExtractReq.

(** * The notions and the sample worlds the properties are stated with *)

Import PyStr Py OS.
Import Netutil.

(** ** Notions *)

Definition nonempty (s : string) : bool := negb (String.eqb s EmptyString).

Definition no_slash (s : string) : bool :=
  all_chars (λ c, negb (Ascii.eqb c "/")) s.

(** A component that names an entry: not empty, not [.], not [..]. *)
Definition plain_comp (c : string) : bool :=
  negb (String.eqb c EmptyString || String.eqb c "." || String.eqb c "..").

(** A relative path made of such components. *)
Definition plain (p : string) : bool := forallb plain_comp (split "/" p).

(** A component of the key of an entry: plain, and without separator. *)
Definition good_comp (c : string) : bool := plain_comp c && no_slash c.

(** A tree whose entries have such names. *)
Definition tree_wf (t : gmap (list string) node) : Prop :=
  map_Forall (λ k _, forallb good_comp k = true) t.

(** What [glob] joins names to: nothing, a plain path, or a plain path
    and a separator. *)
Definition prefix_like (p : string) : Prop :=
  p = EmptyString ∨ plain p = true ∨ ∃ q, plain q = true ∧ p = q +:+ "/".

(** A computation that never touches the objects of the process. *)
Definition keeps_objects {A} (m : M A) : Prop :=
  ∀ w r w', m w = (r, w') → objects w' = objects w.

(** The answer of the filter for a path that is still there does not
    change when other entries go. *)
Definition filter_stable (filter_fn : Fsutil.FilterFuncT)
    (t0 : gmap (list string) node) (r : list string) : Prop :=
  ∀ t p, t ⊆ t0 → is_Some (stat t r p) → filter_fn t r p = filter_fn t0 r p.

(** A path qualifies when it is a directory and passes the filter, both
    on the tree the call starts with. *)
Definition qualifies (filter_fn : Fsutil.FilterFuncT)
    (t0 : gmap (list string) node) (r : list string) (p : string) : bool :=
  isdir_at t0 r p && filter_fn t0 r p.

(** [k] is or lies beneath one of [paths] that qualifies. *)
Definition covered (filter_fn : Fsutil.FilterFuncT)
    (t0 : gmap (list string) node) (r : list string)
    (paths : list string) (k : list string) : Prop :=
  Exists (λ p, qualifies filter_fn t0 r p = true
               ∧ (r ++ split "/" p) `prefix_of` k) paths.

#[export] Instance covered_dec filter_fn t0 r paths k :
  Decision (covered filter_fn t0 r paths k).
Proof. unfold covered. apply _. Defined.

(** The tree during the loop of [recursive_remove]: the entries that the
    qualifying paths seen so far cover are gone, the others are as they
    were. *)
Definition removal_inv (filter_fn : Fsutil.FilterFuncT)
    (t0 : gmap (list string) node) (r : list string)
    (paths : list string) (t : gmap (list string) node) : Prop :=
  ∀ k, t !! k = if decide (covered filter_fn t0 r paths k) then None else t0 !! k.

(** What the loop of [recursive_remove] does with one path. *)
Definition remove_if_accepted (filter_fn : Fsutil.FilterFuncT) (path : string)
  : M unit :=
  w' ← get;
  if filter_fn (fs w') (cwd w') path then rmtree path else mret tt.

(** A computation that runs the same whatever the objects of the
    process hold, as long as they hold [P]. *)
Definition blind_to_objects {A} (P : gmap nat (gmap string value) → Prop)
    (m : M A) : Prop :=
  ∀ o w, P o → P (objects w) →
    m (set_objects o w) = ((m w).1, set_objects o (m w).2).

(** The objects among which [self] has [d] for its directory
    attribute. *)
Definition same_directory (self : nat) (d : option value)
    (o : gmap nat (gmap string value)) : Prop :=
  default ∅ (o !! self) !! "directory" = d.

(** A non-empty run of decimal digits. *)
Definition digits (s : string) : bool := nonempty s && all_chars is_digit s.

(** The absolute path of the entry with key [k], as [os.getcwd] prints
    it. *)
Definition path_of (k : list string) : string := "/" +:+ join "/" k.

(** A directory that its path leads to: the names on the way are names
    of entries, and every directory on the way is there. *)
Definition reachable (t : gmap (list string) node) (k : list string) : Prop :=
  forallb good_comp k = true ∧ ∀ i, (i ≤ length k)%nat → t !! take i k = Some Dir.

(** The directories [find_repo_root] lists when it starts at [k] and
    finds nothing: [k] and the directories above it, the nearest
    first, the root left out. *)
Fixpoint walk_up_from (rev_k : list string) : list (list string) :=
  match rev_k with
  | [] => []
  | c :: above => reverse (c :: above) :: walk_up_from above
  end.
Definition walk_up (k : list string) : list (list string) :=
  walk_up_from (reverse k).

(** The first of them that holds a directory [.git]. *)
Definition nearest_marker (t : gmap (list string) node) (k : list string)
  : option (list string) :=
  List.find (λ d, bool_decide (t !! (d ++ [".git"]) = Some Dir)) (walk_up k).

(** What a clean-up action may remove: entries at or beneath a
    directory [name] that lies under the directory [made_in] and is
    reached from it through directories whose names do not start with a
    dot; every other entry stays as it is. *)
Definition removes_only_under (name made_in : string) (run : M unit) : Prop :=
  ∀ (w w' : World) (r : list string),
    tree_wf (fs w) →
    locate (fs w) (cwd w) made_in = Some r →
    run w = (Ok tt, w') →
    ∀ k : list string,
      (is_Some (fs w !! k) → fs w' !! k = None →
       ∃ comps, Forall (λ c, Glob.ishidden c = false) comps
                ∧ fs w !! (r ++ comps ++ [name]) = Some Dir
                ∧ (r ++ comps ++ [name]) `prefix_of` k)
      ∧ (is_Some (fs w' !! k) → fs w' !! k = fs w !! k).

(** A string without braces. *)
Definition no_braces (s : string) : bool :=
  all_chars (λ c, negb (Ascii.eqb c "{") && negb (Ascii.eqb c "}")) s.

(** A letter, a digit or an underscore. *)
Definition is_word_char (c : ascii) : bool :=
  let n := nat_of_ascii c in
  ((48 <=? n) && (n <=? 57) || (65 <=? n) && (n <=? 90)
   || (97 <=? n) && (n <=? 122) || (n =? 95))%nat.

(** A keyword as [format] takes it for a field name: word characters,
    the first no digit. *)
Definition is_keyword (s : string) : bool :=
  match s with
  | EmptyString => false
  | String c _ => negb (is_digit c) && all_chars is_word_char s
  end.

(** The value of the item [name] of a dictionary. *)
Definition item (name : string) (d : list (string * string)) : string :=
  default EmptyString ((list_to_map d : gmap string string) !! name).

(** The tree once the members of an archive have landed in [d]. *)
Definition extracted (d : list string) (members : list (string * string))
    (t : gmap (list string) node) : gmap (list string) node :=
  foldl (λ t m, <[d ++ [m.1] := File m.2]> t) t members.

(** ** Sample worlds *)

(** A Linux machine with the given file tree and nothing else. *)
Definition world_of_tree (t : gmap (list string) node) : World :=
  mkWorld "Linux" "x86_64" [] t (λ _ _, None) (λ _, None)
          (λ _, None) (λ _, None) [] None None ∅.

(** A geckodriver downloader as [__init__] leaves it. *)
Definition configure_world : World :=
  mkWorld "Linux" "x86_64" [] {[ [] := Dir ]} (λ _ _, None) (λ _, None)
          (λ _, None) (λ _, None) [] None None
          {[ 0%nat := {[ "directory" := VStr "/tmp"; "version" := VStr "latest" ]} ]}.

(** A Linux machine of the given architecture and a downloader whose
    version is set. *)
Definition basename_world (machine : string) : World :=
  mkWorld "Linux" machine [] {[ [] := Dir ]} (λ _ _, None) (λ _, None)
          (λ _, None) (λ _, None) [] None None
          {[ 0%nat := {[ "directory" := VStr "/tmp"; "version" := VStr "0.29.0" ]} ]}.

(** An archive of each kind and a file that is none, in [/tmp]. *)
Definition unarchive_world : World :=
  mkWorld "Linux" "x86_64" []
    {[ [] := Dir; ["tmp"] := Dir;
       ["tmp"; "driver.tar.gz"] := File "T";
       ["tmp"; "driver.zip"] := File "Z";
       ["tmp"; "driver.xyz"] := File "X" ]}
    (λ _ _, None) (λ _, None)
    (λ bytes, if String.eqb bytes "T" then Some [("geckodriver", "ELF")] else None)
    (λ bytes, if String.eqb bytes "Z" then Some [("chromedriver", "ELF")] else None)
    [] None None ∅.

(** A machine whose [platform.system()] is the given name, with Chromium
    installed and a chromedriver downloader. *)
Definition chromium_world (system : string) : World :=
  mkWorld system "x86_64" [] {[ [] := Dir; ["tmp"] := Dir ]}
    (λ _ _, None)
    (λ argv, if decide (argv = ["chromium-browser"; "--version"])
             then Some "Chromium 72.0.3626.121 snap" else None)
    (λ _, None) (λ _, None) [] None None
    {[ 0%nat := {[ "directory" := VStr "/tmp" ]} ]}.

(** The tree of [test_find_repo_root_success],
    [test_find_repo_root_no_gitdir_no_success] and
    [test_find_repo_root_below_gitdir_no_success], before the marker is
    made. *)
Definition project_tree : gmap (list string) node :=
  {[ [] := Dir; ["rootdir"] := Dir; ["rootdir"; "project"] := Dir;
     ["rootdir"; "project"; "package"] := Dir;
     ["rootdir"; "project"; "package"; "sub_package"] := Dir ]}.

(** The project of [test_find_repo_root_success], with its marker. *)
Definition git_project_world : World :=
  world_of_tree (<[ ["rootdir"; "project"; ".git"] := Dir ]> project_tree).

(** A repository checked out at the root of the file system. *)
Definition root_repo_tree : gmap (list string) node :=
  {[ [] := Dir; [".git"] := Dir; ["src"] := Dir ]}.

(** A first call of [find_repo_root] that finds the marker of the
    project. *)
Definition first_call : result string * World :=
  Fsutil.find_repo_root (Some "/rootdir/project/package")
    (world_of_tree (<[ ["rootdir"; "project"; ".git"] := Dir ]> project_tree)).

(** A marker appears in the package directory, closer to the start. *)
Definition closer_marker (w : World) : World :=
  set_fs (<[ ["rootdir"; "project"; "package"; ".git"] := Dir ]> (fs w)) w.

(** A first call of [find_repo_root] on a tree without any marker. *)
Definition failed_call : result string * World :=
  Fsutil.find_repo_root (Some "/rootdir/project/package")
    (world_of_tree project_tree).

Definition releases_url : string :=
  "https://github.com/mozilla/geckodriver/releases".
Definition latest_url : string :=
  "https://github.com/mozilla/geckodriver/releases/latest".

(** The release page redirects to the tag of a release. *)
Definition redirect_to (tag : string) : string → bool → option response :=
  λ url allow_redirects,
    if String.eqb url latest_url && negb allow_redirects
    then Some (mkResponse 302
                 {[ "location" :=
                      "https://github.com/mozilla/geckodriver/releases/tag/" +:+ tag ]}
                 [])
    else None.

(** Two geckodriver downloaders, both at ["latest"]. *)
Definition two_downloaders : World :=
  mkWorld "Linux" "x86_64" [] {[ [] := Dir; ["tmp"] := Dir ]}
    (redirect_to "v0.29.0") (λ _, None) (λ _, None) (λ _, None) [] None None
    {[ 0%nat := {[ "directory" := VStr "/tmp"; "version" := VStr "latest" ]};
       1%nat := {[ "directory" := VStr "/tmp"; "version" := VStr "latest" ]} ]}.

(** The first downloader resolves, then the second, then the first
    again after a new release. *)
Definition first_resolution : result string * World :=
  GeckoDownloader.get_latest_version 0 two_downloaders.
Definition second_resolution : result string * World :=
  GeckoDownloader.get_latest_version 1 first_resolution.2.
Definition third_resolution : result string * World :=
  GeckoDownloader.get_latest_version 0
    (set_remote (redirect_to "v0.30.0") second_resolution.2).

(** A machine with a geckodriver downloader set to a release, and a
    server that answers the download with the given chunks. *)
Definition archive_url : string :=
  "https://github.com/mozilla/geckodriver/releases/download/v0.29.0/geckodriver-v0.29.0-linux64.tar.gz".
Definition archive_path : string := "/tmp/geckodriver-v0.29.0-linux64.tar.gz".

Definition download_world (chunks : list string) : World :=
  mkWorld "Linux" "x86_64" [] {[ [] := Dir; ["tmp"] := Dir ]}
    (λ url _, if String.eqb url archive_url
              then Some (mkResponse 200 ∅ chunks) else None)
    (λ _, None)
    (λ bytes, if String.eqb bytes "TGZ" then Some [("geckodriver", "ELF")] else None)
    (λ _, None) [] None None
    {[ 0%nat := {[ "directory" := VStr "/tmp"; "version" := VStr "0.29.0" ]} ]}.

(** A fetch that writes nothing, as a test double of [download_file]
    would. *)
Definition download_nothing : string → string → Z → M unit := λ _ _ _, mret tt.

(** The download of [download_world] once more, into a directory that
    holds the marker of an earlier install. *)
Definition reinstall_world : World :=
  set_fs (<[ ["tmp"; "version"] := File "geckodriver 0.28.0 and more" ]>
            (fs (download_world ["T"; "GZ"])))
         (download_world ["T"; "GZ"]).

(** The tree of [test_find_glob] and [test_recursive_remove]. *)
Definition removal_tree : gmap (list string) node :=
  {[ [] := Dir; ["rootdir"] := Dir; ["rootdir"; "project"] := Dir;
     ["rootdir"; "project"; "package"] := Dir;
     ["rootdir"; "project"; "package"; "__dir1__"] := Dir;
     ["rootdir"; "project"; "__dir22__"] := Dir;
     ["rootdir"; "__dir3__"] := Dir;
     ["__dir4__"] := Dir ]}.

(** The filter of [test_recursive_remove]: a directory other than
    [__dir3__]. *)
Definition does_qualify : Fsutil.FilterFuncT :=
  λ t d p, isdir_at t d p && negb (String.eqb p "__dir3__").

(** The call of [test_recursive_remove], and one with an absolute path
    for a pattern. *)
Definition removal_run : result unit * World :=
  Fsutil.recursive_remove "/rootdir/project" "**/__dir?__" does_qualify
    (world_of_tree removal_tree).
Definition outside_run : result unit * World :=
  Fsutil.recursive_remove "/rootdir/project" "/__dir4__" does_qualify
    (world_of_tree removal_tree).

(** A machine whose server answers the download of [download_world]
    with the given status and no body. *)
Definition refusing_world (status : Z) : World :=
  mkWorld "Linux" "x86_64" [] {[ [] := Dir; ["tmp"] := Dir ]}
    (λ url _, if String.eqb url archive_url
              then Some (mkResponse status ∅ []) else None)
    (λ _, None) (λ _, None) (λ _, None) [] None None
    {[ 0%nat := {[ "directory" := VStr "/tmp"; "version" := VStr "0.29.0" ]} ]}.

(** The release page answers with the given response instead of the
    redirect. *)
Definition answering_latest (resp : response) : World :=
  set_remote (λ url _, if String.eqb url latest_url then Some resp else None)
             two_downloaders.

(** A server that knows the release for Chrome 72.0.3626. *)
Definition release_world : World :=
  mkWorld "linux" "x86_64" [] {[ [] := Dir; ["tmp"] := Dir ]}
    (λ url _,
       if String.eqb url
            "https://chromedriver.storage.googleapis.com/LATEST_RELEASE_72.0.3626"
       then Some (mkResponse 200 ∅ ["72.0.3626.69"; String "010" EmptyString])
       else if String.eqb url
                 "https://chromedriver.storage.googleapis.com/LATEST_RELEASE_None"
       then Some (mkResponse 404 ∅ [])
       else None)
    (λ _, None) (λ _, None) (λ _, None) [] None None
    {[ 0%nat := {[ "directory" := VStr "/tmp" ]} ]}.

(** A directory with a text file in it. *)
Definition notes_tree : gmap (list string) node :=
  {[ [] := Dir; ["rootdir"] := Dir; ["rootdir"; "build"] := Dir;
     ["rootdir"; "notes.txt"] := File "to do" ]}.

(** A project with byte-code caches: one at the top, one in a package,
    one inside the virtual environment, whose directory is hidden; and
    with a directory of temporary files. *)
Definition pycache_tree : gmap (list string) node :=
  {[ [] := Dir; ["work"] := Dir;
     ["work"; "__pycache__"] := Dir;
     ["work"; "__pycache__"; "dodo.pyc"] := File "pyc";
     ["work"; "src"] := Dir;
     ["work"; "src"; "app.py"] := File "py";
     ["work"; "src"; "__pycache__"] := Dir;
     ["work"; ".venv"] := Dir;
     ["work"; ".venv"; "__pycache__"] := Dir;
     ["work"; ".cache"] := Dir;
     ["work"; ".cache"; "htmlcov"] := Dir ]}.

Definition pycache_world : World := set_cwd ["work"] (world_of_tree pycache_tree).

(** The lines of a [pyproject.toml]: what stands before the section
    of the dependencies, the section, and what follows the blank line
    that ends it. *)
Definition pyproject_head : list string :=
  ["[tool.poetry]"; "name = 'rest-api'"; ""].
Definition pyproject_deps : list string :=
  ["python = '^3.8'"; "flask = '^1.1.2'"; "  requests = '^2.25'  "].
Definition pyproject_tail : list string :=
  ["[build-system]"; "requires = ['poetry-core']"].

(** * Properties of the two modules *)

Import PyStr Py OS.

(** ** The monad *)

Lemma bind_ok {A B} (m : M A) (f : A → M B) w a w' :
  m w = (Ok a, w') → (m ≫= f) w = f a w'.
Proof. intros H. unfold mbind, M_bind. by rewrite H. Qed.

Lemma bind_raise {A B} (m : M A) (f : A → M B) w e w' :
  m w = (Raise e, w') → (m ≫= f) w = (Raise e, w').
Proof. intros H. unfold mbind, M_bind. by rewrite H. Qed.

Lemma set_objects_id w : set_objects (objects w) w = w.
Proof. by destruct w. Qed.

Lemma set_fs_id w : set_fs (fs w) w = w.
Proof. by destruct w. Qed.

(** Unfolds the primitive steps of a computation applied to a world. *)
Ltac run_m :=
  repeat progress
    (unfold mbind, M_bind, mret, M_ret, raise, get, modify, emit, print in *;
     cbn beta iota in *).

(** ** [configure] *)

Section Configure.
Import Netutil.

Lemma for_each_setattr (l : list (string * value)) self w a :
  NoDup l.*1 →
  objects w !! self = Some a →
  for_each l (λ item, setattr self item.1 item.2) w
  = (Ok tt, set_objects (<[self := list_to_map l ∪ a]> (objects w)) w).
Proof.
  revert w a. induction l as [|[name v] l IH]; intros w a Hnd Hself.
  - cbn. rewrite (left_id_L ∅ (∪)), insert_id by done.
    by rewrite set_objects_id.
  - apply NoDup_cons in Hnd as [Hname Hnd]. cbn [for_each].
    erewrite bind_ok; last reflexivity.
    unfold attrs_of. rewrite Hself. cbn [default].
    erewrite IH; [|done|by destruct w; cbn; rewrite lookup_insert_eq].
    f_equal. destruct w; cbn. unfold set_objects; cbn. f_equal.
    rewrite insert_insert_eq. f_equal.
    rewrite <-insert_union_r, insert_union_l; first done.
    by apply not_elem_of_list_to_map_1.
Qed.

(** C10.  [configure] first checks the names of its keyword arguments
    against the declared attribute set, which is [{directory, version}]
    for both downloaders.  With a name outside the set it raises
    [TypeError] and leaves the world, the attributes of the object
    included, as it was.  With every name inside it returns, and the
    attributes of the object are the old ones overridden by exactly the
    given ones. *)
Theorem configure_checks_before_assigning
    (attrnames : gset string) (self : nat) (kwargs a : gmap string value)
    (w : World) :
  objects w !! self = Some a →
  GeckoDownloader.attrnames = {[ "directory"; "version" ]}
  ∧ ChromeDownloader.attrnames = {[ "directory"; "version" ]}
  ∧ configure attrnames self kwargs w
    = if decide (dom kwargs ⊆ attrnames)
      then (Ok tt, set_objects (<[self := kwargs ∪ a]> (objects w)) w)
      else (Raise (TypeError ("Unknown argument(s): "
               +:+ join "," (elements (dom kwargs ∖ attrnames)))), w).
Proof.
  intros Hself. do 2 (split; first done).
  unfold configure, _check_attributes.
  destruct (decide (dom kwargs ⊆ attrnames)) as [Hsub|Hsub].
  - erewrite bind_ok; last reflexivity.
    erewrite for_each_setattr; [|apply NoDup_fst_map_to_list|done].
    by rewrite list_to_map_to_list.
  - by erewrite bind_raise.
Qed.

(** A downloader is given a version, and then a version together with
    an unknown name. *)
Lemma configure_checks_before_assigning_witness :
  configure GeckoDownloader.attrnames 0 {[ "version" := VStr "0.29.0" ]}
    configure_world
  = (Ok tt,
     set_objects
       {[ 0%nat := {[ "directory" := VStr "/tmp"; "version" := VStr "0.29.0" ]} ]}
       configure_world)
  ∧ configure GeckoDownloader.attrnames 0
      {[ "version" := VStr "0.29.0"; "verbose" := VNone ]} configure_world
    = (Raise (TypeError "Unknown argument(s): verbose"), configure_world).
Proof.
  split.
  - pose proof (configure_checks_before_assigning GeckoDownloader.attrnames 0
      {[ "version" := VStr "0.29.0" ]}
      {[ "directory" := VStr "/tmp"; "version" := VStr "latest" ]}
      configure_world eq_refl) as (_ & _ & ->).
    vm_compute. reflexivity.
  - pose proof (configure_checks_before_assigning GeckoDownloader.attrnames 0
      {[ "version" := VStr "0.29.0"; "verbose" := VNone ]}
      {[ "directory" := VStr "/tmp"; "version" := VStr "latest" ]}
      configure_world eq_refl) as (_ & _ & ->).
    vm_compute. reflexivity.
Defined.

End Configure.

(** ** Strings *)

Lemma str_app_cons (x : ascii) (a b : string) : String x a +:+ b = String x (a +:+ b).
Proof. reflexivity. Qed.

Lemma str_app_nil_l (b : string) : EmptyString +:+ b = b.
Proof. reflexivity. Qed.

Lemma str_app_nil_r (a : string) : a +:+ EmptyString = a.
Proof. induction a as [|x a IH]; [done|by rewrite str_app_cons, IH]. Qed.

Lemma string_app_assoc (a b c : string) : (a +:+ b) +:+ c = a +:+ b +:+ c.
Proof.
  induction a as [|x a IH]; [done|]. by rewrite !str_app_cons, IH.
Qed.

Lemma startswith_app_self (p s : string) : startswith (p +:+ s) p = true.
Proof.
  induction p as [|x p IH]; first done.
  rewrite str_app_cons. cbn. by rewrite Ascii.eqb_refl, IH.
Qed.

Lemma contains_app (a p b : string) : contains (a +:+ p +:+ b) p = true.
Proof.
  induction a as [|x a IH].
  - rewrite str_app_nil_l. destruct (p +:+ b) eqn:E.
    + destruct p; [done|by rewrite str_app_cons in E].
    + cbn [contains]. by rewrite <-E, startswith_app_self.
  - rewrite str_app_cons. cbn [contains]. rewrite IH. by rewrite orb_true_r.
Qed.

Lemma contains_app_end (a p : string) : contains (a +:+ p) p = true.
Proof. rewrite <-(str_app_nil_r p) at 1. apply contains_app. Qed.

Lemma endswith_app (a p : string) : endswith (a +:+ p) p = true.
Proof.
  induction a as [|x a IH].
  - rewrite str_app_nil_l. destruct p; cbn; [done|].
    by rewrite Ascii.eqb_refl, String.eqb_refl.
  - rewrite str_app_cons. cbn [endswith]. rewrite IH. by rewrite orb_true_r.
Qed.

(** ** [basename] *)

Section Basename.
Import Netutil.

(** C1, as the code has it.  For a platform with an entry in the
    geckodriver suffix table, [GeckoDownloader.basename] returns a name
    that contains the version attribute and ends with the suffix of the
    table; for a platform with an entry in the chromedriver table,
    [ChromeDownloader.basename] returns ["chromedriver_"] followed by
    the suffix of the table, whatever the version; for a platform
    without an entry, either raises [KeyError] on the platform key
    (UnsupportedPlatform). *)
Theorem basename_by_suffix_table (self : nat) (w : World) :
  (∀ suffix v,
      GeckoDownloader.WEBDRIVER_GECKO_FILE_SUFFIX_MAP !! platform_key w = Some suffix →
      attrs_of w self !! "version" = Some v →
      ∃ name, GeckoDownloader.basename self w = (Ok name, w)
              ∧ contains name (py_str v) = true
              ∧ endswith name suffix = true)
  ∧ (GeckoDownloader.WEBDRIVER_GECKO_FILE_SUFFIX_MAP !! platform_key w = None →
     GeckoDownloader.basename self w = (Raise (KeyError (platform_key w)), w))
  ∧ (∀ suffix,
      ChromeDownloader.WEBDRIVER_CHROME_FILE_SUFFIX_MAP !! platform_key w = Some suffix →
      ChromeDownloader.basename self w = (Ok ("chromedriver_" +:+ suffix), w)
      ∧ endswith ("chromedriver_" +:+ suffix) suffix = true)
  ∧ (ChromeDownloader.WEBDRIVER_CHROME_FILE_SUFFIX_MAP !! platform_key w = None →
     ChromeDownloader.basename self w = (Raise (KeyError (platform_key w)), w)).
Proof.
  repeat split.
  - intros suffix v Hsuffix Hv.
    exists ("geckodriver-v" +:+ py_str v +:+ "-" +:+ suffix).
    unfold GeckoDownloader.basename, getattr. run_m.
    rewrite Hsuffix, Hv. repeat split.
    + apply (contains_app "geckodriver-v").
    + rewrite <-!string_app_assoc. apply endswith_app.
  - intros Hnone. unfold GeckoDownloader.basename. run_m. by rewrite Hnone.
  - unfold ChromeDownloader.basename. run_m. by rewrite H.
  - apply endswith_app.
  - intros Hnone. unfold ChromeDownloader.basename. run_m. by rewrite Hnone.
Qed.

(** On 64-bit Linux the table has an entry; on 64-bit ARM it has none. *)
Lemma basename_by_suffix_table_witness :
  (∃ name, GeckoDownloader.basename 0 (basename_world "x86_64")
           = (Ok name, basename_world "x86_64")
           ∧ contains name "0.29.0" = true
           ∧ endswith name "linux64.tar.gz" = true)
  ∧ GeckoDownloader.basename 0 (basename_world "aarch64")
    = (Raise (KeyError "Linux-aarch64"), basename_world "aarch64").
Proof.
  split.
  - apply (proj1 (basename_by_suffix_table 0 (basename_world "x86_64"))
             "linux64.tar.gz" (VStr "0.29.0")); reflexivity.
  - apply (proj1 (proj2 (basename_by_suffix_table 0 (basename_world "aarch64")))).
    reflexivity.
Defined.

(** C1 as stated fails for the chromedriver downloader: its base name
    holds no version. *)
Lemma chrome_basename_has_no_version :
  attrs_of (basename_world "x86_64") 0 !! "version" = Some (VStr "0.29.0")
  ∧ ChromeDownloader.WEBDRIVER_CHROME_FILE_SUFFIX_MAP
      !! platform_key (basename_world "x86_64") = Some "linux64.zip"
  ∧ ChromeDownloader.basename 0 (basename_world "x86_64")
    = (Ok "chromedriver_linux64.zip", basename_world "x86_64")
  ∧ contains "chromedriver_linux64.zip" "0.29.0" = false.
Proof. repeat split. Qed.

End Basename.

(** ** Splitting at a separator *)

Lemma split_nonempty (sep : ascii) (s : string) : split sep s ≠ [].
Proof.
  destruct s as [|a s]; cbn; first done.
  destruct (Ascii.eqb a sep); first done. by destruct (split sep s).
Qed.

Lemma split_cons_other (sep a : ascii) (s : string) :
  Ascii.eqb a sep = false →
  split sep (String a s)
  = String a (List.hd EmptyString (split sep s)) :: List.tl (split sep s).
Proof.
  intros H. cbn. rewrite H.
  pose proof (split_nonempty sep s). by destruct (split sep s).
Qed.

(** Splitting goes through a separator. *)
Lemma split_app_sep (sep : ascii) (a b : string) :
  split sep (a +:+ String sep b) = split sep a ++ split sep b.
Proof.
  induction a as [|x a IH].
  - rewrite str_app_nil_l. cbn. by rewrite Ascii.eqb_refl.
  - rewrite str_app_cons. cbn [split]. destruct (Ascii.eqb x sep); rewrite IH.
    + done.
    + pose proof (split_nonempty sep a). by destruct (split sep a).
Qed.

(** A tail without the separator extends the last part. *)
Lemma split_app_nosep (sep : ascii) (a b : string) :
  all_chars (λ c, negb (Ascii.eqb c sep)) b = true →
  split sep (a +:+ b)
  = removelast (split sep a) ++ [List.last (split sep a) EmptyString +:+ b].
Proof.
  intros Hb. induction a as [|x a IH].
  - rewrite str_app_nil_l. cbn. induction b as [|y b IHb]; first done.
    cbn in Hb. apply andb_prop in Hb as [Hy Hb]. cbn.
    apply negb_true_iff in Hy. rewrite Hy, (IHb Hb). done.
  - rewrite str_app_cons. cbn [split]. rewrite IH.
    pose proof (split_nonempty sep a) as Hne.
    destruct (Ascii.eqb x sep).
    + destruct (split sep a) as [|w ws]; done.
    + destruct (split sep a) as [|w [|w' ws]]; done.
Qed.

Lemma endswith_inv (s p : string) :
  endswith s p = true → ∃ a, s = a +:+ p.
Proof.
  induction s as [|x s IH]; cbn [endswith]; intros H.
  - apply orb_prop in H as [H|H]; last done.
    apply String.eqb_eq in H as <-. by exists EmptyString.
  - apply orb_prop in H as [H|H].
    + apply String.eqb_eq in H as <-. by exists EmptyString.
    + destruct (IH H) as [a ->]. by exists (String x a).
Qed.

(** A path that ends in [.tar.gz] has the extension [.gz]. *)
Lemma splitext_ext_tar_gz (p : string) :
  endswith p ".tar.gz" = true → PosixPath.splitext_ext p = ".gz".
Proof.
  intros [a ->]%endswith_inv.
  unfold PosixPath.splitext_ext, PosixPath.basename, rsplit_last.
  rewrite split_app_nosep by done.
  rewrite List.last_last.
  change (?x +:+ ".tar.gz") with (x +:+ String "." ("tar" +:+ String "." "gz")).
  rewrite !split_app_sep.
  pose proof (split_nonempty "." (List.last (split PosixPath.sep a) EmptyString)) as Hne.
  destruct (split "." (List.last (split PosixPath.sep a) EmptyString))
    as [|w ws]; first done.
  change (split "." "tar") with ["tar"]. change (split "." "gz") with ["gz"].
  replace ((w :: ws) ++ ["tar"] ++ ["gz"]) with (((w :: ws) ++ ["tar"]) ++ ["gz"])
    by by rewrite <-app_assoc.
  assert (∀ l : list string, match (l ++ ["tar"]) ++ ["gz"] with
                             | [] | [_] => true | _ => false end = false) as Hlen.
  { intros [|? [|? ?]]; done. }
  destruct (((w :: ws) ++ ["tar"]) ++ ["gz"]) as [|u [|u' us]] eqn:E.
  - by destruct ws.
  - by destruct ws.
  - rewrite <-E. rewrite List.removelast_last, List.last_last.
    rewrite forallb_app. cbn. by rewrite andb_false_r.
Qed.

(** ** [unarchive] *)



(** The three archives of [unarchive_world], unpacked. *)
Example unarchive_extracts_beside_the_archive :
  fs (Fsutil.unarchive "/tmp/driver.tar.gz" unarchive_world).2
    !! ["tmp"; "geckodriver"] = Some (File "ELF")
  ∧ fs (Fsutil.unarchive "/tmp/driver.zip" unarchive_world).2
      !! ["tmp"; "chromedriver"] = Some (File "ELF")
  ∧ fs (Fsutil.unarchive "/tmp/driver.tar.gz" unarchive_world).2
      !! ["tmp"; "driver.tar.gz"] = Some (File "T").
Proof. repeat split; vm_compute; reflexivity. Qed.

(** ** [get_chrome_version] *)

Section ChromeVersion.
Import Netutil.

(** C4 fails on the code.  On Linux [platform.system()] is ["Linux"],
    which the comparison with ["linux"] misses: the browser is never
    asked, [get_chrome_version] returns [None], and [go] asks for the
    release of version [None].  Were the platform named ["linux"], the
    version would be read off the output of the browser. *)
Lemma get_chrome_version_on_Linux :
  ChromeDownloader.get_chrome_version (chromium_world "Linux")
  = (Ok VNone, chromium_world "Linux")
  ∧ log (ChromeDownloader.go 0 (chromium_world "Linux")).2
    = [EvHttpGet "https://chromedriver.storage.googleapis.com/LATEST_RELEASE_None" true]
  ∧ (ChromeDownloader.get_chrome_version (chromium_world "linux")).1
    = Ok (VStr "72.0.3626").
Proof. repeat split; vm_compute; reflexivity. Qed.

End ChromeVersion.

(** ** [find_repo_root] *)

Section RepoRoot.

Example test_find_repo_root_success :
  (Fsutil.find_repo_root (Some "/rootdir/project/package/sub_package")
     (world_of_tree (<[ ["rootdir"; "project"; ".git"] := Dir ]> project_tree))).1
  = Ok "/rootdir/project".
Proof. vm_compute. reflexivity. Qed.

Example test_find_repo_root_no_gitdir_no_success :
  (Fsutil.find_repo_root (Some "/rootdir/project/package")
     (world_of_tree project_tree)).1
  = Raise (RuntimeError "Cannot find git repo within '/rootdir/project/package'").
Proof. vm_compute. reflexivity. Qed.

Example test_find_repo_root_below_gitdir_no_success :
  (Fsutil.find_repo_root (Some "/rootdir/project")
     (world_of_tree
        (<[ ["rootdir"; "project"; "package"; "sub_package"; ".git"] := Dir ]>
           project_tree))).1
  = Raise (RuntimeError "Cannot find git repo within '/rootdir/project'").
Proof. vm_compute. reflexivity. Qed.

(** C6 fails on the code.  The parent of ["/src"] by [rsplit] is the
    empty string, which ends the loop: the root directory is listed
    only when the walk starts there, so a marker in the root is not
    found from below. *)
Lemma find_repo_root_skips_the_root :
  Fsutil.find_repo_root (Some "/src") (world_of_tree root_repo_tree)
  = (Raise (RuntimeError "Cannot find git repo within '/src'"),
     set_log [EvListdir "/src"] (world_of_tree root_repo_tree))
  ∧ (Fsutil.find_repo_root (Some "/") (world_of_tree root_repo_tree)).1 = Ok "/".
Proof. split; vm_compute; reflexivity. Qed.

Lemma find_repo_root_caches (start_dir : option string) (w w1 : World) (v : string) :
  Fsutil.find_repo_root start_dir w = (Ok v, w1) →
  repo_root_cache w1 = Some (start_dir, v).
Proof.
  unfold Fsutil.find_repo_root. run_m.
  destruct (repo_root_cache w) as [[arg v0]|] eqn:Hc.
  - destruct (decide (arg = start_dir)) as [->|Hne].
    + by intros [= <- <-].
    + destruct (Fsutil.find_repo_root_body start_dir w) as [[v'|e] w'];
        intros [= <- <-]; done.
  - destruct (Fsutil.find_repo_root_body start_dir w) as [[v'|e] w'];
      intros [= <- <-]; done.
Qed.

(** C7, as the code has it.  Once a call of [find_repo_root] has
    returned a path, a call with the same argument, in any world that
    still holds the cache entry of the first, returns the same path and
    leaves the world as it is: no directory is listed, whatever has
    become of the file tree and the working directory. *)
Theorem find_repo_root_memoized (start_dir : option string) (w w1 w2 : World)
    (v : string) :
  Fsutil.find_repo_root start_dir w = (Ok v, w1) →
  repo_root_cache w2 = repo_root_cache w1 →
  Fsutil.find_repo_root start_dir w2 = (Ok v, w2).
Proof.
  intros Hfirst%find_repo_root_caches Hcache.
  unfold Fsutil.find_repo_root. run_m. rewrite Hcache, Hfirst.
  by rewrite decide_True.
Qed.

(** The first call finds the marker of the project; then a closer
    marker appears, and the second call does not see it. *)
Lemma find_repo_root_memoized_witness :
  first_call.1 = Ok "/rootdir/project"
  ∧ Fsutil.find_repo_root (Some "/rootdir/project/package")
      (closer_marker first_call.2)
    = (Ok "/rootdir/project", closer_marker first_call.2).
Proof.
  split; first by vm_compute.
  apply (find_repo_root_memoized (Some "/rootdir/project/package")
           (world_of_tree (<[ ["rootdir"; "project"; ".git"] := Dir ]> project_tree))
           first_call.2).
  - vm_compute. reflexivity.
  - reflexivity.
Defined.

(** C7 as stated fails when the first call raises: nothing is cached,
    and the second call walks the tree again and sees the new marker. *)
Lemma find_repo_root_raise_is_not_cached :
  failed_call.1
  = Raise (RuntimeError "Cannot find git repo within '/rootdir/project/package'")
  ∧ (Fsutil.find_repo_root (Some "/rootdir/project/package")
       (closer_marker failed_call.2)).1
    = Ok "/rootdir/project/package"
  ∧ log (Fsutil.find_repo_root (Some "/rootdir/project/package")
           (closer_marker failed_call.2)).2
    = log failed_call.2 ++ [EvListdir "/rootdir/project/package"].
Proof. repeat split; vm_compute; reflexivity. Qed.

End RepoRoot.

(** ** [GeckoDownloader.get_latest_version] *)

Section LatestVersion.
Import Netutil.

(** The templates of the URL parts hold no field, so the URL is fixed. *)
Lemma main_url_fixed (self : nat) (w : World) (version : value) :
  attrs_of w self !! "version" = Some version →
  GeckoDownloader.main_url self w = (Ok releases_url, w).
Proof.
  intros Hv. unfold GeckoDownloader.main_url, getattr. run_m.
  rewrite Hv. reflexivity.
Qed.

Lemma get_latest_version_body_redirect (self : nat) (w : World)
    (version : value) (resp : response) (location : string) :
  attrs_of w self !! "version" = Some version →
  remote w latest_url false = Some resp →
  status_code resp = 302 →
  headers resp !! "location" = Some location →
  GeckoDownloader.get_latest_version_body self w
  = (Ok (lstrip_char "v" (rsplit_last "/" (strip location))),
     set_log (log w ++ [EvHttpGet latest_url false]) w).
Proof.
  intros Hv Hresp Hstatus Hloc. unfold GeckoDownloader.get_latest_version_body.
  erewrite bind_ok; last by eapply main_url_fixed.
  change (PosixPath.join releases_url ["latest"]) with latest_url.
  unfold http_get, py_assert. run_m. cbn [remote set_log].
  rewrite Hresp, Hstatus. cbn [Z.eqb Pos.eqb]. by rewrite Hloc.
Qed.

Lemma get_latest_version_caches (self : nat) (w w1 : World) (v : string) :
  GeckoDownloader.get_latest_version self w = (Ok v, w1) →
  latest_version_cache w1 = Some (self, v).
Proof.
  unfold GeckoDownloader.get_latest_version. run_m.
  destruct (latest_version_cache w) as [[key v0]|] eqn:Hc.
  - destruct (decide (key = self)) as [->|Hne].
    + by intros [= <- <-].
    + destruct (GeckoDownloader.get_latest_version_body self w) as [[v'|e] w'];
        intros [= <- <-]; done.
  - destruct (GeckoDownloader.get_latest_version_body self w) as [[v'|e] w'];
      intros [= <- <-]; done.
Qed.

(** C3, as the code has it.  When the one-entry cache holds nothing for
    the downloader, [get_latest_version] issues one GET of the fixed
    latest-release URL without following redirects; on status 302 it
    returns the last path segment of the stripped [Location] header
    without its leading [v]s, and keeps it in the cache under the
    downloader.  A later call for the same downloader, in any world
    that still holds that entry, returns the same value and leaves the
    world as it is: no request is issued. *)
Theorem get_latest_version_resolves_and_caches (self : nat) (w : World) :
  (∀ version resp location,
      attrs_of w self !! "version" = Some version →
      (∀ v, latest_version_cache w ≠ Some (self, v)) →
      remote w latest_url false = Some resp →
      status_code resp = 302 →
      headers resp !! "location" = Some location →
      GeckoDownloader.get_latest_version self w
      = (Ok (lstrip_char "v" (rsplit_last "/" (strip location))),
         set_latest_version_cache
           (Some (self, lstrip_char "v" (rsplit_last "/" (strip location))))
           (set_log (log w ++ [EvHttpGet latest_url false]) w)))
  ∧ (∀ v w1 w2,
      GeckoDownloader.get_latest_version self w = (Ok v, w1) →
      latest_version_cache w2 = latest_version_cache w1 →
      GeckoDownloader.get_latest_version self w2 = (Ok v, w2)).
Proof.
  split.
  - intros version resp location Hv Hmiss Hresp Hstatus Hloc.
    pose proof (get_latest_version_body_redirect self w version resp location
                  Hv Hresp Hstatus Hloc) as Hbody.
    unfold GeckoDownloader.get_latest_version. run_m.
    destruct (latest_version_cache w) as [[key v0]|] eqn:Hc.
    + destruct (decide (key = self)) as [->|Hne].
      * by destruct (Hmiss v0).
      * by rewrite Hbody.
    + by rewrite Hbody.
  - intros v w1 w2 Hfirst%get_latest_version_caches Hcache.
    unfold GeckoDownloader.get_latest_version. run_m.
    rewrite Hcache, Hfirst. by rewrite decide_True.
Qed.

(** The first downloader resolves twice, with a new release in between:
    the second time it gets the cached value, and asks nobody. *)
Lemma get_latest_version_resolves_and_caches_witness :
  first_resolution.1 = Ok "0.29.0"
  ∧ log first_resolution.2 = [EvHttpGet latest_url false]
  ∧ GeckoDownloader.get_latest_version 0
      (set_remote (redirect_to "v0.30.0") first_resolution.2)
    = (Ok "0.29.0", set_remote (redirect_to "v0.30.0") first_resolution.2).
Proof.
  pose proof (get_latest_version_resolves_and_caches 0 two_downloaders)
    as [Hmiss Hhit].
  assert (first_resolution
          = (Ok "0.29.0",
             set_latest_version_cache (Some (0%nat, "0.29.0"))
               (set_log [EvHttpGet latest_url false] two_downloaders))) as Hfirst.
  { apply (Hmiss (VStr "latest")
             (mkResponse 302
                {[ "location" :=
                     "https://github.com/mozilla/geckodriver/releases/tag/v0.29.0" ]}
                [])
             "https://github.com/mozilla/geckodriver/releases/tag/v0.29.0");
      done. }
  split; [|split].
  - by rewrite Hfirst.
  - by rewrite Hfirst.
  - apply (Hhit "0.29.0" first_resolution.2); [|done].
    by rewrite Hfirst.
Defined.

(** C3 as stated fails when another downloader resolves in between:
    the cache has one entry, the second downloader takes it, and the
    first one asks the network again. *)
Lemma get_latest_version_cache_is_evicted :
  first_resolution.1 = Ok "0.29.0"
  ∧ second_resolution.1 = Ok "0.29.0"
  ∧ third_resolution.1 = Ok "0.30.0"
  ∧ log third_resolution.2
    = [EvHttpGet latest_url false; EvHttpGet latest_url false;
       EvHttpGet latest_url false].
Proof. repeat split; vm_compute; reflexivity. Qed.

End LatestVersion.

(** ** The check of the download in [go] *)

Lemma bind_inv {A B} (m : M A) (f : A → M B) w b w' :
  (m ≫= f) w = (Ok b, w') →
  ∃ a w1, m w = (Ok a, w1) ∧ f a w1 = (Ok b, w').
Proof.
  unfold mbind, M_bind. destruct (m w) as [[a|e] w1]; [eauto|done].
Qed.

Section DownloadCheck.
Import Netutil.

Lemma getattr_inv self name w v w' :
  getattr self name w = (Ok v, w') → w' = w ∧ attrs_of w self !! name = Some v.
Proof.
  unfold getattr. run_m. destruct (attrs_of w self !! name); by intros [= <- <-].
Qed.

Lemma pjoin_attr_inv directory name w fullpath w' :
  pjoin_attr directory name w = (Ok fullpath, w') →
  w' = w ∧ ∃ d, directory = VStr d ∧ fullpath = PosixPath.join2 d name.
Proof.
  unfold pjoin_attr. run_m. destruct directory as [|d]; [done|].
  intros [= <- <-]. eauto.
Qed.

Lemma gecko_basename_inv self w name w' :
  GeckoDownloader.basename self w = (Ok name, w') → w' = w.
Proof.
  unfold GeckoDownloader.basename. run_m.
  destruct (GeckoDownloader.WEBDRIVER_GECKO_FILE_SUFFIX_MAP !! platform_key w);
    [|done].
  unfold getattr. run_m. destruct (attrs_of w self !! "version"); by intros [= _ <-].
Qed.

Lemma chrome_basename_inv self w name w' :
  ChromeDownloader.basename self w = (Ok name, w') → w' = w.
Proof.
  unfold ChromeDownloader.basename. run_m.
  destruct (ChromeDownloader.WEBDRIVER_CHROME_FILE_SUFFIX_MAP !! platform_key w);
    by intros [= _ <-].
Qed.

(** The full path [go] downloads to is the directory attribute joined
    with the base name. *)
Lemma gecko_go_target_fullpath self w url fullpath w0 :
  GeckoDownloader.go_target self w = (Ok (url, fullpath), w0) →
  ∃ d name, attrs_of w0 self !! "directory" = Some (VStr d)
            ∧ GeckoDownloader.basename self w0 = (Ok name, w0)
            ∧ fullpath = PosixPath.join2 d name.
Proof.
  unfold GeckoDownloader.go_target. intros H.
  apply bind_inv in H as (version & wa & _ & H).
  apply bind_inv in H as ([] & wb & _ & H).
  apply bind_inv in H as (url' & wc & _ & H).
  apply bind_inv in H as (version' & wd & _ & H).
  apply bind_inv in H as (name & we & _ & H).
  apply bind_inv in H as (directory & wf & [-> Hd]%getattr_inv & H).
  apply bind_inv in H as (name' & wg & Hname & H).
  pose proof (gecko_basename_inv _ _ _ _ Hname) as ->.
  apply bind_inv in H as (fullpath' & wh & [-> (d & -> & ->)]%pjoin_attr_inv & H).
  run_m. injection H as <- <- <-. eauto.
Qed.

Lemma chrome_go_target_fullpath self w release url fullpath w0 :
  ChromeDownloader.go_target self w = (Ok (release, url, fullpath), w0) →
  ∃ d name, attrs_of w0 self !! "directory" = Some (VStr d)
            ∧ ChromeDownloader.basename self w0 = (Ok name, w0)
            ∧ fullpath = PosixPath.join2 d name.
Proof.
  unfold ChromeDownloader.go_target. intros H.
  apply bind_inv in H as (version & wa & _ & H).
  apply bind_inv in H as (release' & wb & _ & H).
  apply bind_inv in H as (url' & wc & _ & H).
  apply bind_inv in H as (directory & wf & [-> Hd]%getattr_inv & H).
  apply bind_inv in H as (name' & wg & Hname & H).
  pose proof (chrome_basename_inv _ _ _ _ Hname) as ->.
  apply bind_inv in H as (fullpath' & wh & [-> (d & -> & ->)]%pjoin_attr_inv & H).
  run_m. injection H as <- <- <- <-. eauto.
Qed.

(** C2, as the code has it.  In both downloaders, [go] downloads to the
    directory attribute joined with the base name.  When the fetch has
    returned and no regular file stands at that path, [go] raises
    [AssertionError] (DownloadVerificationFailed) in the world the fetch
    left: nothing is unpacked.  When a regular file stands there, of any
    size, [go] goes on to unpack it: the check is on the existence of the
    file, not on its content. *)
Theorem go_checks_that_the_file_exists
    (download : string → string → Z → M unit) (self : nat)
    (w w0 w1 : World) (release url fullpath : string) :
  download url fullpath DEFAULT_BUFFER_SIZE w0 = (Ok tt, w1) →
  (GeckoDownloader.go_target self w = (Ok (url, fullpath), w0) →
   (∃ d name, attrs_of w0 self !! "directory" = Some (VStr d)
              ∧ GeckoDownloader.basename self w0 = (Ok name, w0)
              ∧ fullpath = PosixPath.join2 d name)
   ∧ GeckoDownloader.go_with download self w
     = if isfile_at (fs w1) (cwd w1) fullpath
       then (Fsutil.unarchive fullpath;; remove fullpath;;
             GeckoDownloader._save_version_file self fullpath) w1
       else (Raise (AssertionError ("FAILED downloading " +:+ url
                                    +:+ " into " +:+ fullpath)), w1))
  ∧ (ChromeDownloader.go_target self w = (Ok (release, url, fullpath), w0) →
     (∃ d name, attrs_of w0 self !! "directory" = Some (VStr d)
                ∧ ChromeDownloader.basename self w0 = (Ok name, w0)
                ∧ fullpath = PosixPath.join2 d name)
     ∧ ChromeDownloader.go_with download self w
       = if isfile_at (fs w1) (cwd w1) fullpath
         then (Fsutil.unarchive fullpath;; remove fullpath;;
               print ("chromedriver version " +:+ release)) w1
         else (Raise (AssertionError ("FAILED downloading " +:+ url
                                      +:+ " into " +:+ fullpath)), w1)).
Proof.
  intros Hdownload. split; intros Htarget.
  - split; first by eapply gecko_go_target_fullpath.
    unfold GeckoDownloader.go_with.
    erewrite bind_ok; last exact Htarget. cbn [fst snd].
    erewrite bind_ok; last exact Hdownload.
    unfold isfile, py_assert. run_m.
    by destruct (isfile_at (fs w1) (cwd w1) fullpath).
  - split; first by eapply chrome_go_target_fullpath.
    unfold ChromeDownloader.go_with.
    erewrite bind_ok; last exact Htarget. cbn [fst snd].
    erewrite bind_ok; last exact Hdownload.
    unfold isfile, py_assert. run_m.
    by destruct (isfile_at (fs w1) (cwd w1) fullpath).
Qed.

(** With a fetch that writes nothing, [go] stops at the check. *)
Lemma go_checks_that_the_file_exists_witness :
  GeckoDownloader.go_with download_nothing 0 (download_world ["TGZ"])
  = (Raise (AssertionError ("FAILED downloading " +:+ archive_url
                            +:+ " into " +:+ archive_path)),
     download_world ["TGZ"]).
Proof.
  pose proof (go_checks_that_the_file_exists download_nothing 0
                (download_world ["TGZ"]) (download_world ["TGZ"])
                (download_world ["TGZ"]) EmptyString archive_url archive_path
                eq_refl) as [Hgecko _].
  destruct Hgecko as [_ ->]; first by vm_compute.
  vm_compute. reflexivity.
Defined.

(** C2 as stated fails for a file of zero bytes: the server answers 200
    with an empty body, [download_file] leaves an empty file, the check
    passes, and it is [unarchive] that fails, on the empty archive. *)
Lemma go_unpacks_an_empty_download :
  (download_file archive_url archive_path DEFAULT_BUFFER_SIZE (download_world [])).1
  = Ok tt
  ∧ fs (download_file archive_url archive_path DEFAULT_BUFFER_SIZE
          (download_world [])).2
      !! ["tmp"; "geckodriver-v0.29.0-linux64.tar.gz"] = Some (File EmptyString)
  ∧ (GeckoDownloader.go 0 (download_world [])).1 = Raise (ReadError archive_path)
  ∧ log (GeckoDownloader.go 0 (download_world [])).2
    = [EvHttpGet archive_url true; EvOpenW archive_path].
Proof. repeat split; vm_compute; reflexivity. Qed.

End DownloadCheck.

(** ** Where the version marker lands *)

Lemma join_cons (sep : ascii) (x y : string) (l : list string) :
  join sep (x :: y :: l) = x +:+ String sep (join sep (y :: l)).
Proof. reflexivity. Qed.

Lemma join_split (sep : ascii) (s : string) : join sep (split sep s) = s.
Proof.
  induction s as [|a s IH]; first done.
  cbn [split]. destruct (Ascii.eqb a sep) eqn:Ha.
  - apply Ascii.eqb_eq in Ha as ->.
    pose proof (split_nonempty sep s) as Hne.
    destruct (split sep s) as [|w ws]; first done.
    by rewrite join_cons, IH.
  - pose proof (split_nonempty sep s) as Hne.
    destruct (split sep s) as [|w [|w' ws]]; first done.
    + cbn in *. by rewrite IH.
    + rewrite join_cons in *. by rewrite str_app_cons, IH.
Qed.

Lemma walk_skip_empty t cur rest :
  rest ≠ [] → walk t cur (EmptyString :: rest) = walk t cur rest.
Proof.
  intros Hrest. destruct rest as [|c rest]; first done.
  cbn. by destruct (t !! cur) as [[]|].
Qed.

(** The empty components before the last one do not matter. *)
Lemma walk_nonempty t cur l x :
  walk t cur (l ++ [x]) = walk t cur (filter (λ c, nonempty c = true) l ++ [x]).
Proof.
  revert cur. induction l as [|a l IH]; intros cur; first done.
  destruct a as [|a0 a].
  - rewrite filter_cons_False by done.
    rewrite <-IH. apply walk_skip_empty. by destruct l.
  - rewrite filter_cons_True by done.
    cbn [app walk]. destruct (t !! cur) as [[]|]; [done| |done]. apply IH.
Qed.

Lemma rstrip_by_cons f a s :
  rstrip_by f (String a s)
  = if String.eqb (rstrip_by f s) EmptyString && f a then EmptyString
    else String a (rstrip_by f s).
Proof. cbn. destruct (rstrip_by f s); cbn; by destruct (f a). Qed.

(** Stripping the trailing separators keeps the first part and the
    non-empty parts that follow. *)
Lemma split_rstrip (s : string) :
  List.hd EmptyString (split "/" (rstrip_char "/" s))
  = List.hd EmptyString (split "/" s)
  ∧ filter (λ c, nonempty c = true) (List.tl (split "/" (rstrip_char "/" s)))
    = filter (λ c, nonempty c = true) (List.tl (split "/" s)).
Proof.
  unfold rstrip_char. induction s as [|a s [IHhd IHtl]]; first done.
  pose proof (split_nonempty "/" s) as Hne.
  pose proof (split_nonempty "/" (rstrip_by (Ascii.eqb "/") s)) as Hne'.
  rewrite rstrip_by_cons.
  destruct (Ascii.eqb a "/") eqn:Ha.
  - apply Ascii.eqb_eq in Ha as ->. rewrite !Ascii.eqb_refl.
    rewrite andb_true_r. cbn [split]. rewrite ?Ascii.eqb_refl.
    destruct (String.eqb_spec (rstrip_by (Ascii.eqb "/") s) EmptyString) as [E|E].
    + rewrite E in *. cbn [split List.hd List.tl] in *.
      destruct (split "/" s) as [|w ws]; first done.
      cbn [List.hd List.tl] in *. subst w.
      by rewrite filter_cons_False.
    + cbn [split]. rewrite ?Ascii.eqb_refl. cbn [List.hd List.tl]. split; first done.
      destruct (split "/" s) as [|w ws]; first done.
      destruct (split "/" (rstrip_by (Ascii.eqb "/") s)) as [|w' ws']; first done.
      cbn [List.hd List.tl] in IHhd, IHtl. subst w'.
      destruct w; [by rewrite !filter_cons_False|by rewrite !filter_cons_True, IHtl].
  - assert (Ascii.eqb "/" a = false) as Ha' by by rewrite Ascii.eqb_sym.
    rewrite Ha', andb_false_r.
    rewrite !split_cons_other by done. cbn [List.hd List.tl]. by rewrite IHhd, IHtl.
Qed.

Lemma filter_split_rstrip (s : string) :
  filter (λ c, nonempty c = true) (split "/" (rstrip_char "/" s))
  = filter (λ c, nonempty c = true) (split "/" s).
Proof.
  destruct (split_rstrip s) as [Hhd Htl].
  pose proof (split_nonempty "/" s) as Hne.
  pose proof (split_nonempty "/" (rstrip_char "/" s)) as Hne'.
  destruct (split "/" s) as [|w ws]; first done.
  destruct (split "/" (rstrip_char "/" s)) as [|w' ws']; first done.
  cbn [List.hd List.tl] in *. subst w'.
  destruct w; [by rewrite !filter_cons_False|by rewrite !filter_cons_True, Htl].
Qed.

Lemma rstrip_empty_inv (s : string) :
  rstrip_char "/" s = EmptyString → all_chars (Ascii.eqb "/") s = true.
Proof.
  unfold rstrip_char. induction s as [|a s IH]; first done.
  rewrite rstrip_by_cons. cbn [all_chars].
  destruct (String.eqb_spec (rstrip_by (Ascii.eqb "/") s) EmptyString) as [E|E];
    last done.
  destruct (Ascii.eqb "/" a); last done. intros _. by rewrite IH.
Qed.

Lemma rstrip_not_endswith (s : string) :
  endswith (rstrip_char "/" s) "/" = false.
Proof.
  unfold rstrip_char. induction s as [|a s IH]; first done.
  rewrite rstrip_by_cons.
  destruct (String.eqb_spec (rstrip_by (Ascii.eqb "/") s) EmptyString) as [E|E].
  - rewrite E. destruct (Ascii.eqb "/" a) eqn:Ha; first done.
    cbn. rewrite Ascii.eqb_sym in Ha. by rewrite Ha.
  - rewrite andb_false_l. cbn [endswith]. rewrite IH, orb_false_r.
    destruct (rstrip_by (Ascii.eqb "/") s); first done.
    cbn. by destruct (Ascii.eqb a "/").
Qed.

Lemma startswith_cons (a : ascii) (x y : string) :
  startswith (String a x) "/" = startswith (String a y) "/".
Proof. reflexivity. Qed.

Lemma rstrip_first (s : string) :
  rstrip_char "/" s ≠ EmptyString →
  startswith (rstrip_char "/" s) "/" = startswith s "/".
Proof.
  unfold rstrip_char. destruct s as [|a s]; first done.
  rewrite rstrip_by_cons.
  destruct (String.eqb (rstrip_by (Ascii.eqb "/") s) EmptyString && Ascii.eqb "/" a);
    first done.
  intros _. apply startswith_cons.
Qed.

Lemma startswith_app (x y : string) :
  x ≠ EmptyString → startswith (x +:+ y) "/" = startswith x "/".
Proof.
  destruct x as [|a x]; first done. intros _. rewrite str_app_cons.
  apply startswith_cons.
Qed.

Lemma app_nonempty (x : string) (a : ascii) (y : string) :
  String.eqb (x +:+ String a y) EmptyString = false.
Proof. destruct x; [done|by rewrite str_app_cons]. Qed.

Lemma no_slash_split (name : string) :
  no_slash name = true → split "/" name = [name].
Proof.
  intros H. rewrite <-(str_app_nil_l name), split_app_nosep by done.
  by rewrite str_app_nil_l.
Qed.

Lemma no_slash_startswith (name : string) :
  no_slash name = true → startswith name "/" = false.
Proof.
  destruct name as [|a name]; first done.
  cbn. intros [Ha _]%andb_prop. apply negb_true_iff in Ha. by rewrite Ha.
Qed.

Lemma head_part_app (e name : string) :
  no_slash name = true →
  PosixPath.head_part (e +:+ String "/" name) = e +:+ "/".
Proof.
  intros Hname. unfold PosixPath.head_part, PosixPath.sep.
  rewrite split_app_sep, (no_slash_split name) by done.
  pose proof (split_nonempty "/" e) as Hne.
  destruct (split "/" e ++ [name]) as [|u [|u' us]] eqn:E.
  - by destruct (split "/" e).
  - by destruct (split "/" e) as [|? [|? ?]].
  - rewrite <-E, List.removelast_last. by rewrite join_split.
Qed.

Lemma locate_slashes t c (x y : string) (last : string) :
  x ≠ EmptyString → y ≠ EmptyString →
  startswith x "/" = startswith y "/" →
  filter (λ c, nonempty c = true) (split "/" x)
  = filter (λ c, nonempty c = true) (split "/" y) →
  no_slash last = true →
  locate t c (x +:+ String "/" last) = locate t c (y +:+ String "/" last).
Proof.
  intros Hx Hy Habs Hcomps Hlast. unfold locate, PosixPath.isabs.
  rewrite !app_nonempty, !startswith_app, Habs by done.
  rewrite !split_app_sep, (no_slash_split last) by done.
  by rewrite (walk_nonempty _ _ (split "/" x)),
             (walk_nonempty _ _ (split "/" y)), Hcomps.
Qed.

Lemma all_slashes_endswith (s : string) :
  s ≠ EmptyString → all_chars (Ascii.eqb "/") s = true → endswith s "/" = true.
Proof.
  induction s as [|a s IH]; first done. intros _. cbn [all_chars endswith].
  intros [Ha Hs]%andb_prop. apply Ascii.eqb_eq in Ha as <-.
  destruct s as [|b s]; first done.
  rewrite IH by done. by rewrite orb_true_r.
Qed.

(** The marker is written to [dirname(fullpath)], which names the same
    place as the directory the archive was joined to. *)
Lemma marker_in_directory t c (d name : string) :
  name ≠ EmptyString → no_slash name = true →
  locate t c (PosixPath.join2 (PosixPath.dirname (PosixPath.join2 d name)) "version")
  = locate t c (PosixPath.join2 d "version").
Proof.
  intros Hne Hname.
  assert (∀ e,
    locate t c (PosixPath.join2 (PosixPath.dirname (e +:+ String "/" name)) "version")
    = locate t c (e +:+ String "/" "version")) as Hcore.
  { intros e. unfold PosixPath.dirname. rewrite head_part_app by done.
    rewrite app_nonempty. cbn [negb andb].
    destruct (all_chars (Ascii.eqb PosixPath.sep) (e +:+ "/")) eqn:Hall; cbn [negb].
    - unfold PosixPath.join2. cbn [startswith Ascii.eqb andb].
      rewrite app_nonempty, endswith_app. cbn [orb].
      by rewrite string_app_assoc.
    - assert (rstrip_char PosixPath.sep (e +:+ "/") ≠ EmptyString) as Hr.
      { intros E%rstrip_empty_inv. unfold PosixPath.sep in Hall. congruence. }
      unfold PosixPath.join2. cbn [startswith Ascii.eqb andb].
      apply String.eqb_neq in Hr as Hr'. rewrite Hr'.
      unfold PosixPath.sep. rewrite rstrip_not_endswith. cbn [orb].
      apply locate_slashes; [done| |..|done].
      + by destruct e.
      + rewrite rstrip_first by done. destruct e; [done|].
        rewrite str_app_cons. apply startswith_cons.
      + rewrite filter_split_rstrip.
        change (e +:+ "/") with (e +:+ String "/" EmptyString).
        rewrite split_app_sep. cbn [split]. rewrite filter_app.
        rewrite filter_cons_False by done. by rewrite filter_nil, app_nil_r.
  }
  unfold PosixPath.join2 at 2 3. rewrite (no_slash_startswith name) by done.
  cbn [startswith Ascii.eqb andb].
  destruct (String.eqb_spec d EmptyString) as [->|Hd]; cbn [orb].
  - rewrite !str_app_nil_l. unfold PosixPath.dirname, PosixPath.head_part, PosixPath.sep.
    by rewrite (no_slash_split name).
  - destruct (endswith d "/") eqn:Hend.
    + apply endswith_inv in Hend as [e ->].
      rewrite !string_app_assoc. apply Hcore.
    + apply Hcore.
Qed.

(** ** What a step leaves alone *)

Lemma keeps_objects_ret {A} (a : A) : keeps_objects (mret a : M A).
Proof. by intros w r w' [= <- <-]. Qed.

Lemma keeps_objects_raise {A} (e : exn) : keeps_objects (raise e : M A).
Proof. by intros w r w' [= <- <-]. Qed.

Lemma keeps_objects_bind {A B} (m : M A) (f : A → M B) :
  keeps_objects m → (∀ a, keeps_objects (f a)) → keeps_objects (m ≫= f).
Proof.
  intros Hm Hf w r w'. unfold mbind, M_bind.
  destruct (m w) as [[a|e] w1] eqn:E.
  - intros H. rewrite (Hf _ _ _ _ H). by eapply Hm.
  - intros [= <- <-]. by eapply Hm.
Qed.

Lemma keeps_objects_get : keeps_objects get.
Proof. by intros w r w' [= <- <-]. Qed.

Lemma keeps_objects_emit (e : event) : keeps_objects (emit e).
Proof. by intros w r w' [= <- <-]. Qed.

Lemma keeps_objects_set_fs t : keeps_objects (modify (set_fs t)).
Proof. by intros w r w' [= <- <-]. Qed.

Lemma keeps_objects_for_each {A} (xs : list A) (body : A → M unit) :
  (∀ x, keeps_objects (body x)) → keeps_objects (for_each xs body).
Proof.
  intros Hbody. induction xs as [|x xs IH]; cbn [for_each].
  - apply keeps_objects_ret.
  - apply keeps_objects_bind; [apply Hbody|done].
Qed.

Create HintDb frame.
#[export] Hint Resolve keeps_objects_ret keeps_objects_raise keeps_objects_get
  keeps_objects_emit keeps_objects_set_fs : frame.

(** Splits a computation at its binds and case distinctions. *)
Ltac frame_step :=
  lazymatch goal with
  | |- keeps_objects (_ ≫= _) => apply keeps_objects_bind; [|intros ?]
  | |- keeps_objects (match ?x with _ => _ end) => destruct x
  | |- keeps_objects (if ?x then _ else _) => destruct x
  | |- keeps_objects (for_each _ _) => apply keeps_objects_for_each; intros ?
  | |- keeps_objects _ => solve [eauto with frame]
  end.
Ltac frame := repeat frame_step.

Lemma keeps_objects_write_file p c : keeps_objects (write_file p c).
Proof. unfold write_file. frame. Qed.

Lemma keeps_objects_remove p : keeps_objects (remove p).
Proof. unfold remove. frame. Qed.

Lemma keeps_objects_extractall decode bad p target :
  keeps_objects (extractall decode bad p target).
Proof. unfold extractall, extract_member. frame. Qed.

Lemma keeps_objects_unarchive p : keeps_objects (Fsutil.unarchive p).
Proof.
  unfold Fsutil.unarchive. frame; apply keeps_objects_extractall.
Qed.

Lemma keeps_objects_download_file url p n :
  keeps_objects (Netutil.download_file url p n).
Proof.
  unfold Netutil.download_file, http_get, Netutil.raise_for_status. frame.
  apply keeps_objects_write_file.
Qed.

(** ** The version marker *)

(** Writing a file where no directory stands does not change where a
    path points. *)
Lemma walk_insert_file t k c cur comps :
  t !! k ≠ Some Dir →
  walk (<[k := File c]> t) cur comps = walk t cur comps.
Proof.
  intros Hk. revert cur. induction comps as [|x comps IH]; intros cur; first done.
  cbn [walk]. destruct (decide (k = cur)) as [->|Hne].
  - rewrite lookup_insert_eq. by destruct (t !! cur) as [[]|].
  - rewrite lookup_insert_ne by done. destruct (t !! cur) as [[]|]; auto.
Qed.

Lemma write_file_ok p c w w' :
  write_file p c w = (Ok tt, w') →
  log w' = log w ++ [EvOpenW p]
  ∧ stat (fs w') (cwd w') p = Some (File c)
  ∧ objects w' = objects w.
Proof.
  intros H. split; [|split]; last by eapply keeps_objects_write_file.
  - revert H. unfold write_file. run_m. cbn [fs cwd set_log].
    destruct (locate (fs w) (cwd w) p) as [k|]; [|done].
    destruct (fs w !! k) as [[]|]; [|done|]; by intros [= <-].
  - revert H. unfold write_file. run_m. cbn [fs cwd set_log].
    destruct (locate (fs w) (cwd w) p) as [k|] eqn:Hk; [|done].
    assert (fs w !! k ≠ Some Dir →
            stat (<[k := File c]> (fs w)) (cwd w) p = Some (File c)) as Hstat.
    { intros Hnd. unfold stat, locate in *.
      destruct (String.eqb p EmptyString); first done.
      rewrite walk_insert_file, Hk by done. cbn. by rewrite lookup_insert_eq. }
    destruct (fs w !! k) as [[]|] eqn:Hn; [|done|]; intros [= <-]; cbn [fs cwd];
      apply Hstat; congruence.
Qed.

Section Marker.
Import Netutil.

Lemma gecko_suffixes_no_slash :
  map_Forall (λ _ suffix, no_slash suffix = true ∧ suffix ≠ EmptyString)
             GeckoDownloader.WEBDRIVER_GECKO_FILE_SUFFIX_MAP.
Proof.
  unfold GeckoDownloader.WEBDRIVER_GECKO_FILE_SUFFIX_MAP.
  repeat (apply map_Forall_insert_2; [done|]). apply map_Forall_empty.
Qed.

Lemma all_chars_app f (a b : string) :
  all_chars f (a +:+ b) = all_chars f a && all_chars f b.
Proof.
  induction a as [|x a IH]; first done.
  rewrite str_app_cons. cbn [all_chars]. by rewrite IH, andb_assoc.
Qed.

Lemma gecko_basename_inv_name self w name w' version :
  GeckoDownloader.basename self w = (Ok name, w') →
  attrs_of w self !! "version" = Some version →
  ∃ suffix,
    GeckoDownloader.WEBDRIVER_GECKO_FILE_SUFFIX_MAP !! platform_key w = Some suffix
    ∧ name = "geckodriver-v" +:+ py_str version +:+ "-" +:+ suffix.
Proof.
  unfold GeckoDownloader.basename, getattr. run_m.
  destruct (GeckoDownloader.WEBDRIVER_GECKO_FILE_SUFFIX_MAP !! platform_key w)
    as [suffix|] eqn:Hs; [|done].
  intros H Hv. rewrite Hv in H. injection H as <- <-. eauto.
Qed.

Lemma gecko_name_no_slash (version suffix key : string) :
  GeckoDownloader.WEBDRIVER_GECKO_FILE_SUFFIX_MAP !! key = Some suffix →
  no_slash version = true →
  no_slash ("geckodriver-v" +:+ version +:+ "-" +:+ suffix) = true.
Proof.
  intros [Hs _]%gecko_suffixes_no_slash Hns.
  unfold no_slash in *. by rewrite !all_chars_app, Hns, Hs.
Qed.



End Marker.

(** ** [recursive_remove] *)

Lemma step_plain cur c : plain_comp c = true → step cur c = cur ++ [c].
Proof.
  unfold plain_comp, step. intros H%negb_true_iff.
  apply orb_false_elim in H as [H ->]. by rewrite H.
Qed.

(** A walk along plain components ends at the components appended. *)
Lemma walk_plain t cur comps q :
  forallb plain_comp comps = true →
  walk t cur comps = Some q → q = cur ++ comps.
Proof.
  revert cur. induction comps as [|c comps IH]; intros cur Hp.
  - cbn. intros [= <-]. by rewrite app_nil_r.
  - cbn in Hp. apply andb_prop in Hp as [Hc Hp]. cbn [walk].
    destruct (t !! cur) as [[]|]; [done| |done].
    rewrite step_plain by done. intros ->%IH; last done.
    by rewrite <-app_assoc.
Qed.

(** It fails exactly when a directory on the way is missing. *)
Lemma walk_plain_None t cur comps :
  forallb plain_comp comps = true →
  walk t cur comps = None →
  ∃ i, (i < length comps)%nat ∧ t !! (cur ++ take i comps) ≠ Some Dir.
Proof.
  revert cur. induction comps as [|c comps IH]; intros cur Hp; first done.
  cbn in Hp. apply andb_prop in Hp as [Hc Hp]. cbn [walk].
  destruct (t !! cur) as [[]|] eqn:Hcur.
  - intros _. exists 0%nat. cbn. rewrite app_nil_r, Hcur. split; [lia|done].
  - rewrite step_plain by done. intros (i & Hi & Hn)%IH; last done.
    exists (S i). cbn. rewrite <-app_assoc in Hn. split; [lia|done].
  - intros _. exists 0%nat. cbn. rewrite app_nil_r, Hcur. split; [lia|done].
Qed.

Lemma walk_submap (t1 t0 : gmap (list string) node) cur comps q :
  t1 ⊆ t0 → walk t1 cur comps = Some q → walk t0 cur comps = Some q.
Proof.
  intros Hsub. revert cur. induction comps as [|c comps IH]; intros cur; first done.
  cbn [walk]. destruct (t1 !! cur) as [[]|] eqn:Hcur; [done| |done].
  rewrite (lookup_weaken _ _ _ _ Hcur Hsub). apply IH.
Qed.

Lemma locate_submap (t1 t0 : gmap (list string) node) d p q :
  t1 ⊆ t0 → locate t1 d p = Some q → locate t0 d p = Some q.
Proof.
  intros Hsub. unfold locate. destruct (String.eqb p EmptyString); first done.
  by apply walk_submap.
Qed.

Lemma stat_submap (t1 t0 : gmap (list string) node) d p n :
  t1 ⊆ t0 → stat t1 d p = Some n → stat t0 d p = Some n.
Proof.
  intros Hsub. unfold stat.
  destruct (locate t1 d p) as [q|] eqn:Hq; last done.
  rewrite (locate_submap _ _ _ _ _ Hsub Hq). cbn.
  intros H. by eapply lookup_weaken.
Qed.

Lemma plain_locate t d p q :
  plain p = true → locate t d p = Some q → q = d ++ split "/" p.
Proof.
  unfold plain, locate. intros Hp.
  destruct (String.eqb p EmptyString); first done.
  assert (PosixPath.isabs p = false) as ->.
  { destruct p as [|a p]; first done. unfold PosixPath.isabs. cbn.
    destruct (Ascii.eqb a "/") eqn:Ha; last done.
    cbn [split] in Hp. by rewrite Ha in Hp. }
  by apply walk_plain.
Qed.

Lemma plain_locate_None t d p :
  plain p = true → locate t d p = None →
  ∃ i, (i < length (split "/" p))%nat ∧ t !! (d ++ take i (split "/" p)) ≠ Some Dir.
Proof.
  unfold plain, locate. intros Hp.
  destruct (String.eqb_spec p EmptyString) as [->|Hne]; first done.
  assert (PosixPath.isabs p = false) as ->.
  { destruct p as [|a p]; first done. unfold PosixPath.isabs. cbn.
    destruct (Ascii.eqb a "/") eqn:Ha; last done.
    cbn [split] in Hp. by rewrite Ha in Hp. }
  by apply walk_plain_None.
Qed.

Lemma plain_split_nonempty p : plain p = true → split "/" p ≠ [].
Proof. intros _. apply split_nonempty. Qed.

Lemma prune_lookup (q : list string) (t : gmap (list string) node) (k : list string) :
  prune q t !! k = if decide (q `prefix_of` k) then None else t !! k.
Proof.
  unfold prune. destruct (decide (q `prefix_of` k)) as [Hp|Hp].
  - apply map_lookup_filter_None. right. intros n _. cbn. tauto.
  - destruct (t !! k) as [n|] eqn:Hk.
    + apply map_lookup_filter_Some. done.
    + apply map_lookup_filter_None. by left.
Qed.

Lemma rmtree_ok p w1 w2 :
  rmtree p w1 = (Ok tt, w2) →
  ∃ q, locate (fs w1) (cwd w1) p = Some q ∧ fs w1 !! q = Some Dir
       ∧ fs w2 = prune q (fs w1) ∧ cwd w2 = cwd w1.
Proof.
  unfold rmtree. run_m. cbn [fs cwd set_log].
  destruct (locate (fs w1) (cwd w1) p) as [q|]; last done.
  destruct (fs w1 !! q) as [[]|] eqn:Hq; [done| |done].
  destruct q as [|c q]; first done.
  intros [= <-]. eauto.
Qed.

Lemma chdir_ok p w1 w2 :
  chdir p w1 = (Ok tt, w2) →
  ∃ r, locate (fs w1) (cwd w1) p = Some r ∧ fs w1 !! r = Some Dir
       ∧ fs w2 = fs w1 ∧ cwd w2 = r.
Proof.
  unfold chdir. run_m. cbn [fs cwd set_log].
  destruct (locate (fs w1) (cwd w1) p) as [r|]; last done.
  destruct (fs w1 !! r) as [[]|] eqn:Hr; [done| |done].
  intros [= <-]. eauto.
Qed.

Lemma getcwd_ok w s w' : getcwd w = (Ok s, w') → w' = w.
Proof.
  unfold getcwd. run_m. destruct (fs w !! cwd w) as [[]|]; try done.
  by intros [= _ <-].
Qed.

Lemma try_finally_ok {A} (body : M A) cleanup w a w' :
  try_finally body cleanup w = (Ok a, w') →
  ∃ wb, body w = (Ok a, wb) ∧ cleanup wb = (Ok tt, w').
Proof.
  unfold try_finally. destruct (body w) as [r wb].
  destruct (cleanup wb) as [[[]|e] wc] eqn:Hc; last done.
  intros [= -> <-]. eauto.
Qed.

Lemma walk_plain_dirs t cur comps q i :
  forallb plain_comp comps = true →
  walk t cur comps = Some q →
  (i < length comps)%nat → t !! (cur ++ take i comps) = Some Dir.
Proof.
  revert cur i. induction comps as [|c comps IH]; intros cur i Hp; first (cbn; lia).
  cbn in Hp. apply andb_prop in Hp as [Hc Hp]. cbn [walk].
  destruct (t !! cur) as [[]|] eqn:Hcur; [done| |done].
  rewrite step_plain by done. intros Hw Hi.
  destruct i as [|i]; cbn.
  - by rewrite app_nil_r.
  - replace (cur ++ c :: take i comps) with ((cur ++ [c]) ++ take i comps)
      by by rewrite <-app_assoc.
    apply (IH _ _ Hp Hw). cbn in Hi. lia.
Qed.

Lemma plain_not_abs p : plain p = true → PosixPath.isabs p = false.
Proof.
  unfold plain. intros Hp. destruct p as [|a p]; first done.
  unfold PosixPath.isabs. cbn.
  destruct (Ascii.eqb a "/") eqn:Ha; last done.
  cbn [split] in Hp. by rewrite Ha in Hp.
Qed.

Lemma plain_locate_dirs t d p q i :
  plain p = true → locate t d p = Some q →
  (i < length (split "/" p))%nat → t !! (d ++ take i (split "/" p)) = Some Dir.
Proof.
  intros Hp. unfold locate. rewrite (plain_not_abs p Hp).
  destruct (String.eqb p EmptyString); first done.
  by apply walk_plain_dirs.
Qed.

Section Removal.
Context (filter_fn : Fsutil.FilterFuncT).
Context (t0 : gmap (list string) node) (r : list string).
Context (Hstable : filter_stable filter_fn t0 r).

Lemma removal_inv_submap paths t : removal_inv filter_fn t0 r paths t → t ⊆ t0.
Proof.
  intros Hinv. apply map_subseteq_spec. intros k n. rewrite (Hinv k).
  by destruct (decide (covered filter_fn t0 r paths k)).
Qed.

Lemma covered_snoc paths p k :
  covered filter_fn t0 r (paths ++ [p]) k
  ↔ covered filter_fn t0 r paths k
    ∨ (qualifies filter_fn t0 r p = true ∧ (r ++ split "/" p) `prefix_of` k).
Proof.
  unfold covered. rewrite Exists_app, Exists_cons, Exists_nil. tauto.
Qed.

Lemma covered_prefix paths k k' :
  covered filter_fn t0 r paths k → k `prefix_of` k' →
  covered filter_fn t0 r paths k'.
Proof.
  unfold covered. rewrite !Exists_exists.
  intros (p & Hin & Hq & Hpre) Hk. exists p. split; [done|]. split; [done|].
  by etrans.
Qed.

(** One turn of the loop keeps the invariant. *)
Lemma remove_if_accepted_inv done p w1 w2 :
  plain p = true → cwd w1 = r →
  removal_inv filter_fn t0 r done (fs w1) →
  remove_if_accepted filter_fn p w1 = (Ok tt, w2) →
  cwd w2 = r ∧ removal_inv filter_fn t0 r (done ++ [p]) (fs w2).
Proof.
  intros Hplain Hcwd Hinv. unfold remove_if_accepted. run_m. rewrite Hcwd.
  pose proof (removal_inv_submap _ _ Hinv) as Hsub.
  destruct (filter_fn (fs w1) r p) eqn:Hverdict.
  - intros (q & Hq & Hdir & Hfs & Hcwd2)%rmtree_ok. rewrite Hcwd in Hq, Hcwd2.
    split; first done.
    pose proof (plain_locate _ _ _ _ Hplain Hq) as ->.
    assert (stat (fs w1) r p = Some Dir) as Hstat by (unfold stat; by rewrite Hq).
    assert (qualifies filter_fn t0 r p = true) as Hqual.
    { unfold qualifies, isdir_at.
      rewrite (stat_submap _ _ _ _ _ Hsub Hstat), bool_decide_true by done.
      rewrite <-(Hstable (fs w1) p Hsub); first done. by rewrite Hstat. }
    intros k. rewrite Hfs, prune_lookup, (Hinv k).
    destruct (decide (r ++ split "/" p `prefix_of` k)) as [Hpre|Hpre].
    + rewrite decide_True; first done. apply covered_snoc. tauto.
    + destruct (decide (covered filter_fn t0 r done k)) as [Hc|Hc].
      * rewrite decide_True; first done. apply covered_snoc. tauto.
      * rewrite decide_False; first done. rewrite covered_snoc. tauto.
  - intros [= <-]. split; first done.
    intros k. rewrite (Hinv k).
    destruct (decide (covered filter_fn t0 r done k)) as [Hc|Hc].
    { rewrite decide_True; first done. apply covered_snoc. tauto. }
    destruct (decide (covered filter_fn t0 r (done ++ [p]) k)) as [Hc'|Hc'];
      last done.
    apply covered_snoc in Hc' as [Hc'|[Hqual Hpre]]; first done.
    exfalso. apply Hc.
    unfold qualifies in Hqual. apply andb_prop in Hqual as [Hdir Hf].
    unfold isdir_at in Hdir. apply bool_decide_eq_true in Hdir.
    unfold stat in Hdir.
    destruct (locate t0 r p) as [q|] eqn:Hq0; last done. cbn in Hdir.
    pose proof (plain_locate _ _ _ _ Hplain Hq0) as ->.
    assert (stat (fs w1) r p = None) as Hgone.
    { destruct (stat (fs w1) r p) as [n|] eqn:Hs; last done.
      rewrite Hstable in Hverdict; [congruence|done|by rewrite Hs]. }
    unfold stat in Hgone.
    destruct (locate (fs w1) r p) as [q|] eqn:Hq1.
    + pose proof (plain_locate _ _ _ _ Hplain Hq1) as ->. cbn in Hgone.
      rewrite (Hinv _) in Hgone.
      destruct (decide (covered filter_fn t0 r done (r ++ split "/" p)))
        as [Hc1|Hc1]; [|congruence].
      by eapply covered_prefix.
    + apply plain_locate_None in Hq1 as (i & Hi & Hmissing); last done.
      pose proof (plain_locate_dirs _ _ _ _ i Hplain Hq0 Hi) as Hthere.
      rewrite (Hinv _) in Hmissing.
      destruct (decide (covered filter_fn t0 r done (r ++ take i (split "/" p))))
        as [Hc1|Hc1]; [|congruence].
      eapply covered_prefix; first done.
      etrans; last done. apply prefix_app, prefix_take.
Qed.

(** So does the whole loop. *)
Lemma for_each_remove_inv paths done w1 w2 :
  Forall (λ p, plain p = true) paths → cwd w1 = r →
  removal_inv filter_fn t0 r done (fs w1) →
  for_each paths (remove_if_accepted filter_fn) w1 = (Ok tt, w2) →
  cwd w2 = r ∧ removal_inv filter_fn t0 r (done ++ paths) (fs w2).
Proof.
  revert done w1.
  induction paths as [|p paths IH]; intros done w1 Hplain Hcwd Hinv.
  - cbn. intros [= <-]. by rewrite app_nil_r.
  - apply Forall_cons in Hplain as [Hp Hplain]. cbn [for_each].
    intros ([] & w1' & Hstep & Hrest)%bind_inv.
    destruct (remove_if_accepted_inv _ _ _ _ Hp Hcwd Hinv Hstep)
      as [Hcwd' Hinv'].
    destruct (IH _ _ Hplain Hcwd' Hinv' Hrest) as [Hcwd2 Hinv2].
    split; first done. by rewrite <-app_assoc in Hinv2.
Qed.

End Removal.

(** A filter that asks for a directory and then looks at the path only
    is stable. *)
Lemma isdir_filter_stable (g : string → bool) t0 r :
  filter_stable (λ t d p, isdir_at t d p && g p) t0 r.
Proof.
  intros t p Hsub [n Hn]. unfold isdir_at.
  by rewrite Hn, (stat_submap _ _ _ _ _ Hsub Hn).
Qed.

Lemma anyone_stable t0 r : filter_stable Fsutil._anyone t0 r.
Proof. done. Qed.


Example test_find_glob :
  (Fsutil.find_glob_list "/" "**/__dir?__" Fsutil._anyone
     (world_of_tree removal_tree)).1
  = Ok ["__dir4__"; "rootdir/__dir3__"; "rootdir/project/package/__dir1__"].
Proof. vm_compute. reflexivity. Qed.

Example test_recursive_remove :
  removal_run.1 = Ok tt
  ∧ fs removal_run.2 !! ["rootdir"; "project"; "package"; "__dir1__"] = None
  ∧ fs removal_run.2 !! ["rootdir"; "project"; "__dir22__"] = Some Dir
  ∧ fs removal_run.2 !! ["rootdir"; "__dir3__"] = Some Dir
  ∧ fs removal_run.2 !! ["__dir4__"] = Some Dir.
Proof. repeat split; vm_compute; reflexivity. Qed.



(** ** The walk of [find_repo_root] *)

Lemma string_length_app (a b : string) :
  String.length (a +:+ b) = (String.length a + String.length b)%nat.
Proof. induction a as [|x a IH]; [done|]. rewrite str_app_cons. cbn. by rewrite IH. Qed.

Lemma join_snoc (sep : ascii) (l : list string) (x y : string) :
  join sep ((x :: l) ++ [y]) = join sep (x :: l) +:+ String sep y.
Proof.
  revert x. induction l as [|z l IH]; intros x; first done.
  change ((x :: z :: l) ++ [y]) with (x :: ((z :: l) ++ [y])).
  cbn [app]. rewrite !join_cons. change (z :: l ++ [y]) with ((z :: l) ++ [y]).
  rewrite IH. by rewrite string_app_assoc.
Qed.

(** The parent of a path by [rsplit] is the path itself or shorter. *)
Lemma rsplit1_head_shorter (sep : ascii) (s : string) :
  rsplit1_head sep s = s
  ∨ (String.length (rsplit1_head sep s) < String.length s)%nat.
Proof.
  unfold rsplit1_head.
  pose proof (join_split sep s) as Hjoin.
  destruct (split sep s) as [|x l] eqn:E; first by left.
  destruct l as [|y l]; first by left.
  right.
  destruct (exists_last (l := y :: l)) as (l' & z & Hl'); first done.
  rewrite Hl' in *.
  change (x :: l' ++ [z]) with ((x :: l') ++ [z]) in *.
  rewrite List.removelast_last.
  rewrite join_snoc in Hjoin. rewrite <-Hjoin.
  rewrite string_length_app. cbn. lia.
Qed.

Lemma listdir_keeps p w r w' :
  listdir p w = (r, w') → fs w' = fs w ∧ cwd w' = cwd w.
Proof.
  unfold listdir. run_m. cbn [fs cwd set_log].
  destruct (locate (fs w) (cwd w) p) as [k|]; last by intros [= <- <-].
  destruct (fs w !! k) as [[]|]; by intros [= <- <-].
Qed.


(** What [find_repo_root] returns holds a [.git] directory. *)
Lemma find_repo_root_loop_marker (n : nat) (start_dir curr_dir : string)
    (w w' : World) (v : string) :
  Fsutil.find_repo_root_loop n start_dir curr_dir w = (Ok v, w') →
  isdir_at (fs w) (cwd w) (PosixPath.join2 v ".git") = true
  ∧ fs w' = fs w ∧ cwd w' = cwd w.
Proof.
  revert curr_dir w. induction n as [|n IH]; intros curr_dir w; first done.
  cbn [Fsutil.find_repo_root_loop].
  destruct (String.eqb curr_dir EmptyString); first done.
  intros (names & w1 & [Hfs Hcwd]%listdir_keeps & H)%bind_inv.
  run_m. rewrite Hfs, Hcwd in H.
  destruct (bool_decide _) eqn:Hgit.
  - injection H as <- <-. split; last done.
    apply bool_decide_eq_true in Hgit.
    by apply list_elem_of_filter in Hgit as [Hgit _].
  - destruct (String.eqb (rsplit1_head PosixPath.sep curr_dir) curr_dir);
      first done.
    apply IH in H as (H & -> & ->). by rewrite Hfs, Hcwd in H.
Qed.

Lemma abspath_keeps p w r w' : Fsutil.abspath p w = (r, w') → w' = w.
Proof.
  unfold Fsutil.abspath. destruct (PosixPath.isabs p); first by intros [= _ <-].
  unfold getcwd. run_m. destruct (fs w !! cwd w) as [[]|]; by intros [= _ <-].
Qed.

(** What the walk returns is a directory that holds a [.git] directory,
    and the walk changes nothing in the file tree. *)
Theorem find_repo_root_returns_a_repo_root (start_dir : option string)
    (w w' : World) (v : string) :
  Fsutil.find_repo_root_body start_dir w = (Ok v, w') →
  isdir_at (fs w) (cwd w) (PosixPath.join2 v ".git") = true
  ∧ fs w' = fs w ∧ cwd w' = cwd w.
Proof.
  unfold Fsutil.find_repo_root_body.
  intros (start & w1 & Hstart & H)%bind_inv.
  assert (w1 = w) as ->.
  { destruct start_dir as [[|a s]|]; try by eapply getcwd_ok.
    by injection Hstart. }
  apply bind_inv in H as (curr_dir & w1 & ->%abspath_keeps & H).
  by apply find_repo_root_loop_marker in H.
Qed.

(** The walk of [test_find_repo_root_success]. *)
Lemma find_repo_root_returns_a_repo_root_witness :
  isdir_at (fs git_project_world) (cwd git_project_world)
           (PosixPath.join2 "/rootdir/project" ".git") = true
  ∧ fs (Fsutil.find_repo_root_body (Some "/rootdir/project/package/sub_package")
          git_project_world).2
    = fs git_project_world
  ∧ cwd (Fsutil.find_repo_root_body (Some "/rootdir/project/package/sub_package")
           git_project_world).2
    = cwd git_project_world.
Proof.
  apply (find_repo_root_returns_a_repo_root
           (Some "/rootdir/project/package/sub_package") git_project_world).
  vm_compute. reflexivity.
Defined.


(** ** What [glob] yields for a plain pattern *)

Lemma child_name_inv d k n : child_name d k = Some n → k = d ++ [n].
Proof.
  revert k. induction d as [|x d IH]; intros k.
  - destruct k as [|y [|z k]]; cbn; try done. by intros [= ->].
  - destruct k as [|y k]; cbn; first done.
    destruct (String.eqb_spec x y) as [->|]; last done.
    by intros ->%IH.
Qed.

Lemma children_good t k n :
  tree_wf t → n ∈ children t k → good_comp n = true.
Proof.
  intros Hwf. unfold children. rewrite list_elem_of_omap.
  intros ([k' v] & Hin & Hn). cbn in Hn. apply child_name_inv in Hn as ->.
  apply elem_of_map_to_list in Hin. apply Hwf in Hin.
  rewrite forallb_app in Hin. apply andb_prop in Hin as [_ Hin].
  cbn in Hin. by rewrite andb_true_r in Hin.
Qed.

Lemma glistdir_good t d dirname dironly n :
  tree_wf t → n ∈ Glob.glistdir t d dirname dironly → good_comp n = true.
Proof.
  intros Hwf. unfold Glob.glistdir.
  destruct (locate t d _) as [k|]; last by intros ?%elem_of_nil.
  destruct (t !! k) as [[]|]; try by intros ?%elem_of_nil.
  intros [_ Hin]%list_elem_of_filter. by eapply children_good.
Qed.

Lemma good_comp_plain n : good_comp n = true → plain n = true.
Proof.
  unfold good_comp, plain. intros [Hp Hs]%andb_prop.
  rewrite no_slash_split by done. cbn. by rewrite Hp.
Qed.

Lemma plain_nonempty p : plain p = true → p ≠ EmptyString.
Proof. by intros Hp ->. Qed.

Lemma plain_not_endswith p : plain p = true → endswith p "/" = false.
Proof.
  intros Hp. destruct (endswith p "/") eqn:E; last done.
  apply endswith_inv in E as [e ->]. unfold plain in Hp.
  change (e +:+ "/") with (e +:+ String "/" EmptyString) in Hp.
  rewrite split_app_sep, forallb_app in Hp.
  apply andb_prop in Hp as [_ Hp]. by vm_compute in Hp.
Qed.

Lemma plain_app_sep p x :
  plain p = true → plain x = true → plain (p +:+ String "/" x) = true.
Proof.
  unfold plain. intros Hp Hx. by rewrite split_app_sep, forallb_app, Hp, Hx.
Qed.

(** Joining a plain path to such a prefix gives a plain path. *)
Lemma join2_plain p x :
  prefix_like p → plain x = true → plain (PosixPath.join2 p x) = true.
Proof.
  intros Hp Hx. unfold PosixPath.join2.
  pose proof (plain_not_abs x Hx) as Habs. unfold PosixPath.isabs in Habs.
  rewrite Habs.
  destruct Hp as [->|[Hp|(q & Hq & ->)]].
  - done.
  - pose proof (plain_nonempty _ Hp) as Hne%String.eqb_neq. rewrite Hne.
    rewrite plain_not_endswith by done. cbn [orb].
    by apply plain_app_sep.
  - rewrite endswith_app, orb_true_r. rewrite string_app_assoc.
    by apply plain_app_sep.
Qed.

Lemma gjoin_plain x y :
  plain x = true → plain y = true → plain (Glob.gjoin x y) = true.
Proof.
  intros Hx Hy. unfold Glob.gjoin.
  pose proof (plain_nonempty _ Hx) as Hxe%String.eqb_neq.
  pose proof (plain_nonempty _ Hy) as Hye%String.eqb_neq.
  rewrite Hxe, Hye. cbn [orb]. apply join2_plain; [|done]. right. by left.
Qed.

Lemma rlistdir_plain t d depth dirname dironly :
  tree_wf t →
  Forall (λ p, plain p = true) (Glob.rlistdir t d depth dirname dironly).
Proof.
  intros Hwf. revert dirname. induction depth as [|depth IH]; intros dirname.
  - constructor.
  - cbn [Glob.rlistdir]. apply Forall_forall. intros p.
    rewrite list_elem_of_In, in_flat_map.
    intros (x & Hx%list_elem_of_In & Hp%list_elem_of_In).
    apply glistdir_good, good_comp_plain in Hx; last done.
    destruct (Glob.ishidden x); first by apply elem_of_nil in Hp.
    apply elem_of_cons in Hp as [->|Hp]; first done.
    apply list_elem_of_fmap in Hp as (y & -> & Hy).
    apply gjoin_plain; first done.
    by eapply Forall_forall in Hy; last apply IH.
Qed.

Lemma split_no_slash (s : string) :
  Forall (λ c, no_slash c = true) (split "/" s).
Proof.
  induction s as [|a s IH]; first by repeat constructor.
  cbn [split]. destruct (Ascii.eqb a "/") eqn:Ha.
  - by constructor.
  - pose proof (split_nonempty "/" s) as Hne.
    destruct (split "/" s) as [|w ws]; first done.
    apply Forall_cons in IH as [Hw Hws]. constructor; last done.
    unfold no_slash in *. cbn. by rewrite Ha, Hw.
Qed.

Lemma split_join (l : list string) :
  l ≠ [] → Forall (λ c, no_slash c = true) l → split "/" (join "/" l) = l.
Proof.
  induction l as [|x l IH]; first done. intros _ [Hx Hl]%Forall_cons.
  destruct l as [|y l]; first by apply no_slash_split.
  rewrite join_cons, split_app_sep, (no_slash_split x), IH by done. done.
Qed.

Lemma rstrip_app_slash (e : string) :
  e ≠ EmptyString → endswith e "/" = false → rstrip_char "/" (e +:+ "/") = e.
Proof.
  unfold rstrip_char. induction e as [|a e IH]; first done. intros _ Hend.
  rewrite str_app_cons, rstrip_by_cons. cbn [endswith] in Hend.
  apply orb_false_elim in Hend as [Ha Hend].
  destruct e as [|b e].
  - rewrite str_app_nil_l.
    change (rstrip_by (Ascii.eqb "/") "/") with EmptyString.
    cbn [String.eqb andb].
    destruct (Ascii.eqb_spec "/" a) as [<-|]; [by vm_compute in Ha|done].
  - rewrite IH by done. done.
Qed.

(** The directory part and the base name of a plain path. *)
Lemma plain_dirname_basename (pathname : string) :
  plain pathname = true →
  good_comp (PosixPath.basename pathname) = true
  ∧ (PosixPath.dirname pathname = EmptyString
     ∨ plain (PosixPath.dirname pathname) = true).
Proof.
  intros Hp. unfold plain in Hp.
  pose proof (split_no_slash pathname) as Hns.
  pose proof (join_split "/" pathname) as Hjoin.
  pose proof (split_nonempty "/" pathname) as Hparts.
  destruct (exists_last Hparts) as (l & z & Hl).
  rewrite Hl in *. clear Hparts Hl.
  rewrite forallb_app in Hp. apply andb_prop in Hp as [Hl Hz].
  apply Forall_app in Hns as [Hnl Hnz]. apply Forall_cons in Hnz as [Hnz _].
  cbn in Hz. rewrite andb_true_r in Hz.
  assert (good_comp z = true) as Hgood by (unfold good_comp; by rewrite Hz, Hnz).
  destruct l as [|y l].
  - cbn in Hjoin. subst z. split.
    + unfold PosixPath.basename, rsplit_last. by rewrite no_slash_split.
    + left. unfold PosixPath.dirname, PosixPath.head_part, PosixPath.sep.
      by rewrite no_slash_split.
  - rewrite join_snoc in Hjoin. subst pathname.
    assert (plain (join "/" (y :: l)) = true) as He.
    { unfold plain. by rewrite split_join. }
    pose proof (plain_nonempty _ He) as Hne.
    split.
    + unfold PosixPath.basename, rsplit_last, PosixPath.sep.
      by rewrite split_app_sep, (no_slash_split z), List.last_last.
    + right. unfold PosixPath.dirname. rewrite head_part_app by done.
      rewrite app_nonempty. cbn [negb andb].
      assert (all_chars (Ascii.eqb PosixPath.sep) (join "/" (y :: l) +:+ "/") = false)
        as ->.
      { pose proof (plain_not_abs _ He) as Habs. unfold PosixPath.isabs in Habs.
        destruct (join "/" (y :: l)) as [|a e]; first done.
        rewrite str_app_cons. cbn [all_chars]. cbn [startswith] in Habs.
        rewrite andb_true_r in Habs. unfold PosixPath.sep.
        by rewrite Ascii.eqb_sym, Habs. }
      cbn [negb]. unfold PosixPath.sep.
      rewrite rstrip_app_slash; [done|done|]. by apply plain_not_endswith.
Qed.

Lemma prefix_like_join2_empty p :
  prefix_like p → prefix_like (PosixPath.join2 p EmptyString).
Proof.
  unfold PosixPath.join2. cbn [startswith].
  intros [->|[Hp|(q & Hq & ->)]].
  - by left.
  - pose proof (plain_nonempty _ Hp) as Hne%String.eqb_neq. rewrite Hne.
    rewrite plain_not_endswith by done. cbn [orb].
    right. right. exists p. split; first done. by rewrite str_app_nil_r.
  - rewrite endswith_app, orb_true_r, str_app_nil_r. right. right. eauto.
Qed.

Section GlobPlain.
Context (t : gmap (list string) node) (d : list string).
Context (Hwf : tree_wf t).

Lemma glob_in_dir_plain (dirname basename : string) (dironly : bool) (name : string) :
  good_comp basename = true →
  name ∈ (if Glob.has_magic basename
          then if Glob.isrecursive basename then Glob.glob2 t d else Glob.glob1 t d
          else Glob.glob0 t d) dirname basename dironly →
  (Glob.isrecursive basename = true ∧ name = EmptyString) ∨ plain name = true.
Proof.
  intros Hb. destruct (Glob.has_magic basename).
  - destruct (Glob.isrecursive basename).
    + unfold Glob.glob2. intros [->|Hin]%elem_of_cons; first by left.
      right. by eapply Forall_forall in Hin; last apply rlistdir_plain.
    + unfold Glob.glob1. intros [_ Hin]%list_elem_of_filter. right.
      apply good_comp_plain.
      destruct (Glob.ishidden basename).
      * by eapply glistdir_good.
      * apply list_elem_of_filter in Hin as [_ Hin]. by eapply glistdir_good.
  - unfold Glob.glob0.
    assert (String.eqb basename EmptyString = false) as ->.
    { apply String.eqb_neq. apply plain_nonempty. by apply good_comp_plain. }
    cbn [negb]. destruct (lexists_at _ _ _); last by intros ?%elem_of_nil.
    intros ->%list_elem_of_singleton. right. by apply good_comp_plain.
Qed.

(** What [iglob_] makes of the directories its recursive call gave. *)
Lemma iglob_body_plain (pathname : string) (dironly : bool) (dirs : list string) :
  plain pathname = true →
  Forall prefix_like dirs →
  Forall (λ p, prefix_like p
               ∧ (Glob.isrecursive (PosixPath.basename pathname) = false →
                  plain p = true))
    (if negb (Glob.has_magic pathname) then
       if negb (String.eqb (PosixPath.basename pathname) EmptyString) then
         if lexists_at t d pathname then [pathname] else []
       else
         if isdir_at t d (PosixPath.dirname pathname) then [pathname] else []
     else if String.eqb (PosixPath.dirname pathname) EmptyString then
       if Glob.isrecursive (PosixPath.basename pathname)
       then Glob.glob2 t d EmptyString (PosixPath.basename pathname) dironly
       else Glob.glob1 t d EmptyString (PosixPath.basename pathname) dironly
     else
       flat_map
         (λ dirname,
            PosixPath.join2 dirname <$>
              (if Glob.has_magic (PosixPath.basename pathname)
               then if Glob.isrecursive (PosixPath.basename pathname)
                    then Glob.glob2 t d else Glob.glob1 t d
               else Glob.glob0 t d)
                dirname (PosixPath.basename pathname) dironly)
         dirs).
Proof.
  intros Hp Hdirs.
  destruct (plain_dirname_basename pathname Hp) as [Hbase Hdir].
  assert (String.eqb (PosixPath.basename pathname) EmptyString = false) as Hbne.
  { apply String.eqb_neq, plain_nonempty. by apply good_comp_plain. }
  destruct (negb (Glob.has_magic pathname)).
  - rewrite Hbne. cbn [negb].
    destruct (lexists_at t d pathname); last by constructor.
    apply Forall_cons. split; last by constructor.
    split; [by right; left|done].
  - destruct (String.eqb (PosixPath.dirname pathname) EmptyString).
    + apply Forall_forall. intros name Hname.
      assert ((Glob.isrecursive (PosixPath.basename pathname) = true
               ∧ name = EmptyString) ∨ plain name = true) as [[Hrec ->]|Hplain].
      { destruct (Glob.isrecursive (PosixPath.basename pathname)) eqn:Hrec.
        - unfold Glob.glob2 in Hname.
          apply elem_of_cons in Hname as [->|Hin]; first by left.
          right. by eapply Forall_forall in Hin; last apply rlistdir_plain.
        - right. unfold Glob.glob1 in Hname.
          apply list_elem_of_filter in Hname as [_ Hin].
          apply good_comp_plain.
          destruct (Glob.ishidden (PosixPath.basename pathname)).
          + by eapply glistdir_good.
          + apply list_elem_of_filter in Hin as [_ Hin]. by eapply glistdir_good. }
      * split; [by left|congruence].
      * split; [by right; left|done].
    + apply Forall_forall. intros p.
      rewrite list_elem_of_In, in_flat_map.
      intros (dn & Hdn%list_elem_of_In & Hin%list_elem_of_In).
      apply list_elem_of_fmap in Hin as (name & -> & Hname).
      apply (glob_in_dir_plain _ _ _ _ Hbase) in Hname.
      assert (prefix_like dn) as Hpre by by eapply Forall_forall in Hdirs.
      destruct Hname as [[Hrec ->]|Hname].
      * split; [by apply prefix_like_join2_empty|congruence].
      * pose proof (join2_plain _ _ Hpre Hname). split; [by right; left|done].
Qed.

(** The matches of a plain pattern are such prefixes, and plain paths
    when the pattern does not end in two stars. *)
Lemma iglob_plain (fuel : nat) (pathname : string) (dironly : bool) :
  plain pathname = true →
  Forall (λ p, prefix_like p
               ∧ (Glob.isrecursive (PosixPath.basename pathname) = false →
                  plain p = true))
         (Glob.iglob_ t d fuel pathname dironly).
Proof.
  revert pathname dironly.
  induction fuel as [|fuel IH]; intros pathname dironly Hp;
    destruct (plain_dirname_basename pathname Hp) as [Hbase Hdir].
  - apply (iglob_body_plain pathname dironly
             (if negb (String.eqb (PosixPath.dirname pathname) pathname)
                 && Glob.has_magic (PosixPath.dirname pathname)
              then [] else [PosixPath.dirname pathname])); first done.
    destruct (negb _ && _); first by constructor.
    apply Forall_cons. split; last by constructor.
    destruct Hdir as [->|Hdir]; [by left|by right; left].
  - apply (iglob_body_plain pathname dironly
             (if negb (String.eqb (PosixPath.dirname pathname) pathname)
                 && Glob.has_magic (PosixPath.dirname pathname)
              then Glob.iglob_ t d fuel (PosixPath.dirname pathname) true
              else [PosixPath.dirname pathname])); first done.
    destruct Hdir as [Hdir|Hdir].
    + rewrite Hdir. change (Glob.has_magic EmptyString) with false.
      rewrite andb_false_r. apply Forall_cons. split; [by left|by constructor].
    + destruct (negb _ && _).
      * eapply Forall_impl; first by apply IH. by intros ? [? _].
      * apply Forall_cons. split; [by right; left|by constructor].
Qed.

End GlobPlain.

(** On a tree whose entries have plain names, the matches of a pattern
    that is a plain relative path and does not end in two stars are
    plain relative paths: they lie under the working directory. *)
Theorem glob_plain_pattern (t : gmap (list string) node) (d : list string)
    (pattern : string) :
  tree_wf t →
  plain pattern = true →
  Glob.isrecursive (PosixPath.basename pattern) = false →
  Forall (λ p, plain p = true) (Glob.glob t d pattern).
Proof.
  intros Hwf Hp Hrec. unfold Glob.glob.
  pose proof (iglob_plain t d Hwf (String.length pattern) pattern false Hp) as Hit.
  assert (Forall (λ p, plain p = true)
            (Glob.iglob_ t d (String.length pattern) pattern false)) as Hall.
  { eapply Forall_impl; first done. intros p [_ H]. by apply H. }
  destruct (String.eqb pattern EmptyString
            || Glob.isrecursive (String.substring 0 2 pattern)); last done.
  destruct (Glob.iglob_ t d (String.length pattern) pattern false)
    as [|[|a s] rest]; [done| |done].
  by apply Forall_cons in Hall as [_ Hall].
Qed.

(** The pattern of [test_recursive_remove] on its tree. *)
Lemma glob_plain_pattern_witness :
  Forall (λ p, plain p = true)
         (Glob.glob removal_tree ["rootdir"; "project"] "**/__dir?__").
Proof.
  apply glob_plain_pattern; [|reflexivity|reflexivity].
  unfold tree_wf, removal_tree.
  repeat (apply map_Forall_insert_2; [reflexivity|]). apply map_Forall_empty.
Defined.

(** * Further properties, and the scripts around the two modules *)

Import Helpers ExtractReq.

(** ** [download_file] *)

Lemma concat_skip_empty (chunks : list string) :
  String.concat EmptyString (filter (λ chunk, chunk ≠ EmptyString) chunks)
  = String.concat EmptyString chunks.
Proof.
  assert (∀ c l, String.concat EmptyString (c :: l)
                 = c +:+ String.concat EmptyString l) as Hcons.
  { intros c [|c' l]; cbn; [by rewrite str_app_nil_r|done]. }
  induction chunks as [|c chunks IH]; first done.
  destruct (decide (c = EmptyString)) as [->|Hc].
  - rewrite filter_cons_False by (intros H; by apply H).
    by rewrite Hcons, str_app_nil_l.
  - rewrite filter_cons_True by done. by rewrite !Hcons, IH.
Qed.

(** [download_file] asks before it opens the target.  When the server
    cannot be reached it raises [ConnectionError], and when it answers
    with a status from 400 to 599 it raises [HTTPError] with that
    status; in both cases the request is the only trace: the target is
    neither created nor emptied. *)
Theorem download_file_fails_before_opening (url path : string) (n : Z) (w : World) :
  (remote w url true = None →
   download_file url path n w
   = (Raise (ConnectionError url), set_log (log w ++ [EvHttpGet url true]) w))
  ∧ (∀ resp, remote w url true = Some resp →
       400 ≤ status_code resp < 600 →
       download_file url path n w
       = (Raise (HTTPError (status_code resp)),
          set_log (log w ++ [EvHttpGet url true]) w)).
Proof.
  split.
  - intros Hnone. unfold download_file, http_get. run_m. cbn [remote set_log].
    by rewrite Hnone.
  - intros resp Hresp [Hlo Hhi]. unfold download_file, http_get, raise_for_status.
    run_m. cbn [remote set_log]. rewrite Hresp.
    apply Z.leb_le in Hlo. apply Z.ltb_lt in Hhi. by rewrite Hlo, Hhi.
Qed.

(** The server is asked for the archive and answers 404; another
    server cannot be reached. *)
Lemma download_file_fails_before_opening_witness :
  download_file archive_url archive_path DEFAULT_BUFFER_SIZE (refusing_world 404)
  = (Raise (HTTPError 404),
     set_log [EvHttpGet archive_url true] (refusing_world 404))
  ∧ download_file "https://example.invalid/a.zip" "/tmp/a.zip" DEFAULT_BUFFER_SIZE
      (refusing_world 404)
    = (Raise (ConnectionError "https://example.invalid/a.zip"),
       set_log [EvHttpGet "https://example.invalid/a.zip" true] (refusing_world 404)).
Proof.
  split.
  - apply (proj2 (download_file_fails_before_opening archive_url archive_path
                    DEFAULT_BUFFER_SIZE (refusing_world 404))
             (mkResponse 404 ∅ [])); [reflexivity|simpl; lia].
  - apply (proj1 (download_file_fails_before_opening "https://example.invalid/a.zip"
                    "/tmp/a.zip" DEFAULT_BUFFER_SIZE (refusing_world 404))).
    reflexivity.
Defined.

(** When [download_file] returns, the server has answered with a status
    outside 400 to 599, the target has been opened after the request,
    and it holds the chunks of the body one after the other, whatever
    it held before: skipping the empty chunks loses nothing. *)
Theorem download_file_writes_the_body (url path : string) (n : Z) (w w' : World) :
  download_file url path n w = (Ok tt, w') →
  ∃ resp, remote w url true = Some resp
          ∧ ¬ (400 ≤ status_code resp < 600)
          ∧ log w' = log w ++ [EvHttpGet url true; EvOpenW path]
          ∧ stat (fs w') (cwd w') path
            = Some (File (String.concat EmptyString (body resp))).
Proof.
  unfold download_file.
  intros (resp & w1 & Hget & H)%bind_inv.
  apply bind_inv in H as ([] & w2 & Hstatus & H).
  unfold http_get in Hget. run_m. cbn [remote set_log] in Hget.
  destruct (remote w url true) as [resp'|] eqn:Hresp; last done.
  injection Hget as -> <-.
  unfold raise_for_status in Hstatus.
  destruct ((400 <=? status_code resp) && (status_code resp <? 600)) eqn:Hs;
    first done.
  run_m. injection Hstatus as <-.
  apply write_file_ok in H as (Hlog & Hstat & _).
  exists resp. split; first done. split; [|split].
  - intros [Hlo Hhi]. apply Z.leb_le in Hlo. apply Z.ltb_lt in Hhi.
    by rewrite Hlo, Hhi in Hs.
  - rewrite Hlog. cbn [log set_log]. by rewrite <-app_assoc.
  - by rewrite <-concat_skip_empty.
Qed.

(** The archive comes in three chunks, the second of them empty. *)
Lemma download_file_writes_the_body_witness :
  ∃ resp,
    remote (download_world ["T"; ""; "GZ"]) archive_url true = Some resp
    ∧ ¬ (400 ≤ status_code resp < 600)
    ∧ log (download_file archive_url archive_path DEFAULT_BUFFER_SIZE
             (download_world ["T"; ""; "GZ"])).2
      = log (download_world ["T"; ""; "GZ"])
        ++ [EvHttpGet archive_url true; EvOpenW archive_path]
    ∧ stat (fs (download_file archive_url archive_path DEFAULT_BUFFER_SIZE
                  (download_world ["T"; ""; "GZ"])).2)
           (cwd (download_file archive_url archive_path DEFAULT_BUFFER_SIZE
                   (download_world ["T"; ""; "GZ"])).2)
           archive_path
      = Some (File (String.concat "" (body resp))).
Proof.
  apply (download_file_writes_the_body archive_url archive_path
           DEFAULT_BUFFER_SIZE (download_world ["T"; ""; "GZ"])).
  vm_compute. reflexivity.
Defined.

(** ** [configure], twice *)

Lemma configure_ok (attrnames : gset string) (self : nat)
    (kwargs a : gmap string value) (w : World) :
  objects w !! self = Some a → dom kwargs ⊆ attrnames →
  configure attrnames self kwargs w
  = (Ok tt, set_objects (<[self := kwargs ∪ a]> (objects w)) w).
Proof.
  intros Hself Hsub. unfold configure, _check_attributes.
  rewrite decide_True by done.
  erewrite bind_ok; last reflexivity.
  erewrite for_each_setattr; [|apply NoDup_fst_map_to_list|done].
  by rewrite list_to_map_to_list.
Qed.

(** Two calls of [configure] with names of the attribute set amount to
    one call with the arguments of both, those of the second call
    winning. *)
Theorem configure_then_configure (attrnames : gset string) (self : nat)
    (first second a : gmap string value) (w : World) :
  objects w !! self = Some a →
  dom first ⊆ attrnames → dom second ⊆ attrnames →
  (configure attrnames self first;; configure attrnames self second) w
  = configure attrnames self (second ∪ first) w.
Proof.
  intros Hself H1 H2.
  erewrite bind_ok; last by apply configure_ok.
  erewrite configure_ok; [| |done].
  2:{ cbn. by rewrite lookup_insert_eq. }
  erewrite configure_ok; [|done|].
  2:{ rewrite dom_union. by apply union_least. }
  destruct w; unfold set_objects; cbn. f_equal. f_equal.
  by rewrite insert_insert_eq, (assoc_L (∪)).
Qed.

(** A directory is set, then a version. *)
Lemma configure_then_configure_witness :
  (configure GeckoDownloader.attrnames 0 {[ "directory" := VStr "/opt" ]};;
   configure GeckoDownloader.attrnames 0 {[ "version" := VStr "0.29.0" ]})
    configure_world
  = configure GeckoDownloader.attrnames 0
      ({[ "version" := VStr "0.29.0" ]} ∪ {[ "directory" := VStr "/opt" ]})
      configure_world.
Proof.
  apply (configure_then_configure GeckoDownloader.attrnames 0
           {[ "directory" := VStr "/opt" ]} {[ "version" := VStr "0.29.0" ]}
           {[ "directory" := VStr "/tmp"; "version" := VStr "latest" ]}
           configure_world).
  - reflexivity.
  - apply (bool_decide_unpack _). vm_compute. exact I.
  - apply (bool_decide_unpack _). vm_compute. exact I.
Defined.

(** ** [get_latest_version]: what it refuses, and what it returns *)

Lemma keeps_objects_getattr self name : keeps_objects (getattr self name).
Proof. unfold getattr. frame. Qed.

Lemma keeps_objects_main_url self : keeps_objects (GeckoDownloader.main_url self).
Proof.
  unfold GeckoDownloader.main_url, substitute_keywords.
  frame; apply keeps_objects_getattr.
Qed.

Lemma keeps_objects_http_get url b : keeps_objects (http_get url b).
Proof. unfold http_get. frame. Qed.

Lemma get_latest_version_body_keeps self w r w' :
  GeckoDownloader.get_latest_version_body self w = (r, w') →
  objects w' = objects w ∧ fs w' = fs w ∧ cwd w' = cwd w
  ∧ latest_version_cache w' = latest_version_cache w.
Proof.
  unfold GeckoDownloader.get_latest_version_body, GeckoDownloader.main_url,
    substitute_keywords, getattr, http_get, py_assert.
  run_m. cbn [remote set_log].
  destruct (attrs_of w self !! "version"); last by intros [= <- <-].
  cbn.
  destruct (remote w _ false) as [resp|]; last by intros [= <- <-].
  destruct (status_code resp =? 302); last by intros [= <- <-].
  destruct (headers resp !! "location"); by intros [= <- <-].
Qed.

(** A call of [get_latest_version] that raises leaves the cache, the
    attributes of the objects and the file tree as they were: a failure
    is not cached, and the next call asks again. *)
Theorem get_latest_version_failure_is_not_cached (self : nat) (w w' : World)
    (e : exn) :
  GeckoDownloader.get_latest_version self w = (Raise e, w') →
  latest_version_cache w' = latest_version_cache w
  ∧ objects w' = objects w ∧ fs w' = fs w.
Proof.
  unfold GeckoDownloader.get_latest_version. run_m.
  assert (∀ w0, (GeckoDownloader.get_latest_version_body self ≫=
                   λ v', modify (set_latest_version_cache (Some (self, v')));;
                         mret v') w0 = (Raise e, w') →
                latest_version_cache w' = latest_version_cache w0
                ∧ objects w' = objects w0 ∧ fs w' = fs w0) as Hmiss.
  { intros w0. unfold mbind, M_bind.
    destruct (GeckoDownloader.get_latest_version_body self w0) as [[v|e'] w1] eqn:E.
    - done.
    - intros [= <- <-].
      apply get_latest_version_body_keeps in E as (? & ? & ? & ?). done. }
  destruct (latest_version_cache w) as [[key v0]|] eqn:Hc.
  - destruct (decide (key = self)) as [->|Hne]; first done.
    intros H%Hmiss. by rewrite Hc in H.
  - intros H%Hmiss. by rewrite Hc in H.
Qed.

(** The release page answers 200, as it does once redirects are
    followed. *)
Lemma get_latest_version_failure_is_not_cached_witness :
  (GeckoDownloader.get_latest_version 0 (answering_latest (mkResponse 200 ∅ []))).1
  = Raise (AssertionError "Expected status code 302, got 200")
  ∧ latest_version_cache
      (GeckoDownloader.get_latest_version 0
         (answering_latest (mkResponse 200 ∅ []))).2
    = latest_version_cache (answering_latest (mkResponse 200 ∅ []))
  ∧ objects
      (GeckoDownloader.get_latest_version 0
         (answering_latest (mkResponse 200 ∅ []))).2
    = objects (answering_latest (mkResponse 200 ∅ []))
  ∧ fs (GeckoDownloader.get_latest_version 0
          (answering_latest (mkResponse 200 ∅ []))).2
    = fs (answering_latest (mkResponse 200 ∅ [])).
Proof.
  split; first by vm_compute.
  apply (get_latest_version_failure_is_not_cached 0
           (answering_latest (mkResponse 200 ∅ [])) _
           (AssertionError "Expected status code 302, got 200")).
  vm_compute. reflexivity.
Defined.

(** With nothing cached for the downloader, an answer with a status
    other than 302 makes [get_latest_version] raise [AssertionError]
    with the status in the message, and a 302 without a [Location]
    header makes it raise [KeyError]; the request is the only trace. *)
Theorem get_latest_version_refuses (self : nat) (w : World) (version : value)
    (resp : response) :
  attrs_of w self !! "version" = Some version →
  (∀ v, latest_version_cache w ≠ Some (self, v)) →
  remote w latest_url false = Some resp →
  (status_code resp ≠ 302 →
   GeckoDownloader.get_latest_version self w
   = (Raise (AssertionError ("Expected status code 302, got "
                             +:+ pretty (status_code resp))),
      set_log (log w ++ [EvHttpGet latest_url false]) w))
  ∧ (status_code resp = 302 → headers resp !! "location" = None →
     GeckoDownloader.get_latest_version self w
     = (Raise (KeyError "location"),
        set_log (log w ++ [EvHttpGet latest_url false]) w)).
Proof.
  intros Hv Hmiss Hresp.
  assert (∀ r w', GeckoDownloader.get_latest_version_body self w = (Raise r, w') →
                  GeckoDownloader.get_latest_version self w = (Raise r, w')) as Hbody.
  { intros r w' Hb. unfold GeckoDownloader.get_latest_version. run_m.
    destruct (latest_version_cache w) as [[key v0]|] eqn:Hc.
    - destruct (decide (key = self)) as [->|Hne]; first by destruct (Hmiss v0).
      by rewrite Hb.
    - by rewrite Hb. }
  split.
  - intros Hstatus. apply Hbody.
    unfold GeckoDownloader.get_latest_version_body.
    erewrite bind_ok; last by eapply main_url_fixed.
    change (PosixPath.join releases_url ["latest"]) with latest_url.
    unfold http_get, py_assert. run_m. cbn [remote set_log].
    rewrite Hresp. apply Z.eqb_neq in Hstatus. by rewrite Hstatus.
  - intros Hstatus Hloc. apply Hbody.
    unfold GeckoDownloader.get_latest_version_body.
    erewrite bind_ok; last by eapply main_url_fixed.
    change (PosixPath.join releases_url ["latest"]) with latest_url.
    unfold http_get, py_assert. run_m. cbn [remote set_log].
    rewrite Hresp, Hstatus. cbn [Z.eqb Pos.eqb]. by rewrite Hloc.
Qed.

(** A 200, and a 302 that names no location. *)
Lemma get_latest_version_refuses_witness :
  GeckoDownloader.get_latest_version 0 (answering_latest (mkResponse 200 ∅ []))
  = (Raise (AssertionError "Expected status code 302, got 200"),
     set_log [EvHttpGet latest_url false] (answering_latest (mkResponse 200 ∅ [])))
  ∧ GeckoDownloader.get_latest_version 0 (answering_latest (mkResponse 302 ∅ []))
    = (Raise (KeyError "location"),
       set_log [EvHttpGet latest_url false]
         (answering_latest (mkResponse 302 ∅ []))).
Proof.
  split.
  - refine (proj1 (get_latest_version_refuses 0
                     (answering_latest (mkResponse 200 ∅ [])) (VStr "latest")
                     (mkResponse 200 ∅ []) eq_refl _ eq_refl) _).
    + intros v. discriminate.
    + simpl. lia.
  - refine (proj2 (get_latest_version_refuses 0
                     (answering_latest (mkResponse 302 ∅ [])) (VStr "latest")
                     (mkResponse 302 ∅ []) eq_refl _ eq_refl) eq_refl eq_refl).
    intros v. discriminate.
Defined.

Lemma all_chars_lstrip_by f g (s : string) :
  all_chars f s = true → all_chars f (lstrip_by g s) = true.
Proof.
  induction s as [|a s IH]; first done.
  cbn [lstrip_by]. destruct (g a); last done.
  cbn [all_chars]. intros [_ H]%andb_prop. auto.
Qed.

Lemma lstrip_char_not_startswith (c : ascii) (s : string) :
  startswith (lstrip_char c s) (String c EmptyString) = false.
Proof.
  unfold lstrip_char. induction s as [|a s IH]; first done.
  cbn [lstrip_by]. destruct (Ascii.eqb c a) eqn:E; first done.
  cbn. rewrite Ascii.eqb_sym in E. by rewrite E.
Qed.

Lemma split_parts_no_sep (sep : ascii) (s : string) :
  Forall (λ part, all_chars (λ c, negb (Ascii.eqb c sep)) part = true)
         (split sep s).
Proof.
  induction s as [|a s IH]; first by repeat constructor.
  cbn [split]. destruct (Ascii.eqb a sep) eqn:E.
  - by constructor.
  - pose proof (split_nonempty sep s) as Hne.
    destruct (split sep s) as [|w ws]; first done.
    apply Forall_cons in IH as [Hw Hws]. constructor; last done.
    cbn. by rewrite E, Hw.
Qed.

Lemma rsplit_last_no_sep (sep : ascii) (s : string) :
  all_chars (λ c, negb (Ascii.eqb c sep)) (rsplit_last sep s) = true.
Proof.
  unfold rsplit_last.
  pose proof (split_parts_no_sep sep s) as Hall.
  pose proof (split_nonempty sep s) as Hne.
  destruct (exists_last Hne) as (l & x & E). rewrite E in *.
  rewrite List.last_last. by apply Forall_app in Hall as [_ [H _]%Forall_cons].
Qed.

(** A version that [get_latest_version] has read off a redirect holds
    no path separator and does not start with [v]. *)
Theorem get_latest_version_shape (self : nat) (w w' : World) (v : string) :
  (∀ v0, latest_version_cache w ≠ Some (self, v0)) →
  GeckoDownloader.get_latest_version self w = (Ok v, w') →
  no_slash v = true ∧ startswith v "v" = false.
Proof.
  intros Hmiss.
  unfold GeckoDownloader.get_latest_version. run_m.
  assert (∀ w1, GeckoDownloader.get_latest_version_body self w = (Ok v, w1) →
                no_slash v = true ∧ startswith v "v" = false) as Hbody.
  { intros w1. unfold GeckoDownloader.get_latest_version_body.
    intros (url & wa & _ & H)%bind_inv.
    apply bind_inv in H as (resp & wb & _ & H).
    apply bind_inv in H as ([] & wc & _ & H).
    destruct (headers resp !! "location") as [location|]; last done.
    run_m. injection H as <- _. split.
    - apply all_chars_lstrip_by, rsplit_last_no_sep.
    - apply lstrip_char_not_startswith. }
  destruct (latest_version_cache w) as [[key v0]|] eqn:Hc.
  - destruct (decide (key = self)) as [->|Hne]; first by destruct (Hmiss v0).
    destruct (GeckoDownloader.get_latest_version_body self w) as [[v'|e] w1] eqn:E;
      last done.
    intros [= -> _]. by eapply Hbody.
  - destruct (GeckoDownloader.get_latest_version_body self w) as [[v'|e] w1] eqn:E;
      last done.
    intros [= -> _]. by eapply Hbody.
Qed.

(** The tag [v0.29.0] gives the version [0.29.0]. *)
Lemma get_latest_version_shape_witness :
  first_resolution.1 = Ok "0.29.0"
  ∧ no_slash "0.29.0" = true ∧ startswith "0.29.0" "v" = false.
Proof.
  split; first by vm_compute.
  apply (get_latest_version_shape 0 two_downloaders first_resolution.2).
  - intros v. discriminate.
  - vm_compute. reflexivity.
Defined.

(** ** [GeckoDownloader.go]: the version it leaves *)

Lemma getattr_ok self name w v :
  attrs_of w self !! name = Some v → getattr self name w = (Ok v, w).
Proof. intros H. unfold getattr. run_m. by rewrite H. Qed.

Lemma keeps_objects_gecko_basename self : keeps_objects (GeckoDownloader.basename self).
Proof. unfold GeckoDownloader.basename. frame. apply keeps_objects_getattr. Qed.

Lemma keeps_objects_chrome_basename self : keeps_objects (ChromeDownloader.basename self).
Proof. unfold ChromeDownloader.basename. frame. Qed.

Lemma keeps_objects_pjoin_attr d name : keeps_objects (pjoin_attr d name).
Proof. unfold pjoin_attr. frame. Qed.

Lemma keeps_objects_isfile p : keeps_objects (isfile p).
Proof. unfold isfile. frame. Qed.

Lemma keeps_objects_py_assert c msg : keeps_objects (py_assert c msg).
Proof. unfold py_assert. frame. Qed.

Lemma keeps_objects_print line : keeps_objects (print line).
Proof. unfold print. frame. Qed.

Lemma keeps_objects_save_version_file self p :
  keeps_objects (GeckoDownloader._save_version_file self p).
Proof.
  unfold GeckoDownloader._save_version_file. frame.
  - apply keeps_objects_getattr.
  - apply keeps_objects_write_file.
Qed.

#[export] Hint Resolve keeps_objects_getattr keeps_objects_main_url
  keeps_objects_http_get keeps_objects_gecko_basename
  keeps_objects_chrome_basename keeps_objects_pjoin_attr keeps_objects_isfile
  keeps_objects_py_assert keeps_objects_print keeps_objects_save_version_file
  keeps_objects_write_file keeps_objects_remove keeps_objects_unarchive
  keeps_objects_download_file : frame.

Lemma get_latest_version_keeps_objects self w v w1 :
  GeckoDownloader.get_latest_version self w = (Ok v, w1) → objects w1 = objects w.
Proof.
  unfold GeckoDownloader.get_latest_version. run_m.
  destruct (latest_version_cache w) as [[key v0]|] eqn:Hc.
  - destruct (decide (key = self)) as [->|Hne]; first by intros [= _ <-].
    destruct (GeckoDownloader.get_latest_version_body self w) as [[v'|e] w0] eqn:E;
      last done.
    intros [= _ <-]. cbn. by apply get_latest_version_body_keeps in E as (? & _).
  - destruct (GeckoDownloader.get_latest_version_body self w) as [[v'|e] w0] eqn:E;
      last done.
    intros [= _ <-]. cbn. by apply get_latest_version_body_keeps in E as (? & _).
Qed.

Lemma bind_cases {A B} (m : M A) (f : A → M B) w r w' :
  (m ≫= f) w = (r, w') →
  (∃ a w1, m w = (Ok a, w1) ∧ f a w1 = (r, w'))
  ∨ (∃ e, m w = (Raise e, w') ∧ r = Raise e).
Proof.
  unfold mbind, M_bind. destruct (m w) as [[a|e] w1]; [eauto|].
  intros [= <- <-]. eauto.
Qed.

Lemma go_target_resolves (self : nat) (w w1 w0 : World) (v : string)
    (r : result (string * string)) :
  attrs_of w self !! "version" = Some (VStr "latest") →
  GeckoDownloader.get_latest_version self w = (Ok v, w1) →
  GeckoDownloader.go_target self w = (r, w0) →
  attrs_of w0 self !! "version" = Some (VStr v).
Proof.
  intros Hlatest Hres. unfold GeckoDownloader.go_target.
  erewrite bind_ok; last by apply getattr_ok.
  rewrite decide_True by done.
  pose (w2 := set_objects (<[self := <["version" := VStr v]> (attrs_of w1 self)]>
                             (objects w1)) w1).
  assert (attrs_of w2 self !! "version" = Some (VStr v)) as Hv2.
  { unfold attrs_of, w2. destruct w1; cbn.
    by rewrite lookup_insert_eq; cbn; rewrite lookup_insert_eq. }
  erewrite bind_ok.
  2:{ erewrite bind_ok; last exact Hres.
      erewrite bind_ok; last reflexivity.
      fold w2. erewrite bind_ok; last by apply getattr_ok.
      reflexivity. }
  intros H.
  match type of H with
  | ?m ?w = _ => assert (keeps_objects m) as Hk by (frame; eauto with frame)
  end.
  apply Hk in H. cbn [objects set_log] in H.
  unfold attrs_of in *. by rewrite H.
Qed.

(** When the version attribute is [latest] and its resolution returns,
    [GeckoDownloader.go] leaves the resolved version in the attribute,
    however it ends: a download that fails afterwards does not bring
    [latest] back. *)
Theorem go_keeps_the_resolved_version (self : nat) (w w1 w' : World)
    (v : string) (r : result unit) :
  attrs_of w self !! "version" = Some (VStr "latest") →
  GeckoDownloader.get_latest_version self w = (Ok v, w1) →
  GeckoDownloader.go self w = (r, w') →
  attrs_of w' self !! "version" = Some (VStr v).
Proof.
  intros Hlatest Hres. unfold GeckoDownloader.go, GeckoDownloader.go_with.
  intros [(target & w0 & Htarget & H)|(e & Htarget & _)]%bind_cases.
  - pose proof (go_target_resolves _ _ _ _ _ _ Hlatest Hres Htarget) as Hv.
    match type of H with
    | ?m ?w = _ => assert (keeps_objects m) as Hk by (frame; eauto with frame)
    end.
    apply Hk in H. unfold attrs_of in *. by rewrite H.
  - by eapply go_target_resolves.
Qed.

(** The latest version is resolved, and then the download server cannot
    be reached. *)
Lemma go_keeps_the_resolved_version_witness :
  (GeckoDownloader.go 0 two_downloaders).1 = Raise (ConnectionError archive_url)
  ∧ attrs_of (GeckoDownloader.go 0 two_downloaders).2 0 !! "version"
    = Some (VStr "0.29.0").
Proof.
  split; first by vm_compute.
  apply (go_keeps_the_resolved_version 0 two_downloaders first_resolution.2 _
           "0.29.0" (Raise (ConnectionError archive_url))).
  - reflexivity.
  - vm_compute. reflexivity.
  - vm_compute. reflexivity.
Defined.

(** ** [GeckoDownloader.go] with a version that is set *)

Lemma endswith_slash_cons (x : ascii) (s : string) :
  s ≠ EmptyString → endswith (String x s) "/" = endswith s "/".
Proof.
  intros Hs. cbn [endswith]. destruct s as [|y s]; first done.
  cbn. by destruct (Ascii.eqb x "/").
Qed.

Lemma endswith_slash_app (a b : string) :
  b ≠ EmptyString → endswith (a +:+ b) "/" = endswith b "/".
Proof.
  intros Hb. induction a as [|x a IH]; first done.
  rewrite str_app_cons, endswith_slash_cons; first done.
  destruct a; [done|by rewrite str_app_cons].
Qed.

Lemma join2_rel (path b : string) :
  path ≠ EmptyString → startswith b "/" = false → endswith path "/" = false →
  PosixPath.join2 path b = path +:+ "/" +:+ b.
Proof.
  intros Hp Hb He. unfold PosixPath.join2. rewrite Hb, He.
  apply String.eqb_neq in Hp. by rewrite Hp.
Qed.

(** With a version attribute other than [latest], [GeckoDownloader.go]
    asks nobody for the version and changes nothing to compute its
    target: on a platform of the suffix table, and for a version that
    does not end in a separator, the archive
    [.../releases/download/v<version>/geckodriver-v<version>-<suffix>]
    goes to the directory attribute joined with that base name; on any
    other platform [go] raises [KeyError] with nothing requested,
    written or printed. *)
Theorem go_target_of_a_set_version (self : nat) (w : World) (v d : string) :
  attrs_of w self !! "version" = Some (VStr v) → v ≠ "latest" →
  (∀ suffix,
     GeckoDownloader.WEBDRIVER_GECKO_FILE_SUFFIX_MAP !! platform_key w = Some suffix →
     attrs_of w self !! "directory" = Some (VStr d) →
     endswith v "/" = false →
     GeckoDownloader.go_target self w
     = (Ok ("https://github.com/mozilla/geckodriver/releases/download/v" +:+ v
            +:+ "/geckodriver-v" +:+ v +:+ "-" +:+ suffix,
            PosixPath.join2 d ("geckodriver-v" +:+ v +:+ "-" +:+ suffix)), w))
  ∧ (GeckoDownloader.WEBDRIVER_GECKO_FILE_SUFFIX_MAP !! platform_key w = None →
     GeckoDownloader.go self w = (Raise (KeyError (platform_key w)), w)).
Proof.
  intros Hv Hne.
  assert (VStr v ≠ VStr "latest") as Hne' by congruence.
  split.
  - intros suffix Hsuffix Hd Hend. unfold GeckoDownloader.go_target.
    erewrite bind_ok; last by apply getattr_ok.
    rewrite decide_False by done.
    erewrite bind_ok; last reflexivity.
    erewrite bind_ok; last by eapply main_url_fixed.
    erewrite bind_ok; last by apply getattr_ok.
    assert (GeckoDownloader.basename self w
            = (Ok ("geckodriver-v" +:+ v +:+ "-" +:+ suffix), w)) as Hname.
    { unfold GeckoDownloader.basename. run_m. rewrite Hsuffix.
      unfold getattr. run_m. by rewrite Hv. }
    erewrite bind_ok; last exact Hname.
    erewrite bind_ok; last by apply getattr_ok.
    erewrite bind_ok; last exact Hname.
    erewrite bind_ok; last reflexivity.
    run_m. do 2 f_equal.
    cbn [PosixPath.join fold_left py_str].
    change (PosixPath.join2 releases_url "download")
      with "https://github.com/mozilla/geckodriver/releases/download".
    rewrite (join2_rel _ ("v" +:+ v)); [|done..].
    rewrite join2_rel; [| |done|].
    + by rewrite !string_app_assoc.
    + done.
    + rewrite <-string_app_assoc.
      destruct (decide (v = EmptyString)) as [->|Hv0]; first done.
      by rewrite endswith_slash_app.
  - intros Hnone. unfold GeckoDownloader.go, GeckoDownloader.go_with.
    erewrite bind_raise; first done.
    unfold GeckoDownloader.go_target.
    erewrite bind_ok; last by apply getattr_ok.
    rewrite decide_False by done.
    erewrite bind_ok; last reflexivity.
    erewrite bind_ok; last by eapply main_url_fixed.
    erewrite bind_ok; last by apply getattr_ok.
    erewrite bind_raise; first done.
    unfold GeckoDownloader.basename. run_m. by rewrite Hnone.
Qed.

(** Version 0.29.0 on 64-bit Linux, and on 64-bit ARM. *)
Lemma go_target_of_a_set_version_witness :
  GeckoDownloader.go_target 0 (download_world [])
  = (Ok (archive_url, archive_path), download_world [])
  ∧ GeckoDownloader.go 0 (basename_world "aarch64")
    = (Raise (KeyError "Linux-aarch64"), basename_world "aarch64").
Proof.
  split.
  - refine (proj1 (go_target_of_a_set_version 0 (download_world []) "0.29.0" "/tmp"
                     eq_refl _) "linux64.tar.gz" eq_refl eq_refl eq_refl).
    discriminate.
  - refine (proj2 (go_target_of_a_set_version 0 (basename_world "aarch64") "0.29.0"
                     "/tmp" eq_refl _) eq_refl).
    discriminate.
Defined.

Lemma blind_bind {A B} P (m : M A) (f : A → M B) :
  blind_to_objects P m → keeps_objects m →
  (∀ a, blind_to_objects P (f a)) → blind_to_objects P (m ≫= f).
Proof.
  intros Hm Hk Hf o w Ho Hw. unfold mbind, M_bind. rewrite Hm by done.
  destruct (m w) as [[a|e] w1] eqn:E; cbn [fst snd]; last done.
  apply Hf; first done. by rewrite (Hk _ _ _ E).
Qed.

Lemma blind_ret {A} P (a : A) : blind_to_objects P (mret a : M A).
Proof. by intros o w _ _. Qed.

Lemma blind_for_each {A} P (xs : list A) (body : A → M unit) :
  (∀ x, blind_to_objects P (body x)) → (∀ x, keeps_objects (body x)) →
  blind_to_objects P (for_each xs body).
Proof.
  intros Hb Hk. induction xs as [|x xs IH]; cbn [for_each].
  - apply blind_ret.
  - apply blind_bind; [apply Hb|apply Hk|done].
Qed.

Ltac blind_prim :=
  intros ? ? _ _; run_m; cbn;
  repeat (case_match; cbn; try done); try done.

Lemma blind_isfile P p : blind_to_objects P (isfile p).
Proof. unfold isfile. blind_prim. Qed.

Lemma blind_print P l : blind_to_objects P (print l).
Proof. unfold print. blind_prim. Qed.

Lemma blind_py_assert P c msg : blind_to_objects P (py_assert c msg).
Proof. unfold py_assert. blind_prim. Qed.

Lemma blind_remove P p : blind_to_objects P (remove p).
Proof. unfold remove. blind_prim. Qed.

Lemma blind_write_file P p c : blind_to_objects P (write_file p c).
Proof. unfold write_file. blind_prim. Qed.

Lemma blind_http_get P url b : blind_to_objects P (http_get url b).
Proof. unfold http_get. blind_prim. Qed.

Lemma blind_run_popen P argv : blind_to_objects P (run_popen argv).
Proof. unfold run_popen. blind_prim. Qed.

Lemma blind_extract_member P target m : blind_to_objects P (extract_member target m).
Proof. unfold extract_member. blind_prim. Qed.

Lemma bind_get {A} (f : World → M A) w : (get ≫= f) w = f w w.
Proof. reflexivity. Qed.

Lemma keeps_objects_extract_member target m : keeps_objects (extract_member target m).
Proof. unfold extract_member. frame. Qed.

Lemma blind_extractall P decode bad p target :
  (∀ o w, decode (set_objects o w) = decode w) →
  blind_to_objects P (extractall decode bad p target).
Proof.
  intros Hdec o w Ho Hw. unfold extractall.
  rewrite !bind_get. cbn [fs cwd set_objects]. rewrite Hdec.
  destruct (stat (fs w) (cwd w) p) as [[bytes|]|]; [|done..].
  destruct (decode w bytes) as [members|]; last done.
  refine (blind_bind P _ _ _ _ _ o w Ho Hw);
    [by blind_prim|apply keeps_objects_emit|intros []].
  apply blind_for_each; intros m.
  - apply blind_extract_member.
  - apply keeps_objects_extract_member.
Qed.

Lemma blind_unarchive P p : blind_to_objects P (Fsutil.unarchive p).
Proof.
  unfold Fsutil.unarchive.
  destruct (_ || _); first by apply blind_extractall.
  destruct (String.eqb _ _); first by apply blind_extractall.
  by intros o w _ _.
Qed.

Lemma keeps_objects_raise_for_status resp : keeps_objects (raise_for_status resp).
Proof. unfold raise_for_status. frame. Qed.

Lemma blind_download_file P url p n : blind_to_objects P (download_file url p n).
Proof.
  unfold download_file.
  apply blind_bind; [apply blind_http_get|unfold http_get; frame|intros resp].
  apply blind_bind; [|apply keeps_objects_raise_for_status|intros []].
  - unfold raise_for_status. by blind_prim.
  - apply blind_write_file.
Qed.

Lemma blind_chrome_basename P self : blind_to_objects P (ChromeDownloader.basename self).
Proof. unfold ChromeDownloader.basename, platform_key. blind_prim. Qed.

Lemma blind_get_chrome_version P : blind_to_objects P ChromeDownloader.get_chrome_version.
Proof.
  assert (∀ s, blind_to_objects P (ChromeDownloader.version_group s)) as Hgroup.
  { intros s. unfold ChromeDownloader.version_group.
    by destruct (search_version s); intros ? ? _ _. }
  assert (∀ argv, keeps_objects (run_popen argv)) as Hkeeps.
  { intros argv. unfold run_popen. frame. }
  intros o w Ho Hw. unfold ChromeDownloader.get_chrome_version.
  rewrite !bind_get. cbn [system set_objects].
  destruct (String.eqb (system w) "linux").
  { refine (blind_bind P _ _ _ _ _ o w Ho Hw);
      [apply blind_run_popen|apply Hkeeps|intros out; apply Hgroup]. }
  destruct (String.eqb (system w) "Windows"); last done.
  refine (blind_bind P _ _ _ _ _ o w Ho Hw);
    [apply blind_run_popen|apply Hkeeps|intros out].
  destruct (List.last _ _); [apply Hgroup|by intros ? ? _ _].
Qed.

Lemma blind_get_latest_release_for_version P version :
  blind_to_objects P (ChromeDownloader.get_latest_release_for_version version).
Proof.
  intros o w Ho Hw. unfold ChromeDownloader.get_latest_release_for_version.
  rewrite (blind_http_get P _ _ o w Ho Hw).
  destruct (http_get _ true w) as [[resp|e] w1]; cbn [fst snd]; last done.
  by destruct (status_code resp =? 200).
Qed.

Lemma keeps_objects_get_chrome_version : keeps_objects ChromeDownloader.get_chrome_version.
Proof.
  unfold ChromeDownloader.get_chrome_version, ChromeDownloader.version_group, run_popen.
  frame.
Qed.

Lemma keeps_objects_get_latest_release_for_version version :
  keeps_objects (ChromeDownloader.get_latest_release_for_version version).
Proof.
  intros w r w'. unfold ChromeDownloader.get_latest_release_for_version.
  destruct (http_get _ true w) as [[resp|e] w1] eqn:E.
  - destruct (status_code resp =? 200); intros [= <- <-];
      by eapply keeps_objects_http_get.
  - intros [= <- <-]. by eapply keeps_objects_http_get.
Qed.

Lemma keeps_objects_get_chromedriver_url self version :
  keeps_objects (ChromeDownloader.get_chromedriver_url self version).
Proof. unfold ChromeDownloader.get_chromedriver_url. frame. Qed.

#[export] Hint Resolve keeps_objects_get_chrome_version
  keeps_objects_get_latest_release_for_version
  keeps_objects_get_chromedriver_url : frame.

Lemma blind_getattr_directory self d :
  blind_to_objects (same_directory self d) (getattr self "directory").
Proof.
  intros o w Ho Hw. unfold getattr. rewrite !bind_get.
  unfold attrs_of. cbn [objects set_objects].
  unfold same_directory in *. rewrite Ho, Hw. by destruct d.
Qed.

Lemma blind_chrome_go self d :
  blind_to_objects (same_directory self d) (ChromeDownloader.go self).
Proof.
  unfold ChromeDownloader.go, ChromeDownloader.go_with, ChromeDownloader.go_target.
  apply blind_bind; [|frame|intros target].
  - apply blind_bind; [apply blind_get_chrome_version|frame|intros v].
    apply blind_bind;
      [apply blind_get_latest_release_for_version
      |apply keeps_objects_get_latest_release_for_version|intros release].
    apply blind_bind; [|apply keeps_objects_get_chromedriver_url|intros url].
    { unfold ChromeDownloader.get_chromedriver_url.
      apply blind_bind; [apply blind_chrome_basename|frame|intros name].
      apply blind_ret. }
    apply blind_bind; [apply blind_getattr_directory|frame|intros directory].
    apply blind_bind; [apply blind_chrome_basename|frame|intros name].
    apply blind_bind; [|frame|intros fullpath; apply blind_ret].
    unfold pjoin_attr. by destruct directory; intros ? ? _ _.
  - apply blind_bind; [apply blind_download_file|frame|intros []].
    apply blind_bind; [apply blind_isfile|frame|intros there].
    apply blind_bind; [apply blind_py_assert|frame|intros []].
    apply blind_bind; [apply blind_unarchive|frame|intros []].
    apply blind_bind; [apply blind_remove|frame|intros []].
    apply blind_print.
Qed.

(** The version a chromedriver downloader is configured with has no
    effect on [ChromeDownloader.go]: the result, the requests, the files
    and the output are those of the downloader without it, and only the
    attribute itself differs. *)

Theorem chrome_go_ignores_the_version (self : nat) (a : gmap string value)
    (v : value) (w : World) :
  objects w !! self = Some a →
  (configure ChromeDownloader.attrnames self {[ "version" := v ]};;
   ChromeDownloader.go self) w
  = ((ChromeDownloader.go self w).1,
     set_objects (<[self := <["version" := v]> a]> (objects w))
                 (ChromeDownloader.go self w).2).
Proof.
  intros Hself.
  erewrite bind_ok.
  2:{ apply configure_ok; first done.
      rewrite dom_singleton. unfold ChromeDownloader.attrnames. set_solver. }
  rewrite <-insert_union_singleton_l.
  apply (blind_chrome_go self (a !! "directory")).
  - unfold same_directory. rewrite lookup_insert_eq. cbn.
    by rewrite lookup_insert_ne.
  - unfold same_directory. by rewrite Hself.
Qed.

(** A version is configured, and [go] asks for the same release as
    without it. *)
Lemma chrome_go_ignores_the_version_witness :
  (configure ChromeDownloader.attrnames 0 {[ "version" := VStr "90.0" ]};;
   ChromeDownloader.go 0) (chromium_world "Linux")
  = ((ChromeDownloader.go 0 (chromium_world "Linux")).1,
     set_objects {[ 0%nat := {[ "version" := VStr "90.0";
                                "directory" := VStr "/tmp" ]} ]}
       (ChromeDownloader.go 0 (chromium_world "Linux")).2).
Proof.
  exact (chrome_go_ignores_the_version 0 {[ "directory" := VStr "/tmp" ]}
           (VStr "90.0") (chromium_world "Linux") eq_refl).
Defined.

Lemma span_digits_all (s d r : string) :
  span_digits s = (d, r) → all_chars is_digit d = true.
Proof.
  revert d r. induction s as [|a s IH]; intros d r; cbn [span_digits].
  - by intros [= <- <-].
  - destruct (is_digit a) eqn:Ha; last by intros [= <- <-].
    destruct (span_digits s) as [d' r']. intros [= <- <-]. cbn.
    rewrite Ha. by eapply IH.
Qed.

Lemma match_version_shape (s m : string) :
  match_version s = Some m →
  ∃ major minor patch,
    m = major +:+ "." +:+ minor +:+ "." +:+ patch
    ∧ digits major = true ∧ digits minor = true ∧ digits patch = true.
Proof.
  unfold match_version.
  destruct (span_digits s) as [d1 r1] eqn:E1.
  destruct d1 as [|a1 d1]; first done.
  destruct r1 as [|c1 r1]; first done.
  destruct (Ascii.eqb_spec c1 ".") as [->|Hc1].
  2:{ destruct c1 as [[] [] [] [] [] [] [] []]; done. }
  destruct (span_digits r1) as [d2 r2] eqn:E2.
  destruct d2 as [|a2 d2]; first done.
  destruct r2 as [|c2 r2]; first done.
  destruct (Ascii.eqb_spec c2 ".") as [->|Hc2].
  2:{ destruct c2 as [[] [] [] [] [] [] [] []]; done. }
  destruct (span_digits r2) as [d3 r3] eqn:E3.
  destruct d3 as [|a3 d3]; first done.
  intros [= <-]. eexists _, _, _. split; first reflexivity.
  unfold digits.
  by rewrite (span_digits_all _ _ _ E1), (span_digits_all _ _ _ E2),
             (span_digits_all _ _ _ E3).
Qed.

Lemma search_version_shape (s m : string) :
  search_version s = Some m →
  ∃ major minor patch,
    m = major +:+ "." +:+ minor +:+ "." +:+ patch
    ∧ digits major = true ∧ digits minor = true ∧ digits patch = true.
Proof.
  induction s as [|a s IH]; cbn [search_version].
  - destruct (match_version EmptyString) eqn:E; last done.
    intros [= <-]. by eapply match_version_shape.
  - destruct (match_version (String a s)) eqn:E.
    + intros [= <-]. by eapply match_version_shape.
    + done.
Qed.

(** What [get_chrome_version] returns is [None], on a system named
    neither [linux] nor [Windows] and without a process being run, or
    three non-empty runs of digits with dots between them. *)
Theorem get_chrome_version_shape (w w' : World) (r : value) :
  ChromeDownloader.get_chrome_version w = (Ok r, w') →
  (r = VNone ∧ w' = w ∧ system w ≠ "linux" ∧ system w ≠ "Windows")
  ∨ (∃ major minor patch,
       r = VStr (major +:+ "." +:+ minor +:+ "." +:+ patch)
       ∧ digits major = true ∧ digits minor = true ∧ digits patch = true
       ∧ (system w = "linux" ∨ system w = "Windows")).
Proof.
  assert (∀ s w1 w2, ChromeDownloader.version_group s w1 = (Ok r, w2) →
            ∃ major minor patch,
              r = VStr (major +:+ "." +:+ minor +:+ "." +:+ patch)
              ∧ digits major = true ∧ digits minor = true ∧ digits patch = true)
    as Hgroup.
  { intros s w1 w2. unfold ChromeDownloader.version_group.
    destruct (search_version s) as [m|] eqn:E; last done.
    intros [= <- _]. apply search_version_shape in E as (? & ? & ? & -> & ?).
    eauto 10. }
  unfold ChromeDownloader.get_chrome_version. rewrite bind_get.
  destruct (String.eqb_spec (system w) "linux") as [Hl|Hl].
  { intros (out & w1 & _ & (a & b & c & -> & ? & ? & ?)%Hgroup)%bind_inv.
    right. exists a, b, c. auto 10. }
  destruct (String.eqb_spec (system w) "Windows") as [Hw|Hw].
  { intros (out & w1 & _ & H)%bind_inv. right.
    destruct (List.last _ _); last done.
    apply Hgroup in H as (a & b & c & -> & ? & ? & ?).
    exists a, b, c. auto 10. }
  intros [= <- <-]. by left.
Qed.

(** Chromium 72.0.3626.121 on a machine whose system is named
    [linux]. *)
Lemma get_chrome_version_shape_witness :
  (ChromeDownloader.get_chrome_version (chromium_world "linux")).1
  = Ok (VStr "72.0.3626")
  ∧ ((VStr "72.0.3626" = VNone
      ∧ (ChromeDownloader.get_chrome_version (chromium_world "linux")).2
        = chromium_world "linux"
      ∧ system (chromium_world "linux") ≠ "linux"
      ∧ system (chromium_world "linux") ≠ "Windows")
     ∨ (∃ major minor patch,
          VStr "72.0.3626" = VStr (major +:+ "." +:+ minor +:+ "." +:+ patch)
          ∧ digits major = true ∧ digits minor = true ∧ digits patch = true
          ∧ (system (chromium_world "linux") = "linux"
             ∨ system (chromium_world "linux") = "Windows"))).
Proof.
  split; first by vm_compute.
  apply (get_chrome_version_shape (chromium_world "linux")
           (ChromeDownloader.get_chrome_version (chromium_world "linux")).2).
  vm_compute. reflexivity.
Defined.

Lemma good_comp_inv c :
  good_comp c = true → plain_comp c = true ∧ no_slash c = true.
Proof. unfold good_comp. by intros [? ?]%andb_prop. Qed.

Lemma forallb_good k :
  forallb good_comp k = true →
  forallb plain_comp k = true ∧ Forall (λ c, no_slash c = true) k.
Proof.
  induction k as [|c k IH]; first done. cbn.
  intros [[? ?]%good_comp_inv [? ?]%IH]%andb_prop. split.
  - by apply andb_true_intro.
  - by constructor.
Qed.

Lemma split_path_of k :
  Forall (λ c, no_slash c = true) k →
  split "/" (path_of k) = EmptyString :: (if k is [] then [EmptyString] else k).
Proof.
  intros Hk. unfold path_of.
  change ("/" +:+ join "/" k) with (EmptyString +:+ String "/" (join "/" k)).
  rewrite split_app_sep. cbn [split app]. f_equal.
  destruct k as [|c k]; first done. by apply split_join.
Qed.

Lemma walk_reachable t k comps :
  forallb plain_comp comps = true →
  (∀ i, (i < length comps)%nat → t !! (k ++ take i comps) = Some Dir) →
  walk t k comps = Some (k ++ comps).
Proof.
  revert k. induction comps as [|c comps IH]; intros k Hp Hd.
  - cbn. by rewrite app_nil_r.
  - cbn in Hp. apply andb_prop in Hp as [Hc Hp]. cbn [walk].
    pose proof (Hd 0%nat) as H0. cbn in H0. rewrite app_nil_r in H0.
    rewrite H0 by lia. rewrite step_plain by done.
    rewrite IH; [by rewrite <-app_assoc|done|].
    intros i Hi. rewrite <-app_assoc. apply (Hd (S i)). cbn. lia.
Qed.

(** The path of a reachable place leads to it, from anywhere. *)
Lemma locate_path_of t d k :
  forallb good_comp k = true →
  (∀ i, (i < length k)%nat → t !! take i k = Some Dir) →
  (k = [] → t !! [] = Some Dir) →
  locate t d (path_of k) = Some k.
Proof.
  intros [Hp Hs]%forallb_good Hd Hroot. unfold locate.
  change (String.eqb (path_of k) EmptyString) with false.
  change (PosixPath.isabs (path_of k)) with true. cbn match.
  rewrite split_path_of by done.
  destruct k as [|c k].
  - cbn. by rewrite Hroot.
  - change (walk t [] (EmptyString :: c :: k))
      with (match t !! [] with Some Dir => walk t [] (c :: k) | _ => None end).
    pose proof (Hd 0%nat) as H0. cbn in H0. rewrite H0 by lia.
    by apply (walk_reachable t []).
Qed.

Lemma reachable_locate t d k :
  reachable t k → locate t d (path_of k) = Some k ∧ t !! k = Some Dir.
Proof.
  intros [Hg Hd]. split.
  - apply locate_path_of; first done.
    + intros i Hi. apply Hd. lia.
    + intros ->. by apply (Hd 0%nat).
  - rewrite <-(firstn_all k). by apply Hd.
Qed.

(** ** [find_glob]: the working directory *)

Lemma getcwd_reachable w :
  reachable (fs w) (cwd w) → getcwd w = (Ok (path_of (cwd w)), w).
Proof.
  intros [_ Hdir]%(reachable_locate _ []). unfold getcwd. run_m. by rewrite Hdir.
Qed.

Lemma chdir_to t r p w :
  fs w = t → locate t (cwd w) p = Some r → t !! r = Some Dir →
  chdir p w = (Ok tt, set_cwd r (set_log (log w ++ [EvChdir p]) w)).
Proof.
  intros <- Hr Hd. unfold chdir. run_m. cbn [fs cwd set_log].
  by rewrite Hr, Hd.
Qed.

Lemma chdir_fails p w :
  stat (fs w) (cwd w) p ≠ Some Dir →
  ∃ e, chdir p w = (Raise e, set_log (log w ++ [EvChdir p]) w)
       ∧ (e = FileNotFoundError p ∨ e = NotADirectoryError p).
Proof.
  intros Hs. unfold chdir, stat in *. run_m. cbn [fs cwd set_log].
  destruct (locate (fs w) (cwd w) p) as [r|]; last by eauto.
  cbn in Hs. destruct (fs w !! r) as [[]|]; [eauto|done|eauto].
Qed.

(** From a working directory that its path leads to,
    [list(find_glob(root_dir, pattern, filter_fn))] returns the matches
    of the pattern under [root_dir] that pass the filter, in the order
    of [glob], and leaves the file tree and the working directory as
    they were; when [root_dir] is no directory it raises
    [FileNotFoundError] or [NotADirectoryError], the working directory
    again restored. *)
Theorem find_glob_list_restores_cwd (root_dir pattern : string)
    (filter_fn : Fsutil.FilterFuncT) (w : World) :
  reachable (fs w) (cwd w) →
  let w' := set_log (log w ++ [EvChdir root_dir; EvChdir (path_of (cwd w))]) w in
  (∀ r, locate (fs w) (cwd w) root_dir = Some r → fs w !! r = Some Dir →
     Fsutil.find_glob_list root_dir pattern filter_fn w
     = (Ok (filter (λ path, filter_fn (fs w) r path = true)
                   (Glob.glob (fs w) r pattern)), w'))
  ∧ (stat (fs w) (cwd w) root_dir ≠ Some Dir →
     ∃ e, Fsutil.find_glob_list root_dir pattern filter_fn w = (Raise e, w')
          ∧ (e = FileNotFoundError root_dir ∨ e = NotADirectoryError root_dir)).
Proof.
  intros Hcwd w'. pose proof (reachable_locate _ [] _ Hcwd) as [_ Hdir].
  split.
  - intros r Hr Hd. unfold Fsutil.find_glob_list.
    erewrite bind_ok; last by apply getcwd_reachable.
    unfold try_finally.
    erewrite bind_ok; last by eapply chdir_to.
    run_m. cbn [fs cwd set_cwd set_log].
    erewrite chdir_to; [|reflexivity| |exact Hdir].
    2:{ cbn [fs cwd set_cwd set_log]. by apply reachable_locate. }
    f_equal. unfold w'. destruct w; cbn. unfold set_log, set_cwd; cbn.
    by rewrite <-app_assoc.
  - intros Hs. unfold Fsutil.find_glob_list.
    erewrite bind_ok; last by apply getcwd_reachable.
    unfold try_finally.
    destruct (chdir_fails _ _ Hs) as (e & He & Hkind).
    erewrite bind_raise; last exact He.
    erewrite chdir_to; [|reflexivity| |exact Hdir].
    2:{ cbn [fs cwd set_cwd set_log]. by apply reachable_locate. }
    exists e. split; last done. f_equal. unfold w'.
    destruct w; cbn. unfold set_log, set_cwd; cbn. by rewrite <-app_assoc.
Qed.

(** From [/rootdir], the tree of [test_find_glob] is searched under
    [project], and then under a directory that is not there. *)
Lemma find_glob_list_restores_cwd_witness :
  Fsutil.find_glob_list "project" "**/__dir?__" Fsutil._anyone
    (set_cwd ["rootdir"] (world_of_tree removal_tree))
  = (Ok ["package/__dir1__"],
     set_log [EvChdir "project"; EvChdir "/rootdir"]
       (set_cwd ["rootdir"] (world_of_tree removal_tree)))
  ∧ ∃ e, Fsutil.find_glob_list "nowhere" "**/__dir?__" Fsutil._anyone
           (set_cwd ["rootdir"] (world_of_tree removal_tree))
         = (Raise e,
            set_log [EvChdir "nowhere"; EvChdir "/rootdir"]
              (set_cwd ["rootdir"] (world_of_tree removal_tree)))
         ∧ (e = FileNotFoundError "nowhere" ∨ e = NotADirectoryError "nowhere").
Proof.
  assert (reachable (fs (set_cwd ["rootdir"] (world_of_tree removal_tree)))
            (cwd (set_cwd ["rootdir"] (world_of_tree removal_tree)))) as Hcwd.
  { split; first reflexivity.
    intros [|[|i]] Hi; [reflexivity|reflexivity|simpl in Hi; lia]. }
  split.
  - exact (proj1 (find_glob_list_restores_cwd "project" "**/__dir?__"
                    Fsutil._anyone _ Hcwd) ["rootdir"; "project"] eq_refl eq_refl).
  - apply (proj2 (find_glob_list_restores_cwd "nowhere" "**/__dir?__"
                    Fsutil._anyone _ Hcwd)).
    vm_compute. discriminate.
Defined.

(** ** [recursive_remove] and a match that is a file *)

Lemma for_each_skipped (filter_fn : Fsutil.FilterFuncT) skipped paths w :
  Forall (λ q, filter_fn (fs w) (cwd w) q = false) skipped →
  for_each (skipped ++ paths) (remove_if_accepted filter_fn) w
  = for_each paths (remove_if_accepted filter_fn) w.
Proof.
  induction skipped as [|q skipped IH]; first done.
  intros [Hq Hs]%Forall_cons. cbn [app for_each].
  erewrite bind_ok; first by apply IH.
  unfold remove_if_accepted. run_m. by rewrite Hq.
Qed.

(** When the first match that passes the filter is a regular file,
    [recursive_remove] raises [NotADirectoryError] for it: nothing is
    removed, the matches after it are not tried, and the working
    directory is restored. *)
Theorem recursive_remove_stops_at_a_file (root_dir pattern : string)
    (filter_fn : Fsutil.FilterFuncT) (w : World) (r : list string)
    (skipped rest : list string) (p content : string) :
  reachable (fs w) (cwd w) →
  locate (fs w) (cwd w) root_dir = Some r → fs w !! r = Some Dir →
  Glob.glob (fs w) r pattern = skipped ++ p :: rest →
  Forall (λ q, filter_fn (fs w) r q = false) skipped →
  filter_fn (fs w) r p = true →
  stat (fs w) r p = Some (File content) →
  Fsutil.recursive_remove root_dir pattern filter_fn w
  = (Raise (NotADirectoryError p),
     set_log (log w ++ [EvChdir root_dir; EvRmtree p;
                        EvChdir (path_of (cwd w))]) w).
Proof.
  intros Hcwd Hr Hd Hglob Hskip Hp Hfile.
  pose proof (reachable_locate _ [] _ Hcwd) as [_ Hdir].
  unfold Fsutil.recursive_remove, Fsutil.find_glob.
  erewrite bind_ok; last by apply getcwd_reachable.
  unfold try_finally.
  erewrite bind_ok; last by eapply chdir_to.
  rewrite bind_get. cbn [fs cwd set_cwd set_log]. rewrite Hglob.
  change (for_each (skipped ++ p :: rest) ?f)
    with (for_each (skipped ++ p :: rest) (remove_if_accepted filter_fn)).
  rewrite for_each_skipped by done. cbn [for_each].
  assert (∀ w1, fs w1 = fs w → cwd w1 = r →
            rmtree p w1
            = (Raise (NotADirectoryError p), set_log (log w1 ++ [EvRmtree p]) w1))
    as Hrm.
  { intros w1 Hfs1 Hcwd1. unfold rmtree, stat in *. run_m.
    cbn [fs cwd set_cwd set_log]. rewrite Hfs1, Hcwd1.
    destruct (locate (fs w) r p) as [q|]; last done. cbn in Hfile.
    by rewrite Hfile. }
  erewrite bind_raise.
  2:{ unfold remove_if_accepted. rewrite bind_get.
      cbn [fs cwd set_cwd set_log]. rewrite Hp. by apply Hrm. }
  erewrite chdir_to; [|reflexivity| |exact Hdir].
  2:{ cbn [fs cwd set_cwd set_log]. by apply reachable_locate. }
  f_equal. destruct w; cbn. unfold set_log, set_cwd; cbn.
  by rewrite <-!app_assoc.
Qed.

(** The default filter lets the text file through, and [rmtree]
    refuses it. *)
Lemma recursive_remove_stops_at_a_file_witness :
  Fsutil.recursive_remove "/rootdir" "*.txt" Fsutil._anyone
    (world_of_tree notes_tree)
  = (Raise (NotADirectoryError "notes.txt"),
     set_log [EvChdir "/rootdir"; EvRmtree "notes.txt"; EvChdir "/"]
       (world_of_tree notes_tree)).
Proof.
  apply (recursive_remove_stops_at_a_file "/rootdir" "*.txt" Fsutil._anyone
           (world_of_tree notes_tree) ["rootdir"] [] [] "notes.txt" "to do").
  - split; first reflexivity. intros [|i] Hi; [reflexivity|simpl in Hi; lia].
  - reflexivity.
  - reflexivity.
  - vm_compute. reflexivity.
  - constructor.
  - reflexivity.
  - vm_compute. reflexivity.
Defined.

Lemma walk_up_snoc k c : walk_up (k ++ [c]) = (k ++ [c]) :: walk_up k.
Proof.
  unfold walk_up. rewrite reverse_snoc. cbn [walk_up_from].
  by rewrite reverse_cons, reverse_involutive.
Qed.

Lemma norm_comps_plain n acc k :
  forallb plain_comp k = true → PosixPath.norm_comps n acc k = acc ++ k.
Proof.
  revert acc. induction k as [|c k IH]; intros acc; first by rewrite app_nil_r.
  cbn. intros [Hc Hk]%andb_prop. unfold plain_comp in Hc.
  apply negb_true_iff, orb_false_elim in Hc as [Hc Hdd].
  rewrite Hc, Hdd. cbn. rewrite IH by done. by rewrite <-app_assoc.
Qed.

Lemma join_good_not_abs k :
  forallb good_comp k = true → startswith (join "/" k) "/" = false.
Proof.
  destruct k as [|c k]; first done. cbn [forallb].
  intros [[Hp Hs]%good_comp_inv _]%andb_prop.
  destruct c as [|a c]; first done.
  destruct k as [|c' k]; [by apply no_slash_startswith|].
  rewrite join_cons, str_app_cons.
  by apply (no_slash_startswith (String a c)).
Qed.

Lemma normpath_path_of k :
  forallb good_comp k = true → PosixPath.normpath (path_of k) = path_of k.
Proof.
  intros Hg. pose proof (forallb_good _ Hg) as [Hp Hs].
  unfold PosixPath.normpath.
  change (String.eqb (path_of k) EmptyString) with false. cbn match.
  change (startswith (path_of k) "/") with true. cbn match.
  assert (startswith (path_of k) "//" = false) as ->.
  { unfold path_of. change (startswith ("/" +:+ ?x) "//") with (startswith x "/").
    by apply join_good_not_abs. }
  cbn [andb]. unfold PosixPath.sep. rewrite split_path_of by done.
  destruct k as [|c k]; first done.
  change (PosixPath.norm_comps 1 [] (EmptyString :: c :: k))
    with (PosixPath.norm_comps 1 [] (c :: k)).
  rewrite norm_comps_plain by done. done.
Qed.

Lemma child_name_app d n : child_name d (d ++ [n]) = Some n.
Proof. induction d as [|x d IH]; [done|]. cbn. by rewrite String.eqb_refl. Qed.

Lemma elem_of_children t k n : n ∈ children t k ↔ is_Some (t !! (k ++ [n])).
Proof.
  unfold children. rewrite list_elem_of_omap. split.
  - intros ([k' v] & Hin%elem_of_map_to_list & Hn). cbn in Hn.
    apply child_name_inv in Hn as ->. eauto.
  - intros [v Hv]. exists (k ++ [n], v). split.
    + by apply elem_of_map_to_list.
    + apply child_name_app.
Qed.

Lemma path_of_not_endswith k :
  k ≠ [] → forallb good_comp k = true → endswith (path_of k) "/" = false.
Proof.
  intros Hk [Hp Hs]%forallb_good.
  assert (plain (join "/" k) = true) as Hplain.
  { unfold plain. by rewrite split_join. }
  unfold path_of. change ("/" +:+ ?x) with (String "/" x).
  rewrite endswith_slash_cons; first by apply plain_not_endswith.
  by apply plain_nonempty.
Qed.

Lemma join2_path_of k n :
  forallb good_comp k = true → good_comp n = true →
  PosixPath.join2 (path_of k) n = path_of (k ++ [n]).
Proof.
  intros Hk [Hp Hs]%good_comp_inv. unfold PosixPath.join2.
  rewrite no_slash_startswith by done.
  change (String.eqb (path_of k) EmptyString) with false. cbn [orb].
  destruct k as [|c k]; first done.
  rewrite path_of_not_endswith by done.
  unfold path_of. change ((c :: k) ++ [n]) with ((c :: k) ++ [n]).
  by rewrite join_snoc, !string_app_assoc.
Qed.

Lemma stat_child t d k n :
  reachable t k → good_comp n = true →
  stat t d (PosixPath.join2 (path_of k) n) = t !! (k ++ [n]).
Proof.
  intros [Hg Hd] Hn. rewrite join2_path_of by done. unfold stat.
  rewrite locate_path_of; first done.
  - rewrite forallb_app, Hg. cbn. by rewrite Hn.
  - intros i Hi. rewrite length_app in Hi. cbn in Hi.
    rewrite take_app_le by lia. apply Hd. lia.
  - by destruct k.
Qed.

Lemma rsplit1_head_path_of k c :
  forallb good_comp (k ++ [c]) = true →
  rsplit1_head "/" (path_of (k ++ [c]))
  = if k is [] then EmptyString else path_of k.
Proof.
  intros [_ Hs]%forallb_good. unfold rsplit1_head.
  rewrite split_path_of by done.
  destruct k as [|x k]; first done.
  cbn [app].
  change (EmptyString :: x :: k ++ [c]) with ((EmptyString :: x :: k) ++ [c]).
  by rewrite List.removelast_last.
Qed.

Lemma reachable_snoc t k c : reachable t (k ++ [c]) → reachable t k.
Proof.
  intros [Hg Hd]. rewrite forallb_app in Hg. apply andb_prop in Hg as [Hg _].
  split; first done. intros i Hi.
  rewrite <-(take_app_le k [c]) by done. apply Hd. rewrite length_app. lia.
Qed.

Lemma path_of_length_snoc k c :
  c ≠ EmptyString →
  (String.length (path_of k) < String.length (path_of (k ++ [c])))%nat.
Proof.
  intros Hc. unfold path_of. destruct k as [|x k].
  - destruct c; [done|]. rewrite !string_length_app. cbn. lia.
  - rewrite join_snoc. change ("/" +:+ ?a +:+ ?b) with ("/" +:+ (a +:+ b)).
    rewrite <-string_app_assoc, (string_length_app _ (String "/" c)). cbn. lia.
Qed.

(** The loop, from a directory that is there. *)
Lemma find_repo_root_loop_nearest (start_dir : string) (k : list string) :
  ∀ (n : nat) (w : World),
    k ≠ [] → reachable (fs w) k →
    (String.length (path_of k) < n)%nat →
    (Fsutil.find_repo_root_loop n start_dir (path_of k) w).1
    = match nearest_marker (fs w) k with
      | Some d => Ok (path_of d)
      | None => Raise (RuntimeError ("Cannot find git repo within "
                                     +:+ py_repr start_dir))
      end.
Proof.
  induction k as [|c k IH] using rev_ind; first done.
  intros n w _ Hreach Hn. destruct n as [|n]; first lia.
  cbn [Fsutil.find_repo_root_loop].
  change (String.eqb (path_of (k ++ [c])) EmptyString) with false. cbn match.
  pose proof (reachable_locate _ (cwd w) _ Hreach) as [Hloc Hdir].
  unfold listdir. run_m. cbn [fs cwd set_log]. rewrite Hloc, Hdir.
  cbn [fs cwd set_log]. unfold PosixPath.sep, nearest_marker. rewrite walk_up_snoc. cbn [List.find].
  assert (bool_decide
            (".git" ∈ filter (λ path, isdir_at (fs w) (cwd w)
                               (PosixPath.join2 (path_of (k ++ [c])) path) = true)
                        (children (fs w) (k ++ [c])))
          = bool_decide (fs w !! ((k ++ [c]) ++ [".git"]) = Some Dir)) as ->.
  { apply bool_decide_ext. rewrite list_elem_of_filter, elem_of_children.
    unfold isdir_at. rewrite bool_decide_eq_true, stat_child by done.
    split; [tauto|]. intros H. rewrite H. eauto. }
  destruct (bool_decide (fs w !! ((k ++ [c]) ++ [".git"]) = Some Dir)); first done.
  destruct Hreach as [Hg Hd]. rewrite rsplit1_head_path_of by done.
  assert (c ≠ EmptyString) as Hc.
  { rewrite forallb_app in Hg. apply andb_prop in Hg as [_ Hg]. by intros ->. }
  pose proof (path_of_length_snoc k c Hc) as Hlen.
  destruct k as [|x k].
  - cbn match. change (String.eqb EmptyString (path_of ([] ++ [c]))) with false.
    cbn match. destruct n as [|n]; last done.
    exfalso. revert Hn. unfold path_of. rewrite string_length_app.
    destruct c; [done|cbn; lia].
  - assert (String.eqb (path_of (x :: k)) (path_of ((x :: k) ++ [c])) = false) as ->.
    { apply String.eqb_neq. intros E. apply (f_equal String.length) in E. lia. }
    rewrite IH; [done|done| |lia].
    cbn [fs set_log]. by apply (reachable_snoc _ _ c).
Qed.

Lemma find_repo_root_body_path_of k w :
  forallb good_comp k = true →
  Fsutil.find_repo_root_body (Some (path_of k)) w
  = Fsutil.find_repo_root_loop (S (String.length (path_of k)))
      (path_of k) (path_of k) w.
Proof.
  intros Hg. unfold Fsutil.find_repo_root_body.
  change (path_of k) with (String "/" (join "/" k)) at 1.
  cbn match. erewrite bind_ok; last reflexivity.
  change (String "/" (join "/" k)) with (path_of k).
  rewrite normpath_path_of by done.
  unfold Fsutil.abspath. change (PosixPath.isabs (path_of k)) with true.
  cbn match. erewrite bind_ok; last reflexivity.
  by rewrite normpath_path_of.
Qed.

Lemma find_repo_root_miss start_dir w :
  (∀ v, repo_root_cache w ≠ Some (start_dir, v)) →
  (Fsutil.find_repo_root start_dir w).1 = (Fsutil.find_repo_root_body start_dir w).1
  ∧ ∀ e w', Fsutil.find_repo_root_body start_dir w = (Raise e, w') →
            Fsutil.find_repo_root start_dir w = (Raise e, w').
Proof.
  intros Hmiss. unfold Fsutil.find_repo_root. rewrite bind_get.
  destruct (repo_root_cache w) as [[arg v]|] eqn:Hc.
  - destruct (decide (arg = start_dir)) as [->|Hne]; first by destruct (Hmiss v).
    unfold mbind, M_bind.
    destruct (Fsutil.find_repo_root_body start_dir w) as [[v'|e] w1]; first done.
    split; first done. by intros ? ? [= <- <-].
  - unfold mbind, M_bind.
    destruct (Fsutil.find_repo_root_body start_dir w) as [[v'|e] w1]; first done.
    split; first done. by intros ? ? [= <- <-].
Qed.

(** For a start directory that is there, given by its normal absolute
    path, and with nothing cached for it, [find_repo_root] returns the
    nearest of the start directory and the directories above it, the
    root left out, that holds a directory [.git]; it raises
    [RuntimeError] with the start path in the message when none of them
    does. *)
Theorem find_repo_root_finds_the_nearest (k : list string) (w : World) :
  k ≠ [] → reachable (fs w) k →
  (∀ v, repo_root_cache w ≠ Some (Some (path_of k), v)) →
  (Fsutil.find_repo_root (Some (path_of k)) w).1
  = match nearest_marker (fs w) k with
    | Some d => Ok (path_of d)
    | None => Raise (RuntimeError ("Cannot find git repo within "
                                   +:+ py_repr (path_of k)))
    end.
Proof.
  intros Hk Hreach Hmiss.
  rewrite (proj1 (find_repo_root_miss _ _ Hmiss)).
  rewrite find_repo_root_body_path_of by apply Hreach.
  apply find_repo_root_loop_nearest; [done|done|lia].
Qed.

(** The walk of [test_find_repo_root_success]. *)
Lemma find_repo_root_finds_the_nearest_witness :
  (Fsutil.find_repo_root (Some "/rootdir/project/package/sub_package")
     git_project_world).1
  = Ok "/rootdir/project".
Proof.
  refine (find_repo_root_finds_the_nearest
            ["rootdir"; "project"; "package"; "sub_package"] git_project_world
            _ _ _).
  - discriminate.
  - split; first reflexivity.
    intros [|[|[|[|[|i]]]]] Hi;
      [reflexivity|reflexivity|reflexivity|reflexivity|reflexivity|simpl in Hi; lia].
  - intros v. discriminate.
Defined.

(** When the start path names nothing, or a regular file, in a
    directory that is there, [find_repo_root] raises the error of
    [os.listdir], [FileNotFoundError] or [NotADirectoryError], not
    [RuntimeError]: no directory above is listed, and nothing is
    cached. *)
Theorem find_repo_root_of_a_missing_directory (k : list string) (c : string)
    (w : World) :
  reachable (fs w) k → good_comp c = true →
  fs w !! (k ++ [c]) ≠ Some Dir →
  (∀ v, repo_root_cache w ≠ Some (Some (path_of (k ++ [c])), v)) →
  Fsutil.find_repo_root (Some (path_of (k ++ [c]))) w
  = (Raise (match fs w !! (k ++ [c]) with
            | Some _ => NotADirectoryError (path_of (k ++ [c]))
            | None => FileNotFoundError (path_of (k ++ [c]))
            end),
     set_log (log w ++ [EvListdir (path_of (k ++ [c]))]) w).
Proof.
  intros [Hg Hd] Hc Hnd Hmiss.
  apply (proj2 (find_repo_root_miss _ _ Hmiss)).
  assert (forallb good_comp (k ++ [c]) = true) as Hg'.
  { rewrite forallb_app, Hg. cbn. by rewrite Hc. }
  rewrite find_repo_root_body_path_of by done.
  cbn [Fsutil.find_repo_root_loop].
  change (String.eqb (path_of (k ++ [c])) EmptyString) with false. cbn match.
  erewrite bind_raise; first done.
  unfold listdir. run_m. cbn [fs cwd set_log].
  rewrite locate_path_of; [|done| |by destruct k].
  - destruct (fs w !! (k ++ [c])) as [[]|]; done.
  - intros i Hi. rewrite length_app in Hi. cbn in Hi.
    rewrite take_app_le by lia. apply Hd. lia.
Qed.

(** A start directory that is not there. *)
Lemma find_repo_root_of_a_missing_directory_witness :
  Fsutil.find_repo_root (Some "/rootdir/nowhere") (world_of_tree project_tree)
  = (Raise (FileNotFoundError "/rootdir/nowhere"),
     set_log [EvListdir "/rootdir/nowhere"] (world_of_tree project_tree)).
Proof.
  refine (find_repo_root_of_a_missing_directory ["rootdir"] "nowhere"
            (world_of_tree project_tree) _ eq_refl _ _).
  - split; first reflexivity.
    intros [|[|i]] Hi; [reflexivity|reflexivity|simpl in Hi; lia].
  - vm_compute. discriminate.
  - intros v. discriminate.
Defined.

(** ** What [**/name] matches *)

Lemma iglob_unfold t d fuel pathname dironly :
  Glob.iglob_ t d (S fuel) pathname dironly
  = let dirname := PosixPath.dirname pathname in
    let basename := PosixPath.basename pathname in
    if negb (Glob.has_magic pathname) then
      if negb (String.eqb basename EmptyString) then
        if lexists_at t d pathname then [pathname] else []
      else
        if isdir_at t d dirname then [pathname] else []
    else if String.eqb dirname EmptyString then
      if Glob.isrecursive basename then Glob.glob2 t d EmptyString basename dironly
      else Glob.glob1 t d EmptyString basename dironly
    else
      let dirs :=
        if negb (String.eqb dirname pathname) && Glob.has_magic dirname then
          Glob.iglob_ t d fuel dirname true
        else [dirname] in
      let glob_in_dir :=
        if Glob.has_magic basename then
          if Glob.isrecursive basename then Glob.glob2 t d else Glob.glob1 t d
        else Glob.glob0 t d in
      flat_map (λ dirname,
                  PosixPath.join2 dirname <$> glob_in_dir dirname basename dironly)
               dirs.
Proof. reflexivity. Qed.

Lemma dirname_starstar name :
  no_slash name = true → PosixPath.dirname ("**/" +:+ name) = "**".
Proof.
  intros Hn. unfold PosixPath.dirname.
  change ("**/" +:+ name) with ("**" +:+ String "/" name).
  rewrite head_part_app by done. reflexivity.
Qed.

Lemma basename_starstar name :
  no_slash name = true → PosixPath.basename ("**/" +:+ name) = name.
Proof.
  intros Hn. unfold PosixPath.basename, rsplit_last, PosixPath.sep.
  change ("**/" +:+ name) with ("**" +:+ String "/" name).
  by rewrite split_app_sep, (no_slash_split name), List.last_last.
Qed.

Lemma iglob_starstar t d name fuel :
  good_comp name = true → Glob.has_magic name = false →
  Glob.iglob_ t d (S (S fuel)) ("**/" +:+ name) false
  = flat_map (λ dirname, PosixPath.join2 dirname <$> Glob.glob0 t d dirname name false)
             (EmptyString :: Glob.rlistdir t d (size t) EmptyString true).
Proof.
  intros [Hp Hs]%good_comp_inv Hm.
  rewrite iglob_unfold. cbv zeta.
  rewrite dirname_starstar, basename_starstar by done.
  change (Glob.has_magic ("**/" +:+ name)) with true. rewrite Hm.
  cbn [negb]. change (String.eqb "**" EmptyString) with false. cbn match.
  assert (String.eqb "**" ("**/" +:+ name) = false) as -> by done.
  change (Glob.has_magic "**") with true. cbn [negb andb].
  by rewrite iglob_unfold.
Qed.

Lemma join2_plain_eq x y :
  plain x = true → plain y = true →
  PosixPath.join2 x y = x +:+ String "/" y.
Proof.
  intros Hx Hy. unfold PosixPath.join2.
  pose proof (plain_not_abs y Hy) as Habs. unfold PosixPath.isabs in Habs.
  rewrite Habs.
  pose proof (plain_nonempty _ Hx) as Hne%String.eqb_neq. rewrite Hne.
  by rewrite plain_not_endswith.
Qed.

(** The paths [**] descends into are made of names that are not hidden. *)
Lemma rlistdir_not_hidden t d depth dirname dironly :
  tree_wf t →
  Forall (λ p, plain p = true
               ∧ Forall (λ c, Glob.ishidden c = false) (split "/" p))
         (Glob.rlistdir t d depth dirname dironly).
Proof.
  intros Hwf. revert dirname. induction depth as [|depth IH]; intros dirname.
  - constructor.
  - cbn [Glob.rlistdir]. apply Forall_forall. intros p.
    rewrite list_elem_of_In, in_flat_map.
    intros (x & Hx%list_elem_of_In & Hp%list_elem_of_In).
    apply glistdir_good in Hx; last done.
    pose proof (good_comp_plain _ Hx) as Hxp.
    apply good_comp_inv in Hx as [_ Hxs].
    destruct (Glob.ishidden x) eqn:Hh; first by apply elem_of_nil in Hp.
    apply elem_of_cons in Hp as [->|Hp].
    { split; first done. rewrite no_slash_split by done. by repeat constructor. }
    apply list_elem_of_fmap in Hp as (y & -> & Hy).
    eapply Forall_forall in Hy; last apply IH. destruct Hy as [Hyp Hy].
    split; first by apply gjoin_plain.
    unfold Glob.gjoin.
    pose proof (plain_nonempty _ Hxp) as Hxe%String.eqb_neq.
    pose proof (plain_nonempty _ Hyp) as Hye%String.eqb_neq.
    rewrite Hxe, Hye. cbn [orb]. rewrite join2_plain_eq by done.
    rewrite split_app_sep, (no_slash_split x) by done.
    by constructor.
Qed.

Lemma glob_starstar_shape t d name p :
  tree_wf t → good_comp name = true → Glob.has_magic name = false →
  p ∈ Glob.glob t d ("**/" +:+ name) →
  plain p = true
  ∧ ∃ comps, split "/" p = comps ++ [name]
             ∧ Forall (λ c, Glob.ishidden c = false) comps.
Proof.
  intros Hwf Hname Hm Hin.
  assert (p ∈ Glob.iglob_ t d (String.length ("**/" +:+ name)) ("**/" +:+ name) false)
    as Hit.
  { unfold Glob.glob in Hin.
    destruct (String.eqb _ _ || _); last done.
    destruct (Glob.iglob_ _ _ _ _ _) as [|[|a s] rest]; [done| |done].
    by apply elem_of_cons; right. }
  clear Hin. rewrite string_length_app in Hit.
  change (String.length "**/") with 3%nat in Hit. cbn [Nat.add] in Hit.
  rewrite iglob_starstar in Hit by done.
  apply list_elem_of_In, in_flat_map in Hit
    as (dn & Hdn%list_elem_of_In & Hp%list_elem_of_In).
  apply list_elem_of_fmap in Hp as (b & -> & Hb).
  unfold Glob.glob0 in Hb.
  pose proof (good_comp_plain _ Hname) as Hnp.
  pose proof (plain_nonempty _ Hnp) as Hne%String.eqb_neq.
  rewrite Hne in Hb. cbn [negb] in Hb.
  destruct (lexists_at _ _ _); last by apply elem_of_nil in Hb.
  apply list_elem_of_singleton in Hb as ->.
  apply good_comp_inv in Hname as [_ Hns].
  apply elem_of_cons in Hdn as [->|Hdn].
  - unfold PosixPath.join2. rewrite no_slash_startswith by done. cbn.
    split; first done. exists []. split; [by apply no_slash_split|constructor].
  - eapply Forall_forall in Hdn; last by apply rlistdir_not_hidden.
    destruct Hdn as [Hdp Hd]. rewrite join2_plain_eq by done. split.
    + by apply plain_app_sep.
    + exists (split "/" dn). split; last done.
      by rewrite split_app_sep, (no_slash_split name).
Qed.

(** ** [recursive_remove], as the tasks of [dodo.py] call it *)

Lemma recursive_remove_inv (root_dir pattern : string)
    (filter_fn : Fsutil.FilterFuncT) (w w' : World) (r : list string) :
  locate (fs w) (cwd w) root_dir = Some r →
  Forall (λ p, plain p = true) (Glob.glob (fs w) r pattern) →
  filter_stable filter_fn (fs w) r →
  Fsutil.recursive_remove root_dir pattern filter_fn w = (Ok tt, w') →
  removal_inv filter_fn (fs w) r (Glob.glob (fs w) r pattern) (fs w').
Proof.
  intros Hroot Hplain Hstable.
  unfold Fsutil.recursive_remove, Fsutil.find_glob.
  intros (old_cwd & w0 & ->%getcwd_ok & Hrun)%bind_inv.
  apply try_finally_ok in Hrun as (wb & Hbody & Hback).
  apply bind_inv in Hbody as ([] & wc & Hcd & Hloop).
  apply chdir_ok in Hcd as (r' & Hr' & Hdir & Hfs & Hcwd).
  assert (r' = r) as -> by congruence.
  apply chdir_ok in Hback as (_ & _ & _ & Hfs' & _).
  run_m. rewrite Hfs, Hcwd in Hloop.
  change (for_each (Glob.glob (fs w) r pattern) (remove_if_accepted filter_fn) wc
          = (Ok tt, wb)) in Hloop.
  apply (for_each_remove_inv filter_fn (fs w) r Hstable _ []) in Hloop
    as [_ Hinv]; [|done..|].
  2:{ intros k. rewrite Hfs. rewrite decide_False; first done.
      unfold covered. intros H. by apply Exists_nil in H. }
  rewrite app_nil_l in Hinv. by rewrite Hfs'.
Qed.

(** ** [actions_of] *)

Lemma bind_bind {A B C} (m : M A) (f : A → M B) (g : B → M C) w :
  ((m ≫= f) ≫= g) w = (m ≫= λ a, f a ≫= g) w.
Proof. unfold mbind, M_bind. by destruct (m w) as [[a|e] w1]. Qed.

Lemma bind_ext {A B} (m : M A) (f g : A → M B) w :
  (∀ a w1, f a w1 = g a w1) → (m ≫= f) w = (m ≫= g) w.
Proof. intros H. unfold mbind, M_bind. by destruct (m w) as [[a|e] w1]. Qed.

Lemma bind_ret_l {A B} (a : A) (f : A → M B) w : (mret a ≫= f) w = f a w.
Proof. reflexivity. Qed.

Lemma bind_raise_l {A B} (e : exn) (f : A → M B) w :
  (raise e ≫= f) w = (Raise e, w).
Proof. reflexivity. Qed.

Lemma actions_of_loop_app (fs gs : list TaskFuncT) (result : list ActionT) w :
  actions_of_loop result (fs ++ gs) w
  = (l ← actions_of_loop result fs; actions_of_loop l gs) w.
Proof.
  revert result w. induction fs as [|f fs IH]; intros result w; first done.
  cbn [app actions_of_loop]. rewrite bind_bind. apply bind_ext. intros d w1.
  destruct (d !! "actions") as [v|]; last done.
  rewrite bind_bind. apply bind_ext. intros result' w2. apply IH.
Qed.

Lemma actions_of_loop_prefix (fs : list TaskFuncT) (result : list ActionT) w :
  actions_of_loop result fs w
  = (l ← actions_of_loop [] fs; mret (result ++ l)) w.
Proof.
  revert result w. induction fs as [|f fs IH]; intros result w.
  - cbn [actions_of_loop]. by rewrite bind_ret_l, app_nil_r.
  - cbn [actions_of_loop]. rewrite bind_bind. apply bind_ext. intros d w1.
    destruct (d !! "actions") as [v|]; last done.
    assert (∀ l, (l' ← actions_of_loop ([] ++ l) fs; mret (result ++ l')) w1
                 = actions_of_loop (result ++ l) fs w1) as Hl.
    { intros l. rewrite (IH (result ++ l)). change ([] ++ l) with l.
      unfold mbind, M_bind. rewrite (IH l). unfold mbind, M_bind.
      destruct (actions_of_loop [] fs w1) as [[l0|e] w2]; last done.
      cbn. by rewrite app_assoc. }
    destruct v as [n|s|l]; cbn [extend]; [done|..];
      by rewrite bind_bind, !bind_ret_l, Hl.
Qed.

(** [actions_of] stacks.  The actions of a list of task functions are
    those of its first part followed by those of the rest; and a task
    whose actions were made by [actions_of], as [task_clean_all] and
    [task_init] are, stacks like the tasks it was made from. *)
Theorem actions_of_stacks (fs gs : list TaskFuncT) (d : gmap string task_value)
    (w : World) :
  actions_of (fs ++ gs) w
  = (l1 ← actions_of fs; l2 ← actions_of gs; mret (l1 ++ l2)) w
  ∧ actions_of ((l ← actions_of fs; mret (<["actions" := TList l]> d)) :: gs) w
    = actions_of (fs ++ gs) w.
Proof.
  assert (actions_of (fs ++ gs) w
          = (l1 ← actions_of fs; l2 ← actions_of gs; mret (l1 ++ l2)) w) as Happ.
  { unfold actions_of. rewrite actions_of_loop_app. apply bind_ext.
    intros l1 w1. apply actions_of_loop_prefix. }
  split; first done. rewrite Happ.
  unfold actions_of. cbn [actions_of_loop]. rewrite bind_bind. apply bind_ext.
  intros l1 w1. rewrite bind_ret_l, lookup_insert_eq. cbn [extend].
  rewrite bind_ret_l. apply actions_of_loop_prefix.
Qed.

(** ** The clean-up tasks *)

Lemma isdir_alone_stable t0 r : filter_stable Dodo.isdir_filter t0 r.
Proof.
  intros t p Hsub [n Hn]. unfold Dodo.isdir_filter, isdir_at.
  by rewrite Hn, (stat_submap _ _ _ _ _ Hsub Hn).
Qed.

Lemma recursive_remove_starstar (name made_in : string) :
  good_comp name = true → Glob.has_magic name = false →
  removes_only_under name made_in
    (Fsutil.recursive_remove made_in ("**/" +:+ name) Dodo.isdir_filter).
Proof.
  intros Hname Hm w w' r Hwf Hloc Hrun k.
  assert (Forall (λ p, plain p = true) (Glob.glob (fs w) r ("**/" +:+ name)))
    as Hplain.
  { apply Forall_forall. intros p Hp.
    by apply glob_starstar_shape in Hp as [? _]. }
  pose proof (recursive_remove_inv _ _ _ _ _ _ Hloc Hplain
                (isdir_alone_stable _ _) Hrun) as Hinv.
  rewrite (Hinv k).
  destruct (decide (covered Dodo.isdir_filter (fs w) r
                      (Glob.glob (fs w) r ("**/" +:+ name)) k)) as [Hc|Hc].
  - split; last by intros [? ?]. intros _ _.
    unfold covered in Hc. apply Exists_exists in Hc as (p & Hp & Hq & Hpre).
    apply glob_starstar_shape in Hp as [Hpp (comps & Hsplit & Hhidden)]; try done.
    exists comps. rewrite Hsplit in Hpre. split; [done|]. split; [|done].
    unfold qualifies, Dodo.isdir_filter in Hq. rewrite andb_diag in Hq.
    unfold isdir_at in Hq. apply bool_decide_eq_true in Hq. unfold stat in Hq.
    destruct (locate (fs w) r p) as [q|] eqn:Hq'; last done.
    apply plain_locate in Hq' as ->; last done. by rewrite Hsplit in Hq.
  - split; last done. intros [n Hn] Hnone. congruence.
Qed.

(** [task_clean_pycache] and [task_clean_pytyest_cache] touch nothing
    and return one action each.  Wherever it is run, the action removes
    nothing but the entries at or beneath a directory [__pycache__]
    ([.pytest_cache]) that lies under the directory the task was made
    in and is reached from there through directories whose names do not
    start with a dot. *)
Theorem clean_tasks_remove_only_caches (w w1 : World)
    (d : gmap string task_value) :
  (Dodo.task_clean_pycache w = (Ok d, w1) →
   w1 = w
   ∧ ∃ run, d !! "actions" = Some (TList [Call run])
            ∧ removes_only_under "__pycache__" (path_of (cwd w)) run)
  ∧ (Dodo.task_clean_pytyest_cache w = (Ok d, w1) →
     w1 = w
     ∧ ∃ run, d !! "actions" = Some (TList [Call run])
              ∧ removes_only_under ".pytest_cache" (path_of (cwd w)) run).
Proof.
  split.
  - unfold Dodo.task_clean_pycache.
    intros (cwd_now & w0 & Hcwd & H)%bind_inv.
    pose proof (getcwd_ok _ _ _ Hcwd) as ->.
    unfold getcwd in Hcwd. run_m.
    destruct (fs w !! cwd w) as [[]|]; try done.
    injection Hcwd as <-. injection H as <- <-. split; first done.
    eexists. split; first done.
    by apply (recursive_remove_starstar "__pycache__").
  - unfold Dodo.task_clean_pytyest_cache.
    intros (cwd_now & w0 & Hcwd & H)%bind_inv.
    pose proof (getcwd_ok _ _ _ Hcwd) as ->.
    unfold getcwd in Hcwd. run_m.
    destruct (fs w !! cwd w) as [[]|]; try done.
    injection Hcwd as <-. injection H as <- <-. split; first done.
    eexists. split; first done.
    by apply (recursive_remove_starstar ".pytest_cache").
Qed.

(** The task is made in [/work] and run there: the caches at the top
    and in the package go, the one in the hidden directory stays. *)
Lemma clean_tasks_remove_only_caches_witness :
  (∃ run,
     ({[ "basename" := TStr "clean-pycache";
         "actions" :=
           TList [Call (Fsutil.recursive_remove "/work" "**/__pycache__"
                          Dodo.isdir_filter)] ]} : gmap string task_value)
     !! "actions" = Some (TList [Call run])
     ∧ removes_only_under "__pycache__" "/work" run)
  ∧ fs (Fsutil.recursive_remove "/work" "**/__pycache__" Dodo.isdir_filter
          pycache_world).2
    !! ["work"; "__pycache__"] = None
  ∧ fs (Fsutil.recursive_remove "/work" "**/__pycache__" Dodo.isdir_filter
          pycache_world).2
    !! ["work"; "src"; "__pycache__"] = None
  ∧ fs (Fsutil.recursive_remove "/work" "**/__pycache__" Dodo.isdir_filter
          pycache_world).2
    !! ["work"; "src"; "app.py"] = Some (File "py")
  ∧ fs (Fsutil.recursive_remove "/work" "**/__pycache__" Dodo.isdir_filter
          pycache_world).2
    !! ["work"; ".venv"; "__pycache__"] = Some Dir.
Proof.
  split; last by vm_compute.
  refine (proj2 (proj1 (clean_tasks_remove_only_caches pycache_world pycache_world
                          {[ "basename" := TStr "clean-pycache";
                             "actions" :=
                               TList [Call (Fsutil.recursive_remove "/work"
                                              "**/__pycache__" Dodo.isdir_filter)] ]})
                   _)).
  reflexivity.
Defined.

(** ** [clean_temp] *)

Lemma locate_child t d name :
  good_comp name = true → t !! d = Some Dir →
  locate t d name = Some (d ++ [name]).
Proof.
  intros [Hp Hs]%good_comp_inv Hd. unfold locate.
  assert (name ≠ EmptyString) as Hne%String.eqb_neq by by intros ->.
  rewrite Hne. unfold PosixPath.isabs. rewrite no_slash_startswith by done.
  rewrite no_slash_split by done. cbn [walk]. rewrite Hd.
  by rewrite step_plain.
Qed.

(** One turn of the loop of [clean_temp]. *)
Lemma clean_temp_turn (thedir : string) (w w' : World) :
  good_comp thedir = true → fs w !! cwd w = Some Dir →
  (there ← Dodo.exists_ thedir;
   if there : bool then print ("Removing " +:+ thedir +:+ " ...");; rmtree thedir
   else mret tt) w = (Ok tt, w') →
  cwd w' = cwd w
  ∧ fs w' !! (cwd w ++ [thedir]) = None
  ∧ ∀ k, ¬ (cwd w ++ [thedir]) `prefix_of` k → fs w' !! k = fs w !! k.
Proof.
  intros Hgood Hcwd. unfold Dodo.exists_. rewrite bind_bind, bind_get, bind_ret_l.
  unfold lexists_at, stat. rewrite locate_child by done. cbn [mbind option_bind].
  destruct (fs w !! (cwd w ++ [thedir])) as [n|] eqn:Hn.
  - intros ([] & w1 & [= <-] & (q & Hq & Hdir & Hfs & Hcwd')%rmtree_ok)%bind_inv.
    cbn [fs cwd set_log] in *. rewrite locate_child in Hq by done.
    injection Hq as <-. split; first done. rewrite Hfs. split.
    + rewrite prune_lookup. by rewrite decide_True.
    + intros k Hk. rewrite prune_lookup. by rewrite decide_False.
  - by intros [= <-].
Qed.

(** When [clean_temp] returns, the working directory holds neither
    [.cache] nor [build], every entry that is not one of them or beneath
    one of them is as it was, and the working directory has not
    changed. *)
Theorem clean_temp_removes_cache_and_build (w w' : World) :
  fs w !! cwd w = Some Dir →
  Dodo.clean_temp w = (Ok tt, w') →
  cwd w' = cwd w
  ∧ fs w' !! (cwd w ++ [".cache"]) = None
  ∧ fs w' !! (cwd w ++ ["build"]) = None
  ∧ ∀ k, ¬ (cwd w ++ [".cache"]) `prefix_of` k →
         ¬ (cwd w ++ ["build"]) `prefix_of` k →
         fs w' !! k = fs w !! k.
Proof.
  intros Hcwd. unfold Dodo.clean_temp. cbn [for_each].
  intros ([] & w1 & H1 & H)%bind_inv.
  apply bind_inv in H as ([] & w2 & H2 & [= <-]).
  apply clean_temp_turn in H1 as (Hc1 & Hgone1 & Hkeep1); [|done..].
  assert (fs w1 !! cwd w1 = Some Dir) as Hcwd1.
  { rewrite Hc1, Hkeep1; first done.
    intros [l Hl]. apply (f_equal length) in Hl. rewrite !length_app in Hl.
    cbn in Hl. lia. }
  apply clean_temp_turn in H2 as (Hc2 & Hgone2 & Hkeep2); [|done..].
  rewrite Hc1 in *. split; first done. split; [|split; first done].
  - rewrite Hkeep2; first done.
    intros [l Hl]. rewrite <-app_assoc in Hl. by apply app_inv_head in Hl.
  - intros k Hk1 Hk2. by rewrite Hkeep2, Hkeep1.
Qed.

(** In [/work] the cache directory goes with what it holds. *)
Lemma clean_temp_removes_cache_and_build_witness :
  (Dodo.clean_temp pycache_world).1 = Ok tt
  ∧ fs (Dodo.clean_temp pycache_world).2 !! ["work"; ".cache"; "htmlcov"] = None
  ∧ cwd (Dodo.clean_temp pycache_world).2 = ["work"]
  ∧ fs (Dodo.clean_temp pycache_world).2 !! (["work"] ++ [".cache"]) = None.
Proof.
  split; first by vm_compute. split; first by vm_compute.
  pose proof (clean_temp_removes_cache_and_build pycache_world
                (Dodo.clean_temp pycache_world).2) as H.
  destruct H as (Hcwd & Hcache & _); [reflexivity|vm_compute; reflexivity|].
  split; [exact Hcwd|exact Hcache].
Defined.

(** A regular file named [.cache] stops [clean_temp]: it exists, so the
    removal is printed and tried, and [rmtree] raises
    [NotADirectoryError]; [build] is not looked at. *)
Theorem clean_temp_stops_at_a_file (w : World) (content : string) :
  fs w !! cwd w = Some Dir →
  fs w !! (cwd w ++ [".cache"]) = Some (File content) →
  Dodo.clean_temp w
  = (Raise (NotADirectoryError ".cache"),
     set_log (log w ++ [EvPrint "Removing .cache ..."; EvRmtree ".cache"]) w).
Proof.
  intros Hcwd Hfile. unfold Dodo.clean_temp, Dodo.TEMP_DIR. cbn [for_each].
  erewrite bind_raise; first done.
  unfold Dodo.exists_. rewrite bind_bind, bind_get, bind_ret_l.
  unfold lexists_at, stat. rewrite locate_child by done. cbn [mbind option_bind].
  rewrite Hfile. unfold rmtree, print. run_m. cbn [fs cwd set_log].
  rewrite locate_child by done. rewrite Hfile.
  f_equal. destruct w; cbn. unfold set_log; cbn. by rewrite <-app_assoc.
Qed.

(** With a regular file for [.cache], [clean_temp] prints that it
    removes it, and stops. *)
Lemma clean_temp_stops_at_a_file_witness :
  Dodo.clean_temp
    (set_fs (<[ ["work"; ".cache"] := File "cached" ]> pycache_tree) pycache_world)
  = (Raise (NotADirectoryError ".cache"),
     set_log [EvPrint "Removing .cache ..."; EvRmtree ".cache"]
       (set_fs (<[ ["work"; ".cache"] := File "cached" ]> pycache_tree)
          pycache_world)).
Proof.
  exact (clean_temp_stops_at_a_file
           (set_fs (<[ ["work"; ".cache"] := File "cached" ]> pycache_tree)
              pycache_world)
           "cached" eq_refl eq_refl).
Defined.

Lemma format_from_char kw (c : ascii) (s : string) :
  negb (Ascii.eqb c "{") && negb (Ascii.eqb c "}") = true →
  format_from kw None (String c s)
  = match format_from kw None s with
    | Ok r => Ok (String c r)
    | Raise e => Raise e
    end.
Proof.
  intros Hc. destruct c as [[] [] [] [] [] [] [] []]; try done.
Qed.

Lemma format_from_plain kw (a s : string) :
  no_braces a = true →
  format_from kw None (a +:+ s)
  = match format_from kw None s with
    | Ok r => Ok (a +:+ r)
    | Raise e => Raise e
    end.
Proof.
  induction a as [|c a IH]; intros Ha.
  - rewrite str_app_nil_l. by destruct (format_from kw None s).
  - cbn [no_braces all_chars] in Ha. apply andb_prop in Ha as [Hc Ha].
    rewrite str_app_cons, format_from_char, IH by done.
    by destruct (format_from kw None s).
Qed.

Lemma format_from_name_char kw (acc : string) (c : ascii) (s : string) :
  is_word_char c = true →
  format_from kw (Some acc) (String c s)
  = format_from kw (Some (acc +:+ String c EmptyString)) s.
Proof.
  intros Hc. destruct c as [[] [] [] [] [] [] [] []]; try done.
Qed.

Lemma format_from_name kw (acc name s : string) :
  all_chars is_word_char name = true →
  format_from kw (Some acc) (name +:+ String "}" s)
  = match kw !! (acc +:+ name) with
    | Some v => match format_from kw None s with
                | Ok r => Ok (v +:+ r)
                | Raise e => Raise e
                end
    | None => Raise (KeyError (acc +:+ name))
    end.
Proof.
  revert acc. induction name as [|c name IH]; intros acc Hn.
  - rewrite str_app_nil_l, str_app_nil_r. done.
  - cbn [all_chars] in Hn. apply andb_prop in Hn as [Hc Hn].
    rewrite str_app_cons, format_from_name_char, IH by done.
    by rewrite string_app_assoc.
Qed.

Lemma format_plain kw (s : string) : no_braces s = true → format s kw = Ok s.
Proof.
  intros Hs. unfold format. rewrite <-(str_app_nil_r s) at 1.
  rewrite format_from_plain by done. cbn. by rewrite str_app_nil_r.
Qed.

Lemma format_field kw (a name b : string) :
  no_braces a = true → is_keyword name = true →
  format (a +:+ "{" +:+ name +:+ "}" +:+ b) kw
  = match kw !! name with
    | Some v => match format b kw with
                | Ok r => Ok (a +:+ v +:+ r)
                | Raise e => Raise e
                end
    | None => Raise (KeyError name)
    end.
Proof.
  intros Ha Hn. unfold format. rewrite format_from_plain by done.
  assert (all_chars is_word_char name = true ∧ ∃ c n, name = String c n)
    as [Hw (c & n & Hcn)].
  { destruct name as [|c n]; first done. cbn [is_keyword] in Hn.
    apply andb_prop in Hn as [_ Hn]. eauto. }
  assert (format_from kw None ("{" +:+ name +:+ "}" +:+ b)
          = format_from kw (Some EmptyString) (name +:+ String "}" b)) as ->.
  { rewrite Hcn. rewrite Hcn in Hw. cbn [all_chars] in Hw.
    apply andb_prop in Hw as [Hc _].
    change ("{" +:+ String c n +:+ "}" +:+ b)
      with (String "{" (String c (n +:+ String "}" b))).
    rewrite str_app_cons.
    destruct c as [[] [] [] [] [] [] [] []]; try done. }
  rewrite format_from_name by done. rewrite str_app_nil_l.
  destruct (kw !! name) as [v|]; last done.
  by destruct (format_from kw None b).
Qed.

(** [substitute_keywords] keeps the names of the items and their order;
    it returns a dictionary of templates without braces as it is,
    whatever the keywords; a template [a{field}b] whose [a] has no brace
    becomes [a], the value of the keyword [field] and what [b] becomes,
    and raises [KeyError] when the keyword is missing.  On the three
    items [main_url] hands over, it is the [substitute_keywords] of the
    downloader. *)
Theorem substitute_keywords_substitutes (kw : gmap string string) :
  (∀ template_dict out,
     substitute_keywords_dict template_dict kw = Ok out →
     out.*1 = template_dict.*1)
  ∧ (∀ template_dict,
       Forall (λ it, no_braces it.2 = true) template_dict →
       substitute_keywords_dict template_dict kw = Ok template_dict)
  ∧ (∀ name a field b,
       no_braces a = true → is_keyword field = true →
       substitute_keywords_dict [(name, a +:+ "{" +:+ field +:+ "}" +:+ b)] kw
       = match kw !! field with
         | Some v => match format b kw with
                     | Ok r => Ok [(name, a +:+ v +:+ r)]
                     | Raise e => Raise e
                     end
         | None => Raise (KeyError field)
         end)
  ∧ (∀ template w,
       substitute_keywords template kw w
       = match substitute_keywords_dict
                 [("scheme", scheme template); ("netloc", netloc template);
                  ("path", path template)] kw with
         | Ok out =>
             (Ok (mkUrlParts (item "scheme" out) (item "netloc" out)
                    (item "path" out) (params template) (query template)
                    (fragment template)), w)
         | Raise e => (Raise e, w)
         end).
Proof.
  repeat split.
  - intros template_dict. induction template_dict as [|[name value] rest IH];
      intros out; cbn [substitute_keywords_dict].
    + by intros [= <-].
    + destruct (format value kw) as [v|e]; last done.
      destruct (substitute_keywords_dict rest kw) as [out'|e]; last done.
      intros [= <-]. cbn. f_equal. by apply IH.
  - intros template_dict. induction template_dict as [|[name value] rest IH];
      first done.
    intros [Hv Hrest]%Forall_cons. cbn [substitute_keywords_dict].
    rewrite format_plain by done. by rewrite IH.
  - intros name a field b Ha Hf. cbn [substitute_keywords_dict].
    rewrite format_field by done.
    destruct (kw !! field) as [v|]; last done.
    by destruct (format b kw).
  - intros template w. unfold substitute_keywords. cbn [substitute_keywords_dict].
    run_m.
    destruct (format (scheme template) kw) as [s|e]; last done.
    destruct (format (netloc template) kw) as [n|e]; last done.
    destruct (format (path template) kw) as [p|e]; last done.
    done.
Qed.

(** The docstring of [substitute_keywords]. *)
Lemma substitute_keywords_substitutes_witness :
  substitute_keywords_dict [("call_message", "please call {name}")]
    {[ "name" := "Alissa" ]}
  = Ok [("call_message", "please call Alissa")]
  ∧ substitute_keywords_dict [("call_message", "please call {name}")] ∅
    = Raise (KeyError "name").
Proof.
  split.
  - exact (proj1 (proj2 (proj2 (substitute_keywords_substitutes
                                  {[ "name" := "Alissa" ]})))
             "call_message" "please call " "name" "" eq_refl eq_refl).
  - exact (proj1 (proj2 (proj2 (substitute_keywords_substitutes ∅)))
             "call_message" "please call " "name" "" eq_refl eq_refl).
Defined.

(** ** [get_latest_release_for_version] *)

Lemma rstrip_by_idem f (s : string) :
  rstrip_by f (rstrip_by f s) = rstrip_by f s.
Proof.
  induction s as [|a s IH]; first done.
  rewrite rstrip_by_cons.
  destruct (String.eqb_spec (rstrip_by f s) EmptyString) as [E|E].
  - rewrite E. cbn [andb]. destruct (f a) eqn:Ha; first done.
    cbn. by rewrite Ha.
  - cbn [andb]. rewrite rstrip_by_cons, IH.
    apply String.eqb_neq in E. by rewrite E.
Qed.

Lemma lstrip_by_rstrip_by f (s : string) :
  lstrip_by f s = s → lstrip_by f (rstrip_by f s) = rstrip_by f s.
Proof.
  destruct s as [|a s]; first done. cbn [lstrip_by].
  destruct (f a) eqn:Ha.
  - intros E. apply (f_equal String.length) in E. exfalso.
    assert (∀ x, String.length (lstrip_by f x) ≤ String.length x)%nat as Hle.
    { induction x as [|b x IHx]; first done. cbn. destruct (f b); cbn; lia. }
    specialize (Hle s). cbn in E. lia.
  - intros _. rewrite rstrip_by_cons, Ha, andb_false_r.
    cbn [lstrip_by]. by rewrite Ha.
Qed.

Lemma lstrip_by_idem f (s : string) : lstrip_by f (lstrip_by f s) = lstrip_by f s.
Proof.
  induction s as [|a s IH]; first done. cbn [lstrip_by].
  destruct (f a) eqn:Ha; first done. cbn. by rewrite Ha.
Qed.

Lemma strip_idem (s : string) : strip (strip s) = strip s.
Proof.
  unfold strip. rewrite lstrip_by_rstrip_by by apply lstrip_by_idem.
  apply rstrip_by_idem.
Qed.



Lemma words_go_some (c : string) (s : string) : words_go (Some c) s ≠ [].
Proof.
  revert c. induction s as [|a s IH]; intros c; first done.
  cbn [words_go]. destruct (is_space a); [done|apply IH].
Qed.

Lemma lstrip_by_first f (s : string) a r :
  lstrip_by f s = String a r → f a = false.
Proof.
  induction s as [|b s IH]; first done. cbn [lstrip_by].
  destruct (f b) eqn:Hb; first done. by intros [= <- _].
Qed.

Lemma rstrip_by_first f (s : string) a r :
  rstrip_by f s = String a r → ∃ s', s = String a s'.
Proof.
  destruct s as [|b s]; first done. rewrite rstrip_by_cons.
  destruct (_ && _); first done. intros [= <- _]. eauto.
Qed.

Lemma strip_words (line : string) :
  strip line ≠ EmptyString → words (strip line) ≠ [].
Proof.
  intros Hne. destruct (strip line) as [|a r] eqn:E; first done.
  unfold strip in E. pose proof E as [s' Hs']%rstrip_by_first.
  apply lstrip_by_first in Hs'. unfold words. cbn [words_go]. rewrite Hs'.
  apply words_go_some.
Qed.

(** What [process] collects is never blank. *)
Lemma process_collects_words (self : DepExtractor) (line : string) :
  Forall (λ d, words d ≠ []) (_deps self) →
  Forall (λ d, words d ≠ []) (_deps (process self line)).
Proof.
  intros Hinv. unfold process.
  destruct (String.eqb_spec (strip line) EmptyString) as [E|E]; cbn [andb].
  - destruct (_in_dep_section self); first done.
    destruct (contains line "dependencies]"); done.
  - destruct (contains line "dependencies]"); first done.
    destruct (_in_dep_section self); last done.
    destruct (bool_decide _); first done. cbn.
    apply Forall_app. split; first done.
    constructor; [by apply strip_words|constructor].
Qed.

Lemma process_all_collects_words (lines : list string) (self : DepExtractor) :
  Forall (λ d, words d ≠ []) (_deps self) →
  Forall (λ d, words d ≠ []) (_deps (process_all self lines)).
Proof.
  revert self. induction lines as [|line lines IH]; intros self Hinv; first done.
  cbn. apply IH. by apply process_collects_words.
Qed.

Lemma deps_from_plain (lines : list string) :
  Forall (λ d, words d ≠ []) lines →
  Forall (λ d, contains d "extras" = false) lines →
  deps_from lines = ((λ d, default EmptyString (head (words d))) <$> lines, None).
Proof.
  induction lines as [|line lines IH]; first done.
  intros [Hw Hws]%Forall_cons [He Hes]%Forall_cons.
  cbn [deps_from]. rewrite He, IH by done. cbn [fmap list_fmap].
  destruct (words line) as [|name ws]; first done.
  cbn. by rewrite str_app_nil_r.
Qed.

(** Whatever lines a new [DepExtractor] has processed, every line it has
    collected has a first word; so when none of them mentions [extras],
    [deps] yields the first word of each and raises nothing. *)
Theorem deps_never_fails_without_extras (lines : list string) :
  let self := process_all __init__ lines in
  Forall (λ d, words d ≠ []) (_deps self)
  ∧ (Forall (λ d, contains d "extras" = false) (_deps self) →
     deps self
     = ((λ d, default EmptyString (head (words d))) <$> _deps self, None)).
Proof.
  intros self.
  assert (Forall (λ d, words d ≠ []) (_deps self)) as Hinv.
  { apply process_all_collects_words. constructor. }
  split; first done. intros He. by apply deps_from_plain.
Qed.

(** The names of the dependencies of the file. *)
Lemma deps_never_fails_without_extras_witness :
  deps (process_all __init__
          (pyproject_head ++ "[tool.poetry.dependencies]"
             :: pyproject_deps ++ "" :: pyproject_tail))
  = (["flask"; "requests"], None).
Proof.
  pose proof (deps_never_fails_without_extras
                (pyproject_head ++ "[tool.poetry.dependencies]"
                   :: pyproject_deps ++ "" :: pyproject_tail)) as [_ H].
  rewrite H.
  - vm_compute. reflexivity.
  - vm_compute. repeat constructor.
Defined.

Lemma process_all_cons self l lines :
  process_all self (l :: lines) = process_all (process self l) lines.
Proof. reflexivity. Qed.

Lemma process_all_app self a b :
  process_all self (a ++ b) = process_all (process_all self a) b.
Proof. apply fold_left_app. Qed.

Lemma process_all_outside (self : DepExtractor) (lines : list string) :
  _in_dep_section self = false →
  Forall (λ l, contains l "dependencies]" = false) lines →
  process_all self lines = self.
Proof.
  intros Hout. induction lines as [|l lines IH]; first done.
  intros [Hl Hls]%Forall_cons. rewrite process_all_cons.
  assert (process self l = self) as ->; last by apply IH.
  unfold process. by rewrite Hout, andb_false_r, Hl.
Qed.

Lemma process_all_inside (lines : list string) (deps0 : list string) :
  Forall (λ l, strip l ≠ EmptyString ∧ contains l "dependencies]" = false) lines →
  process_all (mkDepExtractor true deps0) lines
  = mkDepExtractor true
      (deps0 ++ (strip <$> filter (λ l, "python" ∉ words l) lines)).
Proof.
  revert deps0. induction lines as [|l lines IH]; intros deps0.
  - intros _. cbn. by rewrite app_nil_r.
  - intros [[Hne Hl] Hls]%Forall_cons. rewrite process_all_cons.
    unfold process. cbn [_in_dep_section _deps].
    apply String.eqb_neq in Hne. rewrite Hne, Hl. cbn [andb].
    destruct (decide ("python" ∈ words l)) as [Hpy|Hpy].
    + rewrite bool_decide_true by done.
      rewrite filter_cons_False by (intros H; by apply H).
      by apply IH.
    + rewrite bool_decide_false by done. rewrite filter_cons_True by done.
      rewrite IH by done. cbn [fmap list_fmap]. by rewrite <-app_assoc.
Qed.

(** On a file with one dependencies section, that is lines without
    header, the header, lines that are neither blank nor headers, a
    blank line and lines without header, [process] collects the lines of
    the section, stripped and in order, those with the word [python]
    left out, and ends outside the section. *)
Theorem process_collects_the_section (pre body post : list string)
    (header blank : string) :
  Forall (λ l, contains l "dependencies]" = false) pre →
  contains header "dependencies]" = true →
  Forall (λ l, strip l ≠ EmptyString ∧ contains l "dependencies]" = false) body →
  strip blank = EmptyString →
  Forall (λ l, contains l "dependencies]" = false) post →
  process_all __init__ (pre ++ header :: body ++ blank :: post)
  = mkDepExtractor false (strip <$> filter (λ l, "python" ∉ words l) body).
Proof.
  intros Hpre Hheader Hbody Hblank Hpost.
  rewrite process_all_app, (process_all_outside __init__ pre) by done.
  rewrite process_all_cons.
  assert (process __init__ header = mkDepExtractor true []) as ->.
  { unfold process. cbn [_in_dep_section __init__].
    by rewrite andb_false_r, Hheader. }
  rewrite process_all_app, (process_all_inside body) by done.
  rewrite process_all_cons. cbn [app].
  assert (∀ d, process (mkDepExtractor true d) blank = mkDepExtractor false d) as ->.
  { intros d. unfold process. cbn [_in_dep_section _deps]. by rewrite Hblank. }
  by apply process_all_outside.
Qed.

(** The section of the file is collected, [python] left out. *)
Lemma process_collects_the_section_witness :
  process_all __init__
    (pyproject_head ++ "[tool.poetry.dependencies]"
       :: pyproject_deps ++ "" :: pyproject_tail)
  = mkDepExtractor false ["flask = '^1.1.2'"; "requests = '^2.25'"].
Proof.
  pose proof (process_collects_the_section pyproject_head pyproject_deps
                pyproject_tail "[tool.poetry.dependencies]" "") as H.
  rewrite H.
  - vm_compute. reflexivity.
  - repeat constructor.
  - reflexivity.
  - repeat constructor; discriminate.
  - reflexivity.
  - repeat constructor.
Defined.

(** ** [unarchive]: where the members land *)

Lemma fold_left_step_plain comps cur :
  forallb plain_comp comps = true → fold_left step comps cur = cur ++ comps.
Proof.
  revert cur. induction comps as [|c comps IH]; intros cur.
  - by rewrite app_nil_r.
  - cbn. intros [Hc Hp]%andb_prop. rewrite step_plain, IH by done.
    by rewrite <-app_assoc.
Qed.

Lemma missing_parents_none t k :
  (∀ i, (i < length k)%nat → is_Some (t !! take i k)) → missing_parents t k = [].
Proof.
  intros Hk. unfold missing_parents.
  assert (∀ l : list (list string),
            Forall (λ d, is_Some (t !! d)) l → filter (λ d, t !! d = None) l = [])
    as Hnil.
  { induction l as [|x l IH]; first done. intros [[n Hx] Hl]%Forall_cons.
    rewrite filter_cons_False by congruence. by apply IH. }
  apply Hnil, Forall_fmap, Forall_forall. intros i Hi%elem_of_seq.
  apply Hk. lia.
Qed.

Lemma extract_member_beside (d : list string) (n c : string) (w : World) :
  reachable (fs w) d → good_comp n = true →
  fs w !! (d ++ [n]) ≠ Some Dir →
  extract_member (path_of d) (n, c) w
  = (Ok tt, set_fs (<[d ++ [n] := File c]> (fs w)) w).
Proof.
  intros [Hg Hd] Hn Hnd. unfold extract_member. rewrite bind_get. cbn [fst snd].
  rewrite join2_path_of by done.
  assert (forallb good_comp (d ++ [n]) = true) as Hg'.
  { rewrite forallb_app, Hg. cbn. by rewrite Hn. }
  pose proof (forallb_good _ Hg') as [Hp Hs].
  change (PosixPath.isabs (path_of (d ++ [n]))) with true. cbn match.
  rewrite split_path_of by done.
  assert (fold_left step
            (EmptyString :: (if d ++ [n] is [] then [EmptyString] else d ++ [n])) []
          = d ++ [n]) as ->.
  { destruct (d ++ [n]) as [|x l] eqn:E; first by destruct d.
    change (fold_left step (EmptyString :: x :: l) [])
      with (fold_left step (x :: l) []).
    by rewrite fold_left_step_plain. }
  assert (∀ i, (i < length (d ++ [n]))%nat → fs w !! take i (d ++ [n]) = Some Dir)
    as Hdirs.
  { intros i Hi. rewrite length_app in Hi. cbn in Hi.
    rewrite take_app_le by lia. apply Hd. lia. }
  rewrite missing_parents_none.
  2:{ intros i Hi. rewrite Hdirs by done. eauto. }
  cbn [foldr]. rewrite locate_path_of; [|done|done|by destruct d].
  destruct (fs w !! (d ++ [n])) as [[]|]; done.
Qed.

Lemma extracted_other d members t k :
  k ∉ (λ m : string * string, d ++ [m.1]) <$> members →
  extracted d members t !! k = t !! k.
Proof.
  revert t. induction members as [|m ms IH]; intros t; first done.
  cbn [fmap list_fmap]. rewrite not_elem_of_cons. intros [Hk Hks].
  unfold extracted. cbn [foldl]. fold (extracted d ms (<[d ++ [m.1] := File m.2]> t)).
  rewrite IH by done. by rewrite lookup_insert_ne.
Qed.

Lemma extracted_member d members t n c :
  NoDup members.*1 → (n, c) ∈ members →
  extracted d members t !! (d ++ [n]) = Some (File c).
Proof.
  revert t. induction members as [|m ms IH]; intros t Hnd Hin.
  - by apply elem_of_nil in Hin.
  - cbn in Hnd. apply NoDup_cons in Hnd as [Hm Hnd].
    unfold extracted. cbn [foldl]. fold (extracted d ms (<[d ++ [m.1] := File m.2]> t)).
    apply elem_of_cons in Hin as [<-|Hin]; last by apply IH.
    rewrite extracted_other; first by rewrite lookup_insert_eq.
    intros ([n' c'] & E & Hin')%list_elem_of_fmap. cbn in E.
    apply app_inv_head in E. injection E as ->. apply Hm.
    apply list_elem_of_fmap. by exists (n', c').
Qed.

Lemma reachable_insert_file t d n c :
  reachable t d → reachable (<[d ++ [n] := File c]> t) d.
Proof.
  intros [Hg Hd]. split; first done. intros i Hi.
  rewrite lookup_insert_ne; first by apply Hd.
  intros E. apply (f_equal length) in E. rewrite length_app, length_take in E.
  cbn in E. lia.
Qed.

Lemma for_each_extract_member (d : list string) (members : list (string * string))
    (w : World) :
  reachable (fs w) d →
  Forall (λ m, good_comp m.1 = true ∧ fs w !! (d ++ [m.1]) ≠ Some Dir) members →
  for_each members (extract_member (path_of d)) w
  = (Ok tt, set_fs (extracted d members (fs w)) w).
Proof.
  revert w. induction members as [|[n c] ms IH]; intros w Hreach Hms.
  - cbn. by rewrite set_fs_id.
  - apply Forall_cons in Hms as [[Hn Hnd] Hms]. cbn [for_each fst snd] in *.
    erewrite bind_ok; last by apply extract_member_beside.
    rewrite IH.
    + cbn [fs set_fs]. by destruct w.
    + cbn [fs set_fs]. by apply reachable_insert_file.
    + cbn [fs set_fs]. eapply Forall_impl; first done.
      intros [n' c'] [Hn' Hnd']. split; first done. cbn [fst] in *.
      destruct (decide (d ++ [n] = d ++ [n'])) as [<-|Hne].
      * by rewrite lookup_insert_eq.
      * by rewrite lookup_insert_ne.
Qed.

Lemma all_chars_path_of d :
  d ≠ [] → forallb good_comp d = true →
  all_chars (Ascii.eqb "/") (path_of d +:+ "/") = false.
Proof.
  intros Hd Hg. rewrite all_chars_app.
  destruct (all_chars (Ascii.eqb "/") (path_of d)) eqn:E; last done.
  apply all_slashes_endswith in E; last done.
  by rewrite path_of_not_endswith in E.
Qed.

Lemma dirname_path_of d name :
  forallb good_comp d = true → good_comp name = true →
  PosixPath.dirname (path_of (d ++ [name])) = path_of d.
Proof.
  intros Hg [Hp Hs]%good_comp_inv. unfold PosixPath.dirname.
  destruct d as [|x l].
  - change (path_of ([] ++ [name])) with (EmptyString +:+ String "/" name).
    by rewrite head_part_app.
  - assert (path_of ((x :: l) ++ [name]) = path_of (x :: l) +:+ String "/" name)
      as ->.
    { unfold path_of. by rewrite join_snoc, string_app_assoc. }
    rewrite head_part_app by done. rewrite app_nonempty. cbn [negb andb].
    unfold PosixPath.sep. rewrite all_chars_path_of by done. cbn [negb].
    apply rstrip_app_slash; first done. by apply path_of_not_endswith.
Qed.

(** [unarchive] of an archive that stands in a directory [d] its path
    leads to, with members whose names are names of entries, no two
    alike and none of them a directory of [d]: it returns, every member
    is a file of [d] with its content, every other entry, the archive
    included when no member has its name, is as it was, and the working
    directory has not changed. *)
Theorem unarchive_puts_the_members_beside (d : list string)
    (name bytes : string) (members : list (string * string)) (w : World) :
  let fullpath := path_of (d ++ [name]) in
  reachable (fs w) d → good_comp name = true →
  fs w !! (d ++ [name]) = Some (File bytes) →
  ((endswith fullpath ".tar.gz" = true ∨ PosixPath.splitext_ext fullpath = ".tgz")
   ∧ untar w bytes = Some members)
  ∨ (PosixPath.splitext_ext fullpath = ".zip" ∧ unzip w bytes = Some members) →
  Forall (λ m, good_comp m.1 = true ∧ fs w !! (d ++ [m.1]) ≠ Some Dir) members →
  NoDup members.*1 →
  ∃ w', Fsutil.unarchive fullpath w = (Ok tt, w')
        ∧ cwd w' = cwd w
        ∧ (∀ n c, (n, c) ∈ members → fs w' !! (d ++ [n]) = Some (File c))
        ∧ (∀ k, k ∉ (λ m : string * string, d ++ [m.1]) <$> members →
                fs w' !! k = fs w !! k).
Proof.
  intros fullpath Hreach Hname Hfile Hkind Hmembers Hnd.
  assert (forallb good_comp (d ++ [name]) = true) as Hg'.
  { destruct Hreach as [Hg _]. rewrite forallb_app, Hg. cbn. by rewrite Hname. }
  assert (stat (fs w) (cwd w) fullpath = Some (File bytes)) as Hstat.
  { unfold stat, fullpath. rewrite locate_path_of; [done|done| |by destruct d].
    intros i Hi. rewrite length_app in Hi. cbn in Hi.
    rewrite take_app_le by lia. apply Hreach. lia. }
  assert (∀ decode bad, decode w bytes = Some members →
            extractall decode bad fullpath (PosixPath.dirname fullpath) w
            = (Ok tt, set_fs (extracted d members (fs w))
                        (set_log (log w ++ [EvExtractAll fullpath (path_of d)]) w)))
    as Hextract.
  { intros decode bad Hdecode. unfold extractall. rewrite bind_get, Hstat, Hdecode.
    unfold fullpath. rewrite dirname_path_of; [|apply Hreach|done].
    erewrite bind_ok; last reflexivity.
    by rewrite for_each_extract_member. }
  eexists. split; [|split; [|split]].
  - unfold Fsutil.unarchive.
    destruct Hkind as [[Htar Hdecode]|[Hzip Hdecode]].
    + assert (endswith fullpath ".tar.gz"
              || String.eqb (PosixPath.splitext_ext fullpath) ".tgz" = true) as ->.
      { destruct Htar as [->| ->]; [done|by rewrite orb_true_r]. }
      by apply Hextract.
    + assert (endswith fullpath ".tar.gz" = false) as ->.
      { destruct (endswith fullpath ".tar.gz") eqn:E; last done.
        apply splitext_ext_tar_gz in E. congruence. }
      rewrite Hzip. cbn [orb String.eqb]. cbn. by apply Hextract.
  - done.
  - intros n c Hin. cbn [fs set_fs]. by apply extracted_member.
  - intros k Hk. cbn [fs set_fs]. by apply extracted_other.
Qed.

(** The tar archive of [unarchive_world]. *)
Lemma unarchive_puts_the_members_beside_witness :
  ∃ w', Fsutil.unarchive "/tmp/driver.tar.gz" unarchive_world = (Ok tt, w')
        ∧ cwd w' = cwd unarchive_world
        ∧ (∀ n c, (n, c) ∈ [("geckodriver", "ELF")] →
                  fs w' !! (["tmp"] ++ [n]) = Some (File c))
        ∧ (∀ k, k ∉ (λ m : string * string, ["tmp"] ++ [m.1])
                      <$> [("geckodriver", "ELF")] →
                fs w' !! k = fs unarchive_world !! k).
Proof.
  refine (unarchive_puts_the_members_beside ["tmp"] "driver.tar.gz" "T"
            [("geckodriver", "ELF")] unarchive_world _ eq_refl eq_refl _ _ _).
  - split; first reflexivity.
    intros [|[|i]] Hi; [reflexivity|reflexivity|simpl in Hi; lia].
  - left. split; [left; reflexivity|reflexivity].
  - constructor; [|constructor]. split; first reflexivity.
    vm_compute. discriminate.
  - vm_compute. constructor; [|constructor]. intros H. inversion H.
Defined.
